(** * Enhanced RLM retrieval pipeline: a shallow embedding and its properties

    The development follows the Python package [enhanced_rlm]:
    [config.py], [search.py], [chunker.py], [ranker.py],
    [haiku_client.py] and [server.py].  Each module below embeds the
    functions of one source file; the properties come after all the
    definitions.

    Conventions.
    - A Python [str] is a list of characters.  Characters are code points
      below 256 (the Latin-1 range), carried by [ascii]; the character
      classes of [re] ([\w], [\s], [\d]) and [str.lower] are written out
      for that range as CPython defines them.  Module [Wide] embeds the
      keyword extraction over a larger alphabet, where [str.lower] changes
      the number of characters.
    - Python integers are [Z]; list lengths and line indices are [nat]
      where the source only counts.
    - A [dict] used as a map is a [gmap]; a [dict] whose iteration order
      matters is an association list.
    - External effects (the search tools, the summarization backend, the
      wall clock, the MD5 digest) are explicit arguments. *)

From Stdlib Require Import List Ascii String ZArith NArith QArith Reals Lra Lia.
From Stdlib Require Import DecimalString Sorting.Sorted.
From stdpp Require Import gmap strings list.
Import ListNotations.

Set Default Proof Using "Type".

(** ** Python strings *)

Module PyStr.

Definition str := list ascii.

(** String literals of the source are written [py "..."]. *)
Definition py (s : string) : str := list_ascii_of_string s.

Definition code (c : ascii) : N := N_of_ascii c.

Definition in_range (lo hi : N) (c : ascii) : bool :=
  (lo <=? code c)%N && (code c <=? hi)%N.

Definition is_ascii_lower : ascii -> bool := in_range 97 122.
Definition is_ascii_upper : ascii -> bool := in_range 65 90.

(** [\d] of [re] on [str] patterns: the decimal digits. *)
Definition is_digit : ascii -> bool := in_range 48 57.

(** The class [[a-zA-Z_]]. *)
Definition is_ident_start (c : ascii) : bool :=
  is_ascii_lower c || is_ascii_upper c || (code c =? 95)%N.

(** The class [[a-zA-Z0-9_]]. *)
Definition is_ident_char (c : ascii) : bool :=
  is_ident_start c || is_digit c.

(** [\w] of [re] on [str] patterns: [c.isalnum() or c == '_']. *)
Definition is_word (c : ascii) : bool :=
  is_ident_char c
  || (code c =? 170)%N || (code c =? 178)%N || (code c =? 179)%N
  || (code c =? 181)%N || (code c =? 185)%N || (code c =? 186)%N
  || in_range 188 190 c || in_range 192 214 c
  || in_range 216 246 c || in_range 248 255 c.

(** [\s] of [re] and the characters removed by [str.strip]: [c.isspace()]. *)
Definition is_space (c : ascii) : bool :=
  in_range 9 13 c || in_range 28 32 c
  || (code c =? 133)%N || (code c =? 160)%N.

(** [str.lower] on one character. *)
Definition lower_char (c : ascii) : ascii :=
  if is_ascii_upper c || (in_range 192 222 c && negb (code c =? 215)%N)
  then ascii_of_N (code c + 32)
  else c.

Definition lower (s : str) : str := map lower_char s.

Definition str_eqb (a b : str) : bool := bool_decide (a = b).

(** [s.startswith(p)]. *)
Fixpoint starts_with (p s : str) : bool :=
  match p, s with
  | [], _ => true
  | _ :: _, [] => false
  | a :: p', b :: s' => bool_decide (a = b) && starts_with p' s'
  end.

(** [sub in s]. *)
Fixpoint contains (sub s : str) : bool :=
  starts_with sub s ||
  match s with
  | [] => false
  | _ :: s' => contains sub s'
  end.

(** [s.count(sub)]: the number of non-overlapping occurrences, scanning
    from the left; [skip] is the number of characters still covered by the
    occurrence found last.  The empty string occurs [len(s) + 1] times. *)
Fixpoint count_from (skip : nat) (sub s : str) : nat :=
  match s with
  | [] => match skip with O => if starts_with sub [] then 1 else 0 | S _ => 0 end
  | _ :: s' =>
      match skip with
      | S k => count_from k sub s'
      | O => if starts_with sub s
             then S (count_from (Nat.pred (length sub)) sub s')
             else count_from 0 sub s'
      end
  end.

Definition count (sub s : str) : nat := count_from 0 sub s.

(** [s.split(sep)] for a one-character separator: never empty. *)
Fixpoint split (sep : ascii) (s : str) : list str :=
  match s with
  | [] => [[]]
  | c :: s' =>
      if bool_decide (c = sep) then [] :: split sep s'
      else match split sep s' with
           | [] => [[c]]
           | l :: ls => (c :: l) :: ls
           end
  end.

(** [sep.join(parts)]. *)
Fixpoint join (sep : str) (parts : list str) : str :=
  match parts with
  | [] => []
  | [p] => p
  | p :: ps => p ++ sep ++ join sep ps
  end.

(** [s.lstrip()], [s.rstrip()] and [s.strip()]. *)
Fixpoint lstrip (s : str) : str :=
  match s with
  | [] => []
  | c :: s' => if is_space c then lstrip s' else s
  end.

Definition rstrip (s : str) : str := rev (lstrip (rev s)).

Definition strip (s : str) : str := rstrip (lstrip s).

(** [s[:n]]. *)
Definition prefix (n : nat) (s : str) : str := take n s.

End PyStr.
Import PyStr.

(** ** config.py *)

Module Config.

Record HaikuConfig := {
  model : str;
  simple_budget : Z;
  code_example_budget : Z;
  complex_budget : Z;
  default_budget : Z
}.

(** The dataclass defaults. *)
Definition HaikuConfig_default : HaikuConfig := {|
  model := py "claude-3-5-haiku-20241022";
  simple_budget := 1000;
  code_example_budget := 4000;
  complex_budget := 6000;
  default_budget := 2000
|}.

Record SearchConfig := {
  max_results : Z;
  chunk_size : Z;
  top_chunks : Z
}.

Definition SearchConfig_default : SearchConfig :=
  {| max_results := 50; chunk_size := 500; top_chunks := 10 |}.

Record KnowledgeBaseConfig := {
  root_file : str;
  docs_folder : str;
  file_patterns : list str;
  exclude_patterns : list str
}.

Definition KnowledgeBaseConfig_default : KnowledgeBaseConfig := {|
  root_file := py "CLAUDE.md";
  docs_folder := py ".claude";
  file_patterns := map py [
    "*.md"; "*.py"; "*.prg"; "*.ch"; "*.c"; "*.h"; "*.cs"; "*.ts"; "*.tsx";
    "*.js"; "*.jsx"; "*.sql"; "*.ps1"; "*.sh" ]%string;
  exclude_patterns := map py [ "*.pyc"; "__pycache__"; ".git"; "node_modules" ]%string
|}.

Record Config := {
  workspace_path : str;
  knowledge_base : KnowledgeBaseConfig;
  search : SearchConfig;
  haiku : HaikuConfig
}.

(** [workspace_path / name]. *)
Definition path_join (dir name : str) : str := dir ++ py "/" ++ name.

Definition root_file_path (c : Config) : str :=
  path_join (workspace_path c) (root_file (knowledge_base c)).

Definition docs_folder_path (c : Config) : str :=
  path_join (workspace_path c) (docs_folder (knowledge_base c)).

(** [Config.get_search_paths]; [exists] is [Path.exists]. *)
Definition get_search_paths (exists_ : str -> bool) (c : Config) : list str :=
  (if exists_ (root_file_path c) then [root_file_path c] else [])
  ++ (if exists_ (docs_folder_path c) then [docs_folder_path c] else []).

(** [Config.has_knowledge_base]. *)
Definition has_knowledge_base (exists_ : str -> bool) (c : Config) : bool :=
  exists_ (root_file_path c) || exists_ (docs_folder_path c).

(** [get_token_budget]: a three-entry dictionary read with [dict.get] and
    a default. *)
Definition budgets (config : HaikuConfig) : gmap str Z :=
  <[py "complex" := complex_budget config]>
    (<[py "code_example" := code_example_budget config]>
       (<[py "simple" := simple_budget config]> ∅)).

Definition get_token_budget (query_type : str) (config : HaikuConfig) : Z :=
  default (default_budget config) (budgets config !! query_type).

End Config.
Import Config.

(** ** search.py *)

Module Search.

Definition backslash : ascii := ascii_of_N 92.
Definition newline : ascii := ascii_of_N 10.

(** [is_wsl_path]. *)
Definition is_wsl_path (path_str : str) : bool :=
  starts_with (py "\\wsl.localhost\") path_str || starts_with (py "\\wsl$\") path_str.

(** [remainder.split("\\", 1)]: the text before the first backslash and,
    when there is one, the text after it. *)
Fixpoint split_once (sep : ascii) (s : str) : str * option str :=
  match s with
  | [] => ([], None)
  | c :: s' =>
      if bool_decide (c = sep) then ([], Some s')
      else let '(a, b) := split_once sep s' in (c :: a, b)
  end.

(** [s.replace("\\", "/")]. *)
Definition replace_char (a b : ascii) (s : str) : str :=
  map (fun c => if bool_decide (c = a) then b else c) s.

(** [wsl_path_to_linux]. *)
Definition wsl_path_to_linux (path_str : str) : str :=
  let convert (remainder : str) :=
    match snd (split_once backslash remainder) with
    | Some rest => py "/" ++ replace_char backslash "/"%char rest
    | None => py "/"
    end in
  if starts_with (py "\\wsl.localhost\") path_str
  then convert (drop (length (py "\\wsl.localhost\")) path_str)
  else if starts_with (py "\\wsl$\") path_str
  then convert (drop (length (py "\\wsl$\")) path_str)
  else path_str.

(** The stop words, a Python [set]. *)
Definition stop_word_list : list string := [
    "a"; "an"; "the"; "is"; "are"; "was"; "were"; "be"; "been"; "being";
    "have"; "has"; "had"; "do"; "does"; "did"; "will"; "would"; "could";
    "should"; "may"; "might"; "must"; "shall"; "can"; "need"; "dare";
    "ought"; "used"; "to"; "of"; "in"; "for"; "on"; "with"; "at"; "by";
    "from"; "as"; "into"; "through"; "during"; "before"; "after"; "above";
    "below"; "between"; "under"; "again"; "further"; "then"; "once"; "here";
    "there"; "when"; "where"; "why"; "how"; "all"; "each"; "few"; "more";
    "most"; "other"; "some"; "such"; "no"; "nor"; "not"; "only"; "own";
    "same"; "so"; "than"; "too"; "very"; "just"; "also"; "now"; "i"; "me";
    "my"; "myself"; "we"; "our"; "ours"; "you"; "your"; "yours"; "he"; "him";
    "his"; "she"; "her"; "hers"; "it"; "its"; "they"; "them"; "their";
    "what"; "which"; "who"; "whom"; "this"; "that"; "these"; "those"; "am"
  ]%string.

Definition STOP_WORDS : gset str := list_to_set (map py stop_word_list).

(** [file_path] holds the text of the path object, [str(file_path)]. *)
Record SearchResult := {
  file_path : str;
  line_number : Z;
  line_content : str;
  match_text : str
}.

(** *** The regular expression of [extract_keywords]

    [re.findall(r"\b[a-zA-Z_][a-zA-Z0-9_]*\b", s)] scans [s] from the left;
    at each position it tries the pattern, and after a match it resumes
    behind the matched text. *)

(** The longest prefix made of characters of a class (a greedy [*]). *)
Fixpoint take_class (cls : ascii -> bool) (s : str) : str :=
  match s with
  | c :: s' => if cls c then c :: take_class cls s' else []
  | [] => []
  end.

(** [\b] between two positions: exactly one side is a word character; the
    outside of the string counts as a non-word character. *)
Definition word_at (s : str) : bool :=
  match s with
  | c :: _ => is_word c
  | [] => false
  end.

Definition boundary (left_is_word : bool) (right : str) : bool :=
  xorb left_is_word (word_at right).

(** Backtracking of the greedy [[a-zA-Z0-9_]*] before the closing [\b]:
    the engine tries [n] characters after the first one, then fewer.  The
    boundary is tested between the last matched character and the text
    that follows it. *)
Fixpoint close_ident (c : ascii) (rest : str) (n : nat) : option str :=
  let m := c :: take n rest in
  if boundary (is_word (List.last m c)) (drop n rest) then Some m
  else match n with
       | O => None
       | S k => close_ident c rest k
       end.

(** One attempt of the pattern at the head of [s]; [prev_word] tells
    whether the character before [s] is a word character. *)
Definition match_ident (prev_word : bool) (s : str) : option str :=
  match s with
  | [] => None
  | c :: rest =>
      if boundary prev_word s && is_ident_start c
      then close_ident c rest (length (take_class is_ident_char rest))
      else None
  end.

(** [findall]: [skip] counts the characters still inside the last match. *)
Fixpoint findall_from (skip : nat) (prev_word : bool) (s : str) : list str :=
  match s with
  | [] => []
  | c :: rest =>
      match skip with
      | S k => findall_from k (is_word c) rest
      | O =>
          match match_ident prev_word s with
          | Some m => m :: findall_from (Nat.pred (length m)) (is_word c) rest
          | None => findall_from 0 (is_word c) rest
          end
      end
  end.

Definition findall_ident (s : str) : list str := findall_from 0 false s.

(** The filter of [extract_keywords]. *)
Definition is_keyword (word : str) : bool :=
  negb (bool_decide (word ∈ STOP_WORDS)) && (2 <? length word)%nat.

(** The deduplication loop of [extract_keywords], with its [seen] set and
    its [unique_keywords] list. *)
Fixpoint dedup_loop (seen : gset str) (unique_keywords : list str)
    (keywords : list str) : list str :=
  match keywords with
  | [] => unique_keywords
  | kw :: rest =>
      if bool_decide (kw ∈ seen) then dedup_loop seen unique_keywords rest
      else dedup_loop (seen ∪ {[kw]}) (unique_keywords ++ [kw]) rest
  end.

(** [KnowledgeSearch.extract_keywords]. *)
Definition extract_keywords (query : str) : list str :=
  let tokens := findall_ident (lower query) in
  let keywords := List.filter is_keyword tokens in
  dedup_loop ∅ [] keywords.

(** *** The external tools

    [subprocess.run] either completes with a captured standard output,
    exceeds its timeout, or finds no executable. *)
Inductive RunOutcome :=
  | Completed (stdout : option str)
  | TimeoutExpired
  | FileNotFoundError.

Record Host := {
  is_windows : bool;              (* platform.system() == "Windows" *)
  path_exists : str -> bool;      (* Path.exists *)
  run : list str -> RunOutcome;   (* subprocess.run(cmd, ...) *)
  path_str : str -> str           (* str(Path(s)); [posix_path] on POSIX *)
}.

(** What a search returns: a list of results, or the error it raises,
    a [RuntimeError] with its message or the [ValueError] of [int]. *)
Inductive Outcome :=
  | Returned (results : list SearchResult)
  | RuntimeError (msg : str)
  | ValueError.

(** [str(n)] and [int(s)] on decimal digits.  [int] raises a
    [ValueError] when the text has more digits than
    [sys.get_int_max_str_digits()] allows, 4300 unless the interpreter is
    set up otherwise; [None] stands for that error. *)
Definition str_of_Z (n : Z) : str :=
  list_ascii_of_string (NilZero.string_of_int (Z.to_int n)).

Definition digits_value (digits : str) : Z :=
  fold_left (fun acc c => acc * 10 + (Z.of_N (code c) - 48))%Z digits 0%Z.

Definition int_max_str_digits : nat := 4300.

Definition int_of_digits (digits : str) : option Z :=
  if (length digits <=? int_max_str_digits)%nat then Some (digits_value digits)
  else None.

(** [str(PurePosixPath(s))], the text of the path object that [Path(s)]
    gives on a POSIX host: empty components and [.] components are
    dropped; a path that starts with exactly two slashes keeps both, any
    other number of leading slashes gives one; the empty path is [.]. *)
Definition posix_path (s : str) : str :=
  let parts :=
    List.filter (fun x => negb (str_eqb x []) && negb (str_eqb x (py ".")))
      (split "/"%char s) in
  let leading := length (take_class (fun c => bool_decide (c = "/"%char)) s) in
  let root :=
    match leading with
    | 0 => []
    | 2 => py "//"
    | _ => py "/"
    end%nat in
  match root ++ join (py "/") parts with
  | [] => py "."
  | text => text
  end.

(** [re.escape]: a backslash before every special character. *)
Definition re_special (c : ascii) : bool :=
  existsb (fun d => bool_decide (c = d))
    (py "()[]{}?*+-|^$\.&~# " ++ map ascii_of_N [9; 10; 13; 11; 12]%N).

Definition re_escape (s : str) : str :=
  flat_map (fun c => if re_special c then [backslash; c] else [c]) s.

(** *** The regular expression of the output lines

    The pattern is: a lazy group of one or more characters, a colon, a
    greedy group of one or more digits, a colon, and a group that takes
    the rest of the line.  It is matched against lines that hold no
    newline.  The lazy group grows one character at a time; the digit
    group may give characters back. *)
Fixpoint close_digits (after : str) (n : nat) : option (str * str) :=
  match n with
  | O => None
  | S k =>
      match drop n after with
      | c :: content =>
          if bool_decide (c = ":"%char) then Some (take n after, content)
          else close_digits after k
      | [] => close_digits after k
      end
  end.

Fixpoint match_hit (group1 rest : str) : option (str * str * str) :=
  match rest with
  | [] => None
  | c :: rest' =>
      let attempt :=
        if bool_decide (c = ":"%char)
        then close_digits rest' (length (take_class is_digit rest'))
        else None in
      match attempt with
      | Some (digits, content) => Some (group1, digits, content)
      | None => match_hit (group1 ++ [c]) rest'
      end
  end.

Definition match_line (line : str) : option (str * str * str) :=
  match line with
  | [] => None
  | c :: rest => match_hit [c] rest
  end.

(** The first keyword that occurs in the content, ignoring case. *)
Fixpoint first_matching (keywords : list str) (content : str) : str :=
  match keywords with
  | [] => []
  | kw :: rest =>
      if contains (lower kw) (lower content) then kw
      else first_matching rest content
  end.

(** The loop over [stdout.strip().split("\n")], appending to [results];
    [path_str] gives the text of [Path(match.group(1))].  [None] stands
    for the [ValueError] that [int(match.group(2))] raises, which ends the
    loop. *)
Fixpoint parse_lines (path_str : str -> str) (keywords : list str)
    (lines : list str) (results : list SearchResult)
    : option (list SearchResult) :=
  match lines with
  | [] => Some results
  | line :: more =>
      match line with
      | [] => parse_lines path_str keywords more results
      | _ :: _ =>
          match match_line line with
          | Some (g1, g2, content) =>
              match int_of_digits g2 with
              | Some line_num =>
                  parse_lines path_str keywords more
                    (results ++ [ {| file_path := path_str g1;
                                     line_number := line_num;
                                     line_content := strip content;
                                     match_text := first_matching keywords content |} ])
              | None => None
              end
          | None => parse_lines path_str keywords more results
          end
      end
  end.

Definition parse_stdout (path_str : str -> str) (keywords : list str)
    (stdout : option str) (results : list SearchResult)
    : option (list SearchResult) :=
  parse_lines path_str keywords (split newline (strip (default [] stdout))) results.

Section KnowledgeSearch.

Variable host : Host.
Variable config : Config.

Definition workspace : str := workspace_path config.
Definition _is_windows : bool := is_windows host.
Definition _uses_wsl_path : bool := is_wsl_path workspace.

(** [_check_ripgrep]. *)
Definition _check_ripgrep : bool :=
  let probe cmd :=
    match run host cmd with
    | Completed _ => true
    | TimeoutExpired | FileNotFoundError => false
    end in
  if _is_windows && _uses_wsl_path
  then probe [py "wsl.exe"; py "rg"; py "--version"]
  else probe [py "rg"; py "--version"].

Definition _use_ripgrep : bool := _check_ripgrep.

(** [if max_results:] holds for an integer other than zero. *)
Definition truthy (max_results : option Z) : bool :=
  match max_results with
  | Some n => negb (n =? 0)%Z
  | None => false
  end.

(** [_build_ripgrep_command]. *)
Definition _build_ripgrep_command (pattern search_path : str)
    (max_results : option Z) : list str :=
  let '(cmd, linux_path) :=
    if _is_windows && _uses_wsl_path
    then ([py "wsl.exe"; py "rg"], wsl_path_to_linux search_path)
    else ([py "rg"], search_path) in
  cmd
  ++ [py "--ignore-case"; py "--line-number"; py "--no-heading"; py "--color=never"]
  ++ flat_map (fun pattern_glob => [py "--glob"; pattern_glob])
       (file_patterns (knowledge_base config))
  ++ flat_map (fun exclude => [py "--glob"; py "!" ++ exclude])
       (exclude_patterns (knowledge_base config))
  ++ (if truthy max_results
      then [py "--max-count"; str_of_Z (default 0%Z max_results)] else [])
  ++ [pattern; linux_path].

(** [_build_grep_command]. *)
Definition _build_grep_command (pattern search_path : str)
    (max_results : option Z) : list str :=
  let '(cmd, linux_path) :=
    if _is_windows && _uses_wsl_path
    then ([py "wsl.exe"; py "grep"], wsl_path_to_linux search_path)
    else ([py "grep"], search_path) in
  cmd
  ++ [py "-r"; py "-i"; py "-n"; py "-E"; py "--include=*.md";
      py "--include=*.prg"; py "--include=*.c"; py "--include=*.py"]
  ++ (if truthy max_results
      then [py "-m"; str_of_Z (default 0%Z max_results)] else [])
  ++ [pattern; linux_path].

Definition or_pattern (keywords : list str) : str :=
  join (py "|") (map re_escape keywords).

(** The loop of [_grep_search] over the search paths. *)
Fixpoint grep_loop (keywords : list str) (max_results : Z)
    (search_paths : list str) (results : list SearchResult) : Outcome :=
  match search_paths with
  | [] => Returned results
  | search_path :: more =>
      if negb (path_exists host search_path)
      then grep_loop keywords max_results more results
      else
        let remaining := (max_results - Z.of_nat (length results))%Z in
        if (remaining <=? 0)%Z then Returned results
        else
          match run host (_build_grep_command (or_pattern keywords) search_path
                            (Some remaining)) with
          | Completed stdout =>
              match parse_stdout (path_str host) keywords stdout results with
              | Some results => grep_loop keywords max_results more results
              | None => ValueError
              end
          | TimeoutExpired => Returned results
          | FileNotFoundError =>
              RuntimeError (py "Neither ripgrep nor grep is available.")
          end
  end.

(** [_grep_search]. *)
Definition _grep_search (keywords : list str) (max_results : option Z) : Outcome :=
  match keywords with
  | [] => Returned []
  | _ :: _ =>
      let max_results := default (Config.max_results (search config)) max_results in
      grep_loop keywords max_results
        (get_search_paths (path_exists host) config) []
  end.

(** The loop of [ripgrep_search] over the search paths. *)
Fixpoint ripgrep_loop (keywords : list str) (max_results : Z)
    (search_paths : list str) (results : list SearchResult) : Outcome :=
  match search_paths with
  | [] => Returned results
  | search_path :: more =>
      if negb (path_exists host search_path)
      then ripgrep_loop keywords max_results more results
      else
        let remaining := (max_results - Z.of_nat (length results))%Z in
        if (remaining <=? 0)%Z then Returned results
        else
          match run host (_build_ripgrep_command (or_pattern keywords) search_path
                            (Some remaining)) with
          | Completed stdout =>
              match parse_stdout (path_str host) keywords stdout results with
              | Some results => ripgrep_loop keywords max_results more results
              | None => ValueError
              end
          | TimeoutExpired => Returned results
          | FileNotFoundError => _grep_search keywords (Some max_results)
          end
  end.

(** [ripgrep_search]. *)
Definition ripgrep_search (keywords : list str) (max_results : option Z) : Outcome :=
  match keywords with
  | [] => Returned []
  | _ :: _ =>
      if negb _use_ripgrep then _grep_search keywords max_results
      else
        let max_results := default (Config.max_results (search config)) max_results in
        ripgrep_loop keywords max_results
          (get_search_paths (path_exists host) config) []
  end.

(** [search], named [search_query] here: [search] is a field of
    [Config]. *)
Definition search_query (query : str) : Outcome :=
  match extract_keywords query with
  | [] => Returned []
  | keywords => ripgrep_search keywords None
  end.

End KnowledgeSearch.

End Search.
Import Search.

(** ** chunker.py *)

Module Chunker.

Local Open Scope Z_scope.

Record Chunk := {
  file_path : str;
  start_line : Z;
  end_line : Z;
  content : str;
  header : option str
}.

(** [Chunk.line_count]. *)
Definition line_count (c : Chunk) : Z := end_line c - start_line c + 1.

(** *** The markdown heading pattern

    [MD_HEADER_PATTERN] is: one to six hash signs (greedy), one or more
    white-space characters (greedy), and a group of one or more characters
    up to the end of the line.  Both greedy parts may give characters
    back.  The result is the number of hash signs and the last group. *)
Definition is_hash (c : ascii) : bool := bool_decide (c = "#"%char).

Fixpoint close_spaces (after_hashes : str) (n : nat) : option str :=
  match n with
  | O => None
  | S k =>
      match drop n after_hashes with
      | [] => close_spaces after_hashes k
      | group2 => Some group2
      end
  end.

Fixpoint close_hashes (line : str) (n : nat) : option (nat * str) :=
  match n with
  | O => None
  | S k =>
      match close_spaces (drop n line)
              (length (take_class is_space (drop n line))) with
      | Some group2 => Some (n, group2)
      | None => close_hashes line k
      end
  end.

Definition MD_HEADER_PATTERN (line : str) : option (nat * str) :=
  close_hashes line (Nat.min 6%nat (length (take_class is_hash line))).

(** [lines[a:b]] for indices that are not negative. *)
Definition slice {A} (l : list A) (a b : Z) : list A :=
  take (Z.to_nat (b - a)) (drop (Z.to_nat a) l).

Definition len {A} (l : list A) : Z := Z.of_nat (length l).

(** The scan for headings: [(line_idx, level, title)] for each line that
    matches, with [i] the index of the first line of [lines]. *)
Fixpoint find_headers (i : Z) (lines : list str) : list (Z * nat * str) :=
  match lines with
  | [] => []
  | line :: more =>
      match MD_HEADER_PATTERN line with
      | Some (level, group2) => (i, level, strip group2) :: find_headers (i + 1) more
      | None => find_headers (i + 1) more
      end
  end.

(** The loop of [chunk_markdown] over the headings; [headers] is the
    part of the list from the current heading on. *)
Fixpoint markdown_sections (file_path : str) (lines : list str)
    (headers : list (Z * nat * str)) : list Chunk :=
  match headers with
  | [] => []
  | (line_idx, level, title) :: rest =>
      let end_idx :=
        match rest with
        | (next_idx, _, _) :: _ => next_idx - 1
        | [] => len lines - 1
        end in
      let section_lines := slice lines line_idx (end_idx + 1) in
      let section_content := join [newline] section_lines in
      match strip section_content with
      | [] => markdown_sections file_path lines rest
      | _ :: _ =>
          {| file_path := file_path;
             start_line := line_idx + 1;
             end_line := end_idx + 1;
             content := section_content;
             header := Some title |}
          :: markdown_sections file_path lines rest
      end
  end.

Definition whole_file (file_path content : str) : list Chunk :=
  [ {| file_path := file_path;
       start_line := 1;
       end_line := len (split newline content);
       content := content;
       header := None |} ].

(** [Chunker.chunk_markdown]. *)
Definition chunk_markdown (content file_path : str) : list Chunk :=
  let lines := split newline content in
  match find_headers 0 lines with
  | [] => whole_file file_path content
  | headers => markdown_sections file_path lines headers
  end.

(** A compiled pattern of [chunk_code]: what [pattern.match(line)]
    gives for [group(1)], when the line matches. *)
Definition Pattern := str -> option str.

Fixpoint find_functions (pattern : Pattern) (i : Z) (lines : list str)
    : list (Z * str) :=
  match lines with
  | [] => []
  | line :: more =>
      match pattern line with
      | Some name => (i, name) :: find_functions pattern (i + 1) more
      | None => find_functions pattern (i + 1) more
      end
  end.

Fixpoint code_sections (file_path : str) (lines : list str)
    (functions : list (Z * str)) : list Chunk :=
  match functions with
  | [] => []
  | (line_idx, func_name) :: rest =>
      let end_idx :=
        match rest with
        | (next_idx, _) :: _ => next_idx - 1
        | [] => len lines - 1
        end in
      let section_content := join [newline] (slice lines line_idx (end_idx + 1)) in
      {| file_path := file_path;
         start_line := line_idx + 1;
         end_line := end_idx + 1;
         content := section_content;
         header := Some (py "function " ++ func_name) |}
      :: code_sections file_path lines rest
  end.

(** [Chunker.chunk_code]. *)
Definition chunk_code (content file_path : str) (pattern : Pattern) : list Chunk :=
  let lines := split newline content in
  match find_functions pattern 0 lines with
  | [] => whole_file file_path content
  | functions => code_sections file_path lines functions
  end.

(** [Path.suffix], for a path written with [/] and without a trailing
    separator: the last dot of the final path component and what follows
    it, unless that dot starts or ends the component. *)
Fixpoint final_component (path cur : str) : str :=
  match path with
  | [] => cur
  | c :: path' =>
      if bool_decide (c = "/"%char) then final_component path' []
      else final_component path' (cur ++ [c])
  end.

Fixpoint last_dot (name : str) (i : nat) (found : option nat) : option nat :=
  match name with
  | [] => found
  | c :: name' =>
      last_dot name' (S i) (if bool_decide (c = "."%char) then Some i else found)
  end.

Definition suffix (path : str) : str :=
  let name := final_component path [] in
  match last_dot name 0%nat None with
  | Some i => if (0 <? i)%nat && (i <? length name - 1)%nat then drop i name else []
  | None => []
  end.

Inductive FileType :=
  | FT_markdown | FT_clipper | FT_c | FT_python | FT_csharp | FT_typescript
  | FT_sql | FT_powershell | FT_bash | FT_text.

(** [_detect_file_type]. *)
Definition _detect_file_type (file_path : str) : FileType :=
  let suffix := lower (suffix file_path) in
  let among (l : list string) := existsb (fun e => str_eqb suffix (py e)) l in
  if among [".md"; ".markdown"]%string then FT_markdown
  else if among [".prg"; ".ch"]%string then FT_clipper
  else if among [".c"; ".h"; ".cpp"; ".hpp"]%string then FT_c
  else if among [".py"]%string then FT_python
  else if among [".cs"]%string then FT_csharp
  else if among [".ts"; ".tsx"; ".js"; ".jsx"]%string then FT_typescript
  else if among [".sql"]%string then FT_sql
  else if among [".ps1"]%string then FT_powershell
  else if among [".sh"]%string then FT_bash
  else FT_text.

(** The eight code patterns of the class, as matchers. *)
Record CodePatterns := {
  PRG_FUNCTION_PATTERN : Pattern;
  C_FUNCTION_PATTERN : Pattern;
  PYTHON_FUNCTION_PATTERN : Pattern;
  CSHARP_PATTERN : Pattern;
  TS_FUNCTION_PATTERN : Pattern;
  SQL_PATTERN : Pattern;
  PS_FUNCTION_PATTERN : Pattern;
  BASH_FUNCTION_PATTERN : Pattern
}.

(** [Chunker.chunk_file]; [read_text] is [None] when reading the file
    raises. *)
Definition chunk_file (patterns : CodePatterns) (read_text : str -> option str)
    (file_path : str) : list Chunk :=
  match read_text file_path with
  | None => []
  | Some content =>
      match _detect_file_type file_path with
      | FT_markdown => chunk_markdown content file_path
      | FT_clipper => chunk_code content file_path (PRG_FUNCTION_PATTERN patterns)
      | FT_c => chunk_code content file_path (C_FUNCTION_PATTERN patterns)
      | FT_python => chunk_code content file_path (PYTHON_FUNCTION_PATTERN patterns)
      | FT_csharp => chunk_code content file_path (CSHARP_PATTERN patterns)
      | FT_typescript => chunk_code content file_path (TS_FUNCTION_PATTERN patterns)
      | FT_sql => chunk_code content file_path (SQL_PATTERN patterns)
      | FT_powershell => chunk_code content file_path (PS_FUNCTION_PATTERN patterns)
      | FT_bash => chunk_code content file_path (BASH_FUNCTION_PATTERN patterns)
      | FT_text => whole_file file_path content
      end
  end.

(** The grouping loop of [chunk_from_results]: a dictionary from file
    path to the results of that file, in the order in which the files are
    first seen.  Paths are compared by their text. *)
Fixpoint group_add (r : SearchResult) (groups : list (str * list SearchResult))
    : list (str * list SearchResult) :=
  match groups with
  | [] => [(Search.file_path r, [r])]
  | (p, rs) :: more =>
      if bool_decide (p = Search.file_path r) then (p, rs ++ [r]) :: more
      else (p, rs) :: group_add r more
  end.

Definition results_by_file (results : list SearchResult)
    : list (str * list SearchResult) :=
  fold_left (fun groups r => group_add r groups) results [].

(** The inner loop over [result_lines]: whether some result line of the
    file lies in the chunk. *)
Definition holds_result (file_results : list SearchResult) (c : Chunk) : bool :=
  existsb (fun r => (start_line c <=? line_number r) && (line_number r <=? end_line c))
    file_results.

(** [Chunker.chunk_from_results]. *)
Definition chunk_from_results (patterns : CodePatterns)
    (read_text : str -> option str) (results : list SearchResult) : list Chunk :=
  match results with
  | [] => []
  | _ :: _ =>
      flat_map (fun group =>
                  List.filter (holds_result (snd group))
                    (chunk_file patterns read_text (fst group)))
        (results_by_file results)
  end.

End Chunker.
Import Chunker.

(** ** ranker.py

    Scores are Python floats; they are modelled as real numbers, with
    [math.log] as [ln] and [math.sqrt] as [sqrt]. *)

Module Ranker.

Local Open Scope R_scope.

Record RankedChunk := {
  chunk : Chunk;
  score : R;
  matched_keywords : list str
}.

(** [counts[kw] = n] on a dictionary kept in insertion order. *)
Fixpoint dict_set (kw : str) (n : nat) (counts : list (str * nat))
    : list (str * nat) :=
  match counts with
  | [] => [(kw, n)]
  | (k, v) :: more =>
      if bool_decide (k = kw) then (k, n) :: more
      else (k, v) :: dict_set kw n more
  end.

(** [Ranker._keyword_frequency]. *)
Definition _keyword_frequency (text : str) (keywords : list str)
    : list (str * nat) :=
  let text_lower := lower text in
  fold_left (fun counts kw => dict_set kw (count (lower kw) text_lower) counts)
    keywords [].

(** The text that is searched: the header, a space and the content. *)
Definition combined_text (c : Chunk) : str :=
  default [] (header c) ++ py " " ++ content c.

(** The loop of [_calculate_score] over [freqs.items()]. *)
Fixpoint score_terms (header : str) (doc_frequencies : gmap str nat)
    (total_docs : nat) (freqs : list (str * nat)) (score : R)
    (matched : list str) : R * list str :=
  match freqs with
  | [] => (score, matched)
  | (kw, tf) :: more =>
      if (0 <? tf)%nat then
        let tf_score := ln (1 + INR tf) in
        let df := default 0%nat (doc_frequencies !! kw) in
        let idf_score := ln (INR total_docs / (1 + INR df)) in
        let header_boost := if contains (lower kw) (lower header) then 2 else 1 in
        score_terms header doc_frequencies total_docs more
          (score + tf_score * idf_score * header_boost) (matched ++ [kw])
      else score_terms header doc_frequencies total_docs more score matched
  end.

(** [Ranker._calculate_score]. *)
Definition _calculate_score (c : Chunk) (keywords : list str)
    (doc_frequencies : gmap str nat) (total_docs : nat) : R * list str :=
  let header := default [] (header c) in
  let freqs := _keyword_frequency (combined_text c) keywords in
  let '(score, matched) :=
    score_terms header doc_frequencies total_docs freqs 0 [] in
  let diversity_boost :=
    match matched with
    | [] => 0
    | _ :: _ => sqrt (INR (length matched))
    end in
  (score + diversity_boost, matched).

(** [doc_frequencies[kw] += 1] on a [Counter]. *)
Definition counter_incr (kw : str) (counter : gmap str nat) : gmap str nat :=
  <[kw := S (default 0%nat (counter !! kw))]> counter.

(** The two nested loops of [rank] that fill [doc_frequencies]. *)
Definition count_chunk (keywords : list str) (counter : gmap str nat) (c : Chunk)
    : gmap str nat :=
  let combined := lower (combined_text c) in
  fold_left (fun counter kw =>
               if contains (lower kw) combined then counter_incr kw counter
               else counter)
    keywords counter.

Definition document_frequencies (chunks : list Chunk) (keywords : list str)
    : gmap str nat :=
  fold_left (count_chunk keywords) chunks ∅.

(** [ranked.sort(key=lambda x: x.score, reverse=True)]: a stable sort,
    equal scores keep their order. *)
Fixpoint insert_by_score (x : RankedChunk) (l : list RankedChunk)
    : list RankedChunk :=
  match l with
  | [] => [x]
  | y :: l' =>
      if Rle_dec (score y) (score x) then x :: l
      else y :: insert_by_score x l'
  end.

Definition sort_by_score (l : list RankedChunk) : list RankedChunk :=
  fold_right insert_by_score [] l.

(** The scoring loop of [rank]. *)
Definition score_chunk (chunks : list Chunk) (keywords : list str) (c : Chunk)
    : RankedChunk :=
  let '(score, matched) :=
    _calculate_score c keywords (document_frequencies chunks keywords)
      (length chunks) in
  {| chunk := c; score := score; matched_keywords := matched |}.

(** [Ranker.rank]. *)
Definition rank (top_n : nat) (chunks : list Chunk) (keywords : list str)
    : list RankedChunk :=
  match chunks, keywords with
  | [], _ | _, [] => []
  | _, _ =>
      let ranked :=
        List.filter (fun rc => if Rlt_dec 0 (score rc) then true else false)
          (map (score_chunk chunks keywords) chunks) in
      take top_n (sort_by_score ranked)
  end.

(** The loop of [deduplicate]; [hash] is Python's [hash] on strings. *)
Fixpoint deduplicate_loop (hash : str -> Z) (seen_content_hashes : gset Z)
    (ranked_chunks : list RankedChunk) : list RankedChunk :=
  match ranked_chunks with
  | [] => []
  | rc :: more =>
      let content_hash := hash (take 200 (Chunker.content (chunk rc))) in
      if bool_decide (content_hash ∈ seen_content_hashes)
      then deduplicate_loop hash seen_content_hashes more
      else rc :: deduplicate_loop hash (seen_content_hashes ∪ {[content_hash]}) more
  end.

(** [Ranker.deduplicate]. *)
Definition deduplicate (hash : str -> Z) (ranked_chunks : list RankedChunk)
    : list RankedChunk :=
  deduplicate_loop hash ∅ ranked_chunks.

End Ranker.
Import Ranker.

(** ** haiku_client.py *)

Module Haiku.

Local Open Scope Q_scope.

Definition CACHE_TTL_SECONDS : Q := 3600.

(** The response cache: text and the time it was stored.  Readings of
    [time.time()] are rational numbers of seconds. *)
Abbreviation Cache := (gmap str (str * Q)).

Record DistillationResult := {
  content : str;
  query_type : str;
  token_budget : Z;
  cached : bool
}.

(** [classify_query]. *)
Definition code_keywords : list str := map py [
  "example"; "code"; "pattern"; "how to"; "implement";
  "snippet"; "sample"; "template"; "show me"; "write" ]%string.

Definition complex_keywords : list str := map py [
  "explain"; "architecture"; "design"; "complex"; "overview";
  "understand"; "describe"; "analyze"; "compare"; "difference" ]%string.

Definition classify_query (query : str) : str :=
  let query_lower := lower query in
  if existsb (fun kw => contains kw query_lower) code_keywords
  then py "code_example"
  else if existsb (fun kw => contains kw query_lower) complex_keywords
  then py "complex"
  else py "simple".

(** [_check_cache]: the answer and the cache afterwards; [now] is what
    [time.time()] gives when it is read. *)
Definition _check_cache (now : Q) (key : str) (cache : Cache)
    : option str * Cache :=
  match cache !! key with
  | Some (content, timestamp) =>
      if Qlt_le_dec (now - timestamp) CACHE_TTL_SECONDS
      then (Some content, cache)
      else (None, delete key cache)
  | None => (None, cache)
  end.

(** [_store_cache]. *)
Definition _store_cache (now : Q) (key content : str) (cache : Cache) : Cache :=
  <[key := (content, now)]> cache.

(** [format_chunks_for_prompt]; [i] is the number of the first source. *)
Definition source_header (i : Z) (c : Chunk) : str :=
  py "[Source " ++ str_of_Z i ++ py ": " ++ Chunker.file_path c
  ++ match Chunker.header c with
     | Some ((_ :: _) as h) => py " - " ++ h
     | _ => []
     end
  ++ py ", lines " ++ str_of_Z (start_line c) ++ py "-" ++ str_of_Z (end_line c)
  ++ py "]".

Fixpoint format_parts (i : Z) (ranked_chunks : list RankedChunk) : list str :=
  match ranked_chunks with
  | [] => []
  | rc :: more =>
      (source_header i (chunk rc) ++ [newline] ++ Chunker.content (chunk rc))
      :: format_parts (i + 1) more
  end.

Definition separator : str :=
  [newline; newline] ++ py "---" ++ [newline; newline].

Definition format_chunks_for_prompt (ranked_chunks : list RankedChunk) : str :=
  join separator (format_parts 1 ranked_chunks).

(** The instructions of the prompt, one text per query type. *)
Definition lines_text (ls : list string) : str := join [newline] (map py ls).

Definition instructions (query_type : str) : str :=
  if str_eqb query_type (py "code_example") then lines_text [
    "Instructions for code examples:";
    "- Include COMPLETE, working code snippets that can be used directly";
    "- Show the full function or section, not just fragments";
    "- Include necessary imports or dependencies";
    "- Add brief comments explaining key parts";
    "- Reference the source file paths" ]%string
  else if str_eqb query_type (py "complex") then lines_text [
    "Instructions for detailed explanations:";
    "- Provide comprehensive coverage of the topic";
    "- Explain the reasoning and context";
    "- Include relevant code examples where helpful";
    "- Describe any gotchas or important considerations";
    "- Reference source files for further reading" ]%string
  else lines_text [
    "Instructions for quick answers:";
    "- Be concise and direct";
    "- Focus on the most important information";
    "- Include specific details (file paths, function names, values)";
    "- Highlight any critical warnings or gotchas" ]%string.

Definition build_prompt (query query_type context : str) (token_budget : Z) : str :=
  py "You are a knowledge base assistant for a software development project."
  ++ [newline]
  ++ py "Extract relevant information to answer the query based on the provided context."
  ++ [newline; newline] ++ py "Query: " ++ query
  ++ [newline; newline] ++ instructions query_type
  ++ [newline; newline] ++ py "Context from knowledge base:"
  ++ [newline] ++ context
  ++ [newline; newline] ++ py "Provide a helpful response in up to "
  ++ str_of_Z token_budget ++ py " tokens."
  ++ [newline]
  ++ py "If the context doesn't contain relevant information, say so clearly."
  ++ [newline]
  ++ py "Always include source file references when citing specific information.".

(** *** The summarization backend

    A request carries the model, the token limit and the prompt.  The
    call either raises or answers with a list of content blocks, each with
    an optional text.  A [Backend] holds what a call of [distill] finds:
    the environment, whether the distiller has kept a client from an
    earlier call, and the answers of the service. *)
Record Request := {
  req_model : str;
  req_max_tokens : Z;
  req_prompt : str
}.

Inductive Reply :=
  | Raises
  | Message (blocks : list (option str)).

Record Backend := {
  anthropic_api_key : option str;    (* os.environ.get("ANTHROPIC_API_KEY") *)
  anthropic_installed : bool;        (* import anthropic *)
  _client : bool;                    (* self._client is not None *)
  messages_create : Request -> Reply (* client.messages.create(...) *)
}.

(** What one call of [distill] did: its result, the cache it leaves, and
    the requests it sent to the backend. *)
Record Distilled := {
  result : DistillationResult;
  cache_after : Cache;
  requests : list Request
}.

Section HaikuDistiller.

Variable config : Config.
Variable backend : Backend.
(** [hashlib.md5(s.encode()).hexdigest()]. *)
Variable md5_hexdigest : str -> str.

(** [_get_cache_key].  Strings of code points below 256 always encode,
    so the digest is defined on every string of the model. *)
Definition _get_cache_key (query : str) (chunks : list RankedChunk) : str :=
  let chunk_hash :=
    take 16 (md5_hexdigest
               (concat (map (fun c => take 100 (Chunker.content (chunk c))) chunks))) in
  let query_hash := take 16 (md5_hexdigest query) in
  query_hash ++ py ":" ++ chunk_hash.

(** [_get_client]: [false] when it raises.  A client kept from an
    earlier call is returned without a look at the environment. *)
Definition _get_client : bool :=
  if _client backend then true
  else
    match anthropic_api_key backend with
    | Some (_ :: _) => anthropic_installed backend
    | _ => false
    end.

(** [_fallback_response]. *)
Definition fallback_source (i : Z) (c : Chunk) : str :=
  py "**Source " ++ str_of_Z i ++ py ":** `" ++ Chunker.file_path c ++ py "`"
  ++ match Chunker.header c with
     | Some ((_ :: _) as h) => py " - " ++ h
     | _ => []
     end.

Fixpoint fallback_parts (i : Z) (ranked_chunks : list RankedChunk) : list str :=
  match ranked_chunks with
  | [] => []
  | rc :: more =>
      let c := chunk rc in
      let content :=
        take 500 (Chunker.content c)
        ++ (if (500 <? length (Chunker.content c))%nat then py "..." else []) in
      (fallback_source i c ++ [newline] ++ content) :: fallback_parts (i + 1) more
  end.

Definition _fallback_response (ranked_chunks : list RankedChunk)
    (query_type : str) (token_budget : Z) : DistillationResult :=
  {| content :=
       join separator
         ((py "*[Haiku unavailable - showing raw search results]*" ++ [newline])
          :: fallback_parts 1 (take 5 ranked_chunks));
     query_type := query_type;
     token_budget := token_budget;
     cached := false |}.

(** The text taken from a reply. *)
Definition extract_text (blocks : list (option str)) : str :=
  let result_content :=
    match blocks with
    | Some text :: _ => strip text
    | _ => []
    end in
  match result_content with
  | [] => py "No relevant information extracted from knowledge base."
  | _ :: _ => result_content
  end.

(** [HaikuDistiller.distill].  [t_lookup] and [t_store] are the readings
    of the clock in [_check_cache] and in [_store_cache]. *)
Definition distill (query : str) (ranked_chunks : list RankedChunk)
    (use_cache : bool) (t_lookup t_store : Q) (cache : Cache) : Distilled :=
  match ranked_chunks with
  | [] =>
      {| result :=
           {| content := py "No relevant information found in knowledge base.";
              query_type := py "simple";
              token_budget := 0;
              cached := false |};
         cache_after := cache;
         requests := [] |}
  | _ :: _ =>
      let query_type := classify_query query in
      let token_budget := get_token_budget query_type (haiku config) in
      let cache_key := _get_cache_key query ranked_chunks in
      let '(cached_response, cache) :=
        if use_cache then _check_cache t_lookup cache_key cache
        else (None, cache) in
      match cached_response with
      | Some ((_ :: _) as response) =>
          {| result :=
               {| content := response;
                  query_type := query_type;
                  token_budget := token_budget;
                  cached := true |};
             cache_after := cache;
             requests := [] |}
      | _ =>
          let context := format_chunks_for_prompt ranked_chunks in
          let prompt := build_prompt query query_type context token_budget in
          if _get_client then
            let request :=
              {| req_model := Config.model (haiku config);
                 req_max_tokens := token_budget;
                 req_prompt := prompt |} in
            match messages_create backend request with
            | Message blocks =>
                let result_content := extract_text blocks in
                {| result :=
                     {| content := result_content;
                        query_type := query_type;
                        token_budget := token_budget;
                        cached := false |};
                   cache_after :=
                     if use_cache
                     then _store_cache t_store cache_key result_content cache
                     else cache;
                   requests := [request] |}
            | Raises =>
                {| result := _fallback_response ranked_chunks query_type token_budget;
                   cache_after := cache;
                   requests := [request] |}
            end
          else
            {| result := _fallback_response ranked_chunks query_type token_budget;
               cache_after := cache;
               requests := [] |}
      end
  end.

(** The request that [distill] sends for a query and its ranked chunks. *)
Definition request_for (query : str) (ranked_chunks : list RankedChunk) : Request :=
  let query_type := classify_query query in
  let token_budget := get_token_budget query_type (haiku config) in
  {| req_model := Config.model (haiku config);
     req_max_tokens := token_budget;
     req_prompt :=
       build_prompt query query_type (format_chunks_for_prompt ranked_chunks)
         token_budget |}.

End HaikuDistiller.

(** [clear_cache]. *)
Definition clear_cache (cache : Cache) : Z * Cache :=
  (Z.of_nat (size cache), ∅).

End Haiku.
Import Haiku.

(** ** server.py *)

Module Server.

(** [classify_query] of the server, with its own lists of indicators. *)
Definition code_keywords : list str := map py [
  "example"; "code"; "pattern"; "how to"; "implement";
  "snippet"; "sample"; "template"; "show me" ]%string.

Definition complex_keywords : list str := map py [
  "explain"; "architecture"; "design"; "complex"; "overview";
  "understand"; "describe"; "analyze"; "compare" ]%string.

Definition classify_query (query : str) : str :=
  let query_lower := lower query in
  if existsb (fun kw => contains kw query_lower) code_keywords
  then py "code_example"
  else if existsb (fun kw => contains kw query_lower) complex_keywords
  then py "complex"
  else py "simple".

(** [format_chunks_for_response]; [i] is the number of the first source.
    The query type is not used. *)
Definition response_header (i : Z) (rc : RankedChunk) : str :=
  let c := chunk rc in
  py "**Source " ++ str_of_Z i ++ py ":** `" ++ Chunker.file_path c ++ py "`"
  ++ match Chunker.header c with
     | Some ((_ :: _) as h) => py " - " ++ h
     | _ => []
     end
  ++ py " (lines " ++ str_of_Z (start_line c) ++ py "-" ++ str_of_Z (end_line c)
  ++ py ")"
  ++ match matched_keywords rc with
     | [] => []
     | _ :: _ =>
         [newline] ++ py "*Matched: " ++ join (py ", ") (matched_keywords rc) ++ py "*"
     end.

Fixpoint response_parts (i : Z) (ranked_chunks : list RankedChunk) : list str :=
  match ranked_chunks with
  | [] => []
  | rc :: more =>
      (response_header i rc ++ [newline; newline] ++ Chunker.content (chunk rc))
      :: response_parts (i + 1)%Z more
  end.

Definition format_chunks_for_response (ranked_chunks : list RankedChunk)
    (query_type : str) : str :=
  match ranked_chunks with
  | [] => py "No relevant information found in knowledge base."
  | _ :: _ => join separator (response_parts 1%Z ranked_chunks)
  end.

(** What [ask_knowledge_base] gives: a text, or the error that the search
    raises, a [RuntimeError] with its message or a [ValueError]. *)
Inductive Answer :=
  | Text (response : str)
  | Raised (msg : str)
  | RaisedValueError.

(** [ask_knowledge_base], for an initialised server whose [top_chunks] is
    not negative.  The host, the reading of files, the code patterns and
    the string hash are arguments. *)
Definition ask_knowledge_base (host : Host) (config : Config)
    (patterns : CodePatterns) (read_text : str -> option str) (hash : str -> Z)
    (query : str) (context : option str) : Answer :=
  if negb (has_knowledge_base (path_exists host) config) then
    Text (py "No knowledge base found. Expected CLAUDE.md in workspace root "
          ++ py "and/or .claude/ folder with documentation.")
  else
    let search_query :=
      match context with
      | Some ((_ :: _) as context) => query ++ py " " ++ context
      | _ => query
      end in
    match Search.search_query host config search_query with
    | RuntimeError msg => Raised msg
    | ValueError => RaisedValueError
    | Returned [] => Text (py "No relevant information found for query: " ++ query)
    | Returned ((_ :: _) as search_results) =>
        match chunk_from_results patterns read_text search_results with
        | [] => Text (py "No relevant content found for query: " ++ query)
        | (_ :: _) as chunks =>
            let keywords := extract_keywords search_query in
            let ranked_chunks :=
              rank (Z.to_nat (top_chunks (search config))) chunks keywords in
            let ranked_chunks := deduplicate hash ranked_chunks in
            let query_type := classify_query query in
            Text (format_chunks_for_response ranked_chunks query_type)
        end
    end.

End Server.

(** ** Strings beyond code point 255

    [str.lower] is not a character-by-character map on all of Unicode,
    and [\w] has members beyond the Latin-1 range.  The alphabet below
    adds three characters to that range: U+0130 (capital I with dot
    above), whose lower case is the two characters i and U+0307; U+0307
    (combining dot above), which is not a word character; and U+212A
    (Kelvin sign), a letter whose lower case is the letter k.  On the
    strings over this alphabet the functions below are those of CPython,
    and [extract_keywords] is embedded as in [Search]. *)

Module Wide.

Inductive uchar :=
  | Latin (c : ascii)
  | U0130
  | U0307
  | U212A.

Definition ustr := list uchar.

Definition upy (s : string) : ustr := map Latin (py s).

#[global] Instance uchar_eq_dec : EqDecision uchar.
Proof. solve_decision. Defined.

#[global] Instance uchar_countable : Countable uchar :=
  inj_countable'
    (fun c => match c with
              | Latin a => inl a
              | U0130 => inr 0%nat
              | U0307 => inr 1%nat
              | U212A => inr 2%nat
              end)
    (fun x => match x with
              | inl a => Latin a
              | inr 0%nat => U0130
              | inr 1%nat => U0307
              | inr _ => U212A
              end)
    (fun c => match c with
              | Latin _ | U0130 | U0307 | U212A => eq_refl
              end).

(** [str.lower]. *)
Definition lower_char (c : uchar) : ustr :=
  match c with
  | Latin a => [Latin (PyStr.lower_char a)]
  | U0130 => [Latin "i"%char; U0307]
  | U0307 => [U0307]
  | U212A => [Latin "k"%char]
  end.

Definition lower (s : ustr) : ustr := flat_map lower_char s.

(** The classes [[a-zA-Z_]], [[a-zA-Z0-9_]] and [\w]. *)
Definition is_ident_start (c : uchar) : bool :=
  match c with
  | Latin a => PyStr.is_ident_start a
  | _ => false
  end.

Definition is_ident_char (c : uchar) : bool :=
  match c with
  | Latin a => PyStr.is_ident_char a
  | _ => false
  end.

Definition is_word (c : uchar) : bool :=
  match c with
  | Latin a => PyStr.is_word a
  | U0130 => true
  | U0307 => false
  | U212A => true
  end.

(** The regular expression of [extract_keywords], as in [Search]. *)
Fixpoint take_class (cls : uchar -> bool) (s : ustr) : ustr :=
  match s with
  | c :: s' => if cls c then c :: take_class cls s' else []
  | [] => []
  end.

Definition word_at (s : ustr) : bool :=
  match s with
  | c :: _ => is_word c
  | [] => false
  end.

Definition boundary (left_is_word : bool) (right : ustr) : bool :=
  xorb left_is_word (word_at right).

Fixpoint close_ident (c : uchar) (rest : ustr) (n : nat) : option ustr :=
  let m := c :: take n rest in
  if boundary (is_word (List.last m c)) (drop n rest) then Some m
  else match n with
       | O => None
       | S k => close_ident c rest k
       end.

Definition match_ident (prev_word : bool) (s : ustr) : option ustr :=
  match s with
  | [] => None
  | c :: rest =>
      if boundary prev_word s && is_ident_start c
      then close_ident c rest (length (take_class is_ident_char rest))
      else None
  end.

Fixpoint findall_from (skip : nat) (prev_word : bool) (s : ustr) : list ustr :=
  match s with
  | [] => []
  | c :: rest =>
      match skip with
      | S k => findall_from k (is_word c) rest
      | O =>
          match match_ident prev_word s with
          | Some m => m :: findall_from (Nat.pred (length m)) (is_word c) rest
          | None => findall_from 0 (is_word c) rest
          end
      end
  end.

Definition findall_ident (s : ustr) : list ustr := findall_from 0 false s.

Definition STOP_WORDS : gset ustr := list_to_set (map upy stop_word_list).

Definition is_keyword (word : ustr) : bool :=
  negb (bool_decide (word ∈ STOP_WORDS)) && (2 <? length word)%nat.

Fixpoint dedup_loop (seen : gset ustr) (unique_keywords : list ustr)
    (keywords : list ustr) : list ustr :=
  match keywords with
  | [] => unique_keywords
  | kw :: rest =>
      if bool_decide (kw ∈ seen) then dedup_loop seen unique_keywords rest
      else dedup_loop (seen ∪ {[kw]}) (unique_keywords ++ [kw]) rest
  end.

(** [KnowledgeSearch.extract_keywords]. *)
Definition extract_keywords (query : ustr) : list ustr :=
  let tokens := findall_ident (lower query) in
  let keywords := List.filter is_keyword tokens in
  dedup_loop ∅ [] keywords.

End Wide.

(** ** Vocabulary of the properties

    The predicates and quantities in which the properties are stated. *)

Section SegmentationVocabulary.

Local Open Scope Z_scope.

(** A chunk within the lines of a file: its line range lies in the file
    and its content is the lines of that range joined by newlines. *)
Definition covers_lines (lines : list str) (c : Chunk) : Prop :=
  1 <= start_line c ∧ start_line c <= end_line c ∧ end_line c <= len lines
  ∧ Chunker.content c = join [newline] (slice lines (start_line c - 1) (end_line c)).

(** Chunks in the order of their lines, none overlapping another. *)
Definition in_order (chunks : list Chunk) : Prop :=
  StronglySorted (fun a b => end_line a < start_line b) chunks.

(** The invariant of a segmentation pass over a file with content
    [file_content]: for every chunk, [end_line >= start_line], the
    content split on newlines has [end_line - start_line + 1] elements,
    these are the lines [start_line] to [end_line] of the file (counted
    from 1), and the range lies in the file; the chunks are in order. *)
Definition segmentation_ok (file_content : str) (chunks : list Chunk) : Prop :=
  let lines := split newline file_content in
  Forall (fun c =>
            start_line c <= end_line c
            ∧ len (split newline (Chunker.content c)) = end_line c - start_line c + 1
            ∧ split newline (Chunker.content c)
              = slice lines (start_line c - 1) (end_line c)
            ∧ 1 <= start_line c ∧ end_line c <= len lines) chunks
  ∧ in_order chunks.

(** The line index of a heading found by [find_headers] and of a
    function found by [find_functions]. *)
Definition hidx (h : Z * nat * str) : Z := fst (fst h).

Definition fidx (f : Z * str) : Z := fst f.

(** A tool honours a total cap when the output of an invocation capped at
    [n] has at most [n] lines. *)
Definition total_cap (host : Host) (build : str -> str -> option Z -> list str) : Prop :=
  ∀ pattern search_path n stdout,
    run host (build pattern search_path (Some n)) = Completed stdout ->
    len (split newline (strip (default [] stdout))) <= n.

End SegmentationVocabulary.

(** A tool output with a result line whose line number has more digits
    than [int] accepts. *)
Definition overlong_number (stdout : option str) : Prop :=
  ∃ line g1 g2 content,
    In line (split newline (strip (default [] stdout)))
    ∧ match_line line = Some (g1, g2, content)
    ∧ (int_max_str_digits < length g2)%nat.


(** The specification of the deduplication: the first occurrence of each
    word stays, in order; later occurrences go. *)
Definition differs (x y : str) : bool := negb (str_eqb x y).

Fixpoint first_occurrences (l : list str) : list str :=
  match l with
  | [] => []
  | x :: t => x :: List.filter (differs x) (first_occurrences t)
  end.

(** A word-identifier: a letter or underscore followed by letters, digits
    and underscores. *)
Definition is_identifier (w : str) : bool :=
  match w with
  | c :: t => is_ident_start c && forallb is_ident_char t
  | [] => false
  end.

Definition space : ascii := " "%char.

(** The quantities of the score of a chunk for one keyword: whether the
    combined text mentions it, how often, whether the header has it, and
    in how many chunks of the ranking call it occurs. *)
Definition mentions (kw : str) (c : Chunk) : bool :=
  contains (lower kw) (lower (combined_text c)).

Definition tf (kw : str) (c : Chunk) : nat :=
  count (lower kw) (lower (combined_text c)).

Definition in_header (kw : str) (c : Chunk) : bool :=
  contains (lower kw) (lower (default [] (header c))).

Definition df (chunks : list Chunk) (keywords : list str) (kw : str) : nat :=
  default 0%nat (document_frequencies chunks keywords !! kw).

(** How often a keyword is listed in the keyword list. *)
Definition occurrences (kw : str) (keywords : list str) : nat :=
  length (List.filter (fun k => bool_decide (k = kw)) keywords).

Section ScoreVocabulary.

Local Open Scope R_scope.

(** The inverse document frequency and the contribution of one matched
    keyword to the score of a chunk. *)
Definition idf (chunks : list Chunk) (keywords : list str) (kw : str) : R :=
  ln (INR (length chunks) / (1 + INR (df chunks keywords kw))).

Definition header_boost (kw : str) (c : Chunk) : R :=
  if in_header kw c then 2 else 1.

Definition term (chunks : list Chunk) (keywords : list str) (kw : str) (c : Chunk) : R :=
  ln (1 + INR (tf kw c)) * idf chunks keywords kw * header_boost kw c.

(** The order of the ranked list: scores do not increase. *)
Definition by_score_desc (a b : RankedChunk) : Prop := score b <= score a.

End ScoreVocabulary.

(** The value by which [deduplicate] tells ranked chunks apart: the hash
    of the first 200 characters of the content. *)
Definition content_key (hash : str -> Z) (rc : RankedChunk) : Z :=
  hash (take 200 (Chunker.content (chunk rc))).

(** The lines before the next line at which a section starts. *)
Fixpoint section_body (starts : str -> bool) (lines : list str) : list str :=
  match lines with
  | [] => []
  | line :: more => if starts line then [] else line :: section_body starts more
  end.

(** Whether a line is a markdown heading, and whether a code pattern
    matches it. *)
Definition is_heading (line : str) : bool :=
  match MD_HEADER_PATTERN line with
  | Some _ => true
  | None => false
  end.

Definition matches (pattern : Pattern) (line : str) : bool :=
  match pattern line with
  | Some _ => true
  | None => false
  end.

(** The lines of the content of a chunk. *)
Definition chunk_lines (c : Chunk) : list str := split newline (Chunker.content c).

(** The results that lie in one file. *)
Definition results_of_file (results : list SearchResult) (p : str)
    : list SearchResult :=
  List.filter (fun r => bool_decide (Search.file_path r = p)) results.

(** The text that [ask_knowledge_base] searches: the query, a space and
    the context, when a context is given and not empty. *)
Definition search_text (query : str) (context : option str) : str :=
  match context with
  | Some ((_ :: _) as ctx) => query ++ py " " ++ ctx
  | _ => query
  end.

(** A string of code points below 256, in the wider alphabet. *)
Definition widen (s : str) : Wide.ustr := map Wide.Latin s.

(** ** Concrete settings

    The workspaces, hosts, backends and chunks at which the properties
    are evaluated. *)

Definition example_config : Config := {|
  workspace_path := py "/ws";
  knowledge_base := KnowledgeBaseConfig_default;
  search := SearchConfig_default;
  haiku := HaikuConfig_default
|}.

Definition example_chunk : Chunk := {|
  Chunker.file_path := py "/ws/CLAUDE.md";
  start_line := 1;
  end_line := 1;
  Chunker.content := py "add an option";
  header := None
|}.

Definition example_ranked : RankedChunk :=
  {| chunk := example_chunk; score := 1%R; matched_keywords := [py "add"] |}.

Definition answering_backend : Backend := {|
  anthropic_api_key := Some (py "key");
  anthropic_installed := true;
  _client := false;
  messages_create := fun _ => Message [Some (py "Use the options file.")]
|}.

Definition failing_backend : Backend := {|
  anthropic_api_key := Some (py "key");
  anthropic_installed := true;
  _client := false;
  messages_create := fun _ => Raises
|}.

(** Any digest will do for the examples. *)
Definition example_digest (s : str) : str := s.

Definition tool_is (name : str) (cmd : list str) : bool :=
  match cmd with
  | c :: _ => str_eqb c name
  | [] => false
  end.

Definition last_arg (cmd : list str) : str := List.last cmd [].




(** A workspace with only the documentation folder, holding two files
    that each have one matching line.  Ripgrep is started with a
    per-file cap and prints one line for each file. *)
Definition two_files_output : str :=
  py "/ws/.claude/a.md:3:add a rule" ++ [newline]
  ++ py "/ws/.claude/b.md:7:how to add an option".

Definition two_files_host : Host := {|
  is_windows := false;
  path_exists := fun p => str_eqb p (py "/ws/.claude");
  run := fun cmd =>
    if tool_is (py "rg") cmd && str_eqb (last_arg cmd) (py "/ws/.claude")
    then Completed (Some two_files_output)
    else Completed None;
  path_str := posix_path
|}.

(** A markdown document with one line before its first heading. *)
Definition example_markdown : str :=
  py "intro" ++ [newline] ++ py "# Main Title" ++ [newline] ++ py "text".

(** Chunks of one line without a header. *)
Definition plain_chunk (path text : string) : Chunk := {|
  Chunker.file_path := py path;
  start_line := 1;
  end_line := 1;
  Chunker.content := py text;
  header := None
|}.

Definition chunk_both : Chunk := plain_chunk "/ws/a.md" "alpha beta".

Definition chunk_single : Chunk := plain_chunk "/ws/b.md" "alpha".

Definition chunk_other : Chunk := plain_chunk "/ws/c.md" "beta".

Definition chunk_unrelated : Chunk := plain_chunk "/ws/d.md" "gamma".

(** A chunk that repeats one keyword fifteen times. *)
Definition chunk_repeating : Chunk :=
  plain_chunk "/ws/e.md"
    "alpha alpha alpha alpha alpha alpha alpha alpha alpha alpha alpha alpha alpha alpha alpha".

Definition two_keywords : list str := [py "alpha"; py "beta"].

Definition six_chunks : list Chunk :=
  [chunk_both; chunk_repeating; chunk_other;
   chunk_unrelated; chunk_unrelated; chunk_unrelated].

Definition three_chunks : list Chunk := [chunk_both; chunk_single; chunk_other].

(** A pattern for lines that start a Python function, with the rest of
    the line as its group, and a module with an import before its first
    function. *)
Definition def_pattern : Pattern :=
  fun line => if starts_with (py "def ") line then Some (drop 4 line) else None.

Definition example_code : str :=
  py "import os" ++ [newline] ++ py "def main():" ++ [newline] ++ py "    pass".

(** A workspace whose root file is one line that repeats a keyword
    fifteen times, with a ripgrep that finds this line; no code pattern
    is needed for it. *)
Definition repeating_text : str := Chunker.content chunk_repeating.

Definition repeating_host : Host := {|
  is_windows := false;
  path_exists := fun p => str_eqb p (py "/ws/CLAUDE.md");
  run := fun cmd =>
    if tool_is (py "rg") cmd && str_eqb (last_arg cmd) (py "/ws/CLAUDE.md")
    then Completed (Some (py "/ws/CLAUDE.md:1:" ++ repeating_text))
    else Completed None;
  path_str := posix_path
|}.

Definition repeating_file (p : str) : option str :=
  if str_eqb p (py "/ws/CLAUDE.md") then Some repeating_text else None.

Definition no_patterns : CodePatterns := {|
  PRG_FUNCTION_PATTERN := fun _ => None;
  C_FUNCTION_PATTERN := fun _ => None;
  PYTHON_FUNCTION_PATTERN := fun _ => None;
  CSHARP_PATTERN := fun _ => None;
  TS_FUNCTION_PATTERN := fun _ => None;
  SQL_PATTERN := fun _ => None;
  PS_FUNCTION_PATTERN := fun _ => None;
  BASH_FUNCTION_PATTERN := fun _ => None
|}.

(* ================================================================== *)
(** * Properties *)
(* ================================================================== *)




(** ** Token budgets ([config.py], [classify_query]) *)

Section TokenBudget.

Local Open Scope Z_scope.

Lemma get_token_budget_simple (config : HaikuConfig) :
  get_token_budget (py "simple") config = simple_budget config.
Proof. reflexivity. Qed.

Lemma get_token_budget_code_example (config : HaikuConfig) :
  get_token_budget (py "code_example") config = code_example_budget config.
Proof. reflexivity. Qed.

Lemma get_token_budget_complex (config : HaikuConfig) :
  get_token_budget (py "complex") config = complex_budget config.
Proof. reflexivity. Qed.

Lemma get_token_budget_other (query_type : str) (config : HaikuConfig) :
  query_type ≠ py "simple" ->
  query_type ≠ py "code_example" ->
  query_type ≠ py "complex" ->
  get_token_budget query_type config = default_budget config.
Proof.
  intros H1 H2 H3. unfold get_token_budget, budgets.
  rewrite !lookup_insert_ne by congruence.
  rewrite lookup_empty. reflexivity.
Qed.

Lemma classify_query_cases (query : str) :
  classify_query query = py "code_example"
  ∨ classify_query query = py "complex"
  ∨ classify_query query = py "simple".
Proof.
  unfold classify_query.
  destruct (existsb _ code_keywords); [now left|].
  destruct (existsb _ complex_keywords); [right; now left|right; now right].
Qed.

(** C1, as the claim states it, fails: with the default budgets the
    "complex" budget (6000) is not below the "code_example" budget
    (4000). *)
Lemma budget_order_as_claimed_fails :
  ¬ (get_token_budget (py "simple") HaikuConfig_default
       < get_token_budget (py "complex") HaikuConfig_default
     ∧ get_token_budget (py "complex") HaikuConfig_default
       < get_token_budget (py "code_example") HaikuConfig_default).
Proof. vm_compute. intros [_ H]. discriminate H. Qed.

(** C1 (amended): with the default budgets, simple < code_example <
    complex, so the "simple" budget is strictly below both others and the
    "complex" budget is strictly above the "code_example" one; every query
    is classified as one of the three intents and so gets one of these
    three budgets; for every configuration, an intent other than the three
    gets the separate default budget, which by default (2000) differs from
    all three. *)
Theorem token_budget_order :
  (get_token_budget (py "simple") HaikuConfig_default
     < get_token_budget (py "code_example") HaikuConfig_default
   ∧ get_token_budget (py "code_example") HaikuConfig_default
     < get_token_budget (py "complex") HaikuConfig_default)
  ∧ (∀ (query : str) (config : HaikuConfig),
        get_token_budget (classify_query query) config = simple_budget config
        ∨ get_token_budget (classify_query query) config = complex_budget config
        ∨ get_token_budget (classify_query query) config = code_example_budget config)
  ∧ (∀ (query_type : str) (config : HaikuConfig),
        query_type ≠ py "simple" ->
        query_type ≠ py "code_example" ->
        query_type ≠ py "complex" ->
        get_token_budget query_type config = default_budget config)
  ∧ (default_budget HaikuConfig_default ≠ simple_budget HaikuConfig_default
     ∧ default_budget HaikuConfig_default ≠ complex_budget HaikuConfig_default
     ∧ default_budget HaikuConfig_default ≠ code_example_budget HaikuConfig_default).
Proof.
  split; [|split; [|split]].
  - vm_compute. split; reflexivity.
  - intros query config.
    destruct (classify_query_cases query) as [-> | [-> | ->]].
    + right; right. reflexivity.
    + right; left. reflexivity.
    + left. reflexivity.
  - exact get_token_budget_other.
  - vm_compute. repeat split; discriminate.
Qed.

Lemma token_budget_order_witness :
  get_token_budget (py "summary") HaikuConfig_default = 2000.
Proof.
  apply (proj1 (proj2 (proj2 token_budget_order)) (py "summary") HaikuConfig_default);
    vm_compute; discriminate.
Defined.

End TokenBudget.

(** ** The distillation step and its cache ([haiku_client.py]) *)

Section Distillation.

Local Open Scope Q_scope.

Variable config : Config.
Variable backend : Backend.
Variable md5_hexdigest : str -> str.

Local Abbreviation distill := (distill config backend md5_hexdigest).
Local Abbreviation key_of := (_get_cache_key md5_hexdigest).
Local Abbreviation request_for := (request_for config).

(** A lookup of an entry younger than the TTL answers with its text and
    leaves the cache as it is. *)
Lemma check_cache_fresh (now : Q) (key text : str) (stored_at : Q) (cache : Cache) :
  cache !! key = Some (text, stored_at) ->
  now - stored_at < CACHE_TTL_SECONDS ->
  _check_cache now key cache = (Some text, cache).
Proof.
  intros Hk Hage. unfold _check_cache. rewrite Hk.
  destruct (Qlt_le_dec _ _) as [_ | Hle]; [reflexivity|].
  exfalso. exact (Qlt_not_le _ _ Hage Hle).
Qed.

(** A lookup of an entry that is not younger than the TTL deletes it and
    answers as if there were none. *)
Lemma check_cache_expired (now : Q) (key text : str) (stored_at : Q) (cache : Cache) :
  cache !! key = Some (text, stored_at) ->
  CACHE_TTL_SECONDS <= now - stored_at ->
  _check_cache now key cache = (None, delete key cache).
Proof.
  intros Hk Hage. unfold _check_cache. rewrite Hk.
  destruct (Qlt_le_dec _ _) as [Hlt | _]; [|reflexivity].
  exfalso. exact (Qlt_not_le _ _ Hlt Hage).
Qed.

Lemma check_cache_absent (now : Q) (key : str) (cache : Cache) :
  cache !! key = None ->
  _check_cache now key cache = (None, cache).
Proof. intros Hk. unfold _check_cache. now rewrite Hk. Qed.

Lemma extract_text_nonempty (blocks : list (option str)) :
  extract_text blocks ≠ [].
Proof.
  unfold extract_text.
  destruct blocks as [|[text|] ?]; try discriminate.
  destruct (strip text); discriminate.
Qed.

(** A call that finds a fresh, non-empty entry under its key. *)
Lemma distill_hit (query : str) (ranked_chunks : list RankedChunk)
    (t_lookup t_store stored_at : Q) (text : str) (cache : Cache) :
  ranked_chunks ≠ [] ->
  text ≠ [] ->
  cache !! key_of query ranked_chunks = Some (text, stored_at) ->
  t_lookup - stored_at < CACHE_TTL_SECONDS ->
  distill query ranked_chunks true t_lookup t_store cache
  = {| result :=
         {| content := text;
            query_type := classify_query query;
            token_budget := get_token_budget (classify_query query) (haiku config);
            cached := true |};
       cache_after := cache;
       requests := [] |}.
Proof.
  intros Hne Htext Hk Hage.
  destruct ranked_chunks as [|rc more]; [congruence|].
  unfold Haiku.distill.
  rewrite (check_cache_fresh _ _ _ _ _ Hk Hage).
  destruct text; [congruence|reflexivity].
Qed.

(** C8: with an empty list of ranked chunks, [distill] returns the fixed
    message, query type "simple", budget 0, not cached; it sends no
    request to the backend and leaves the cache as it found it, whatever
    the query, the [use_cache] flag, the clock and the cache are. *)
Theorem distill_no_chunks (query : str) (use_cache : bool)
    (t_lookup t_store : Q) (cache : Cache) :
  distill query [] use_cache t_lookup t_store cache
  = {| result :=
         {| content := py "No relevant information found in knowledge base.";
            query_type := py "simple";
            token_budget := 0;
            cached := false |};
       cache_after := cache;
       requests := [] |}.
Proof. reflexivity. Qed.

(** What the first of two calls leaves in the cache, when it got its
    answer from the cache or from a backend call that succeeded. *)
Lemma distill_leaves_entry (query : str) (ranked_chunks : list RankedChunk)
    (t_lookup t_store : Q) (cache : Cache) :
  ranked_chunks ≠ [] ->
  _get_client backend = true ->
  messages_create backend (request_for query ranked_chunks) ≠ Raises ->
  let first := distill query ranked_chunks true t_lookup t_store cache in
  content (result first) ≠ []
  ∧ ∃ stored_at,
      cache_after first !! key_of query ranked_chunks
      = Some (content (result first), stored_at)
      ∧ (cached (result first) = true ->
         requests first = [] ∧ t_lookup - stored_at < CACHE_TTL_SECONDS)
      ∧ (cached (result first) = false ->
         length (requests first) = 1%nat ∧ stored_at = t_store).
Proof.
  intros Hne Hclient Hanswers.
  destruct ranked_chunks as [|rc more]; [congruence|].
  cbv zeta. unfold Haiku.distill. rewrite Hclient.
  set (key := key_of query (rc :: more)).
  set (request := Build_Request _ _ _).
  assert (Hmiss : ∀ cache',
    let first :=
      match messages_create backend request with
      | Message blocks =>
          {| result :=
               {| content := extract_text blocks;
                  query_type := classify_query query;
                  token_budget := get_token_budget (classify_query query) (haiku config);
                  cached := false |};
             cache_after := _store_cache t_store key (extract_text blocks) cache';
             requests := [request] |}
      | Raises =>
          {| result := _fallback_response (rc :: more) (classify_query query)
                         (get_token_budget (classify_query query) (haiku config));
             cache_after := cache';
             requests := [request] |}
      end in
    content (result first) ≠ []
    ∧ ∃ stored_at,
        cache_after first !! key = Some (content (result first), stored_at)
        ∧ (cached (result first) = true ->
           requests first = [] ∧ t_lookup - stored_at < CACHE_TTL_SECONDS)
        ∧ (cached (result first) = false ->
           length (requests first) = 1%nat ∧ stored_at = t_store)).
  { intros cache'. cbv zeta.
    destruct (messages_create backend request) as [|blocks] eqn:Hreply.
    - exfalso. exact (Hanswers Hreply).
    - cbn [result cache_after content requests cached].
      split; [apply extract_text_nonempty|].
      exists t_store. unfold _store_cache. rewrite lookup_insert_eq.
      split; [reflexivity|]. split; [discriminate|]. intros _. now split. }
  unfold _check_cache. fold key.
  destruct (cache !! key) as [[text stored_at]|] eqn:Hk; [|apply Hmiss].
  destruct (Qlt_le_dec _ _) as [Hage | Hage]; [|apply Hmiss].
  destruct text as [|ch text]; [apply Hmiss|].
  cbn [result cache_after content requests cached]. split; [discriminate|].
  exists stored_at. split; [exact Hk|]. split; [|discriminate].
  intros _. now split.
Qed.

(** A call whose lookup finds nothing usable and whose backend call
    answers: one request, and the answer is stored under the key. *)
Lemma distill_miss (query : str) (ranked_chunks : list RankedChunk)
    (t_lookup t_store : Q) (cache cache' : Cache) (blocks : list (option str)) :
  ranked_chunks ≠ [] ->
  _check_cache t_lookup (key_of query ranked_chunks) cache = (None, cache') ->
  _get_client backend = true ->
  messages_create backend (request_for query ranked_chunks) = Message blocks ->
  distill query ranked_chunks true t_lookup t_store cache
  = {| result :=
         {| content := extract_text blocks;
            query_type := classify_query query;
            token_budget := get_token_budget (classify_query query) (haiku config);
            cached := false |};
       cache_after :=
         _store_cache t_store (key_of query ranked_chunks) (extract_text blocks) cache';
       requests := [request_for query ranked_chunks] |}.
Proof.
  intros Hne Hcheck Hclient Hreply.
  destruct ranked_chunks as [|rc more]; [congruence|].
  unfold Haiku.distill. rewrite Hcheck, Hclient.
  unfold request_for in Hreply. rewrite Hreply. reflexivity.
Qed.

(** C7 (amended): take a call of [distill] with caching enabled and a
    non-empty list of ranked chunks, in a setting where the backend is
    available and answers.  After it the cache holds, under the key of the
    query and the chunks, the text that the call returned, with the time
    [stored_at] at which it was stored (the store time of this call when
    the call was not itself answered from the cache).  A second call with
    the same query and chunks whose lookup happens less than the TTL after
    [stored_at] returns that text flagged as cached, sends no request to
    the backend and leaves the cache unchanged.  A second call whose
    lookup happens at least the TTL after [stored_at] finds the entry
    evicted by the lookup and treats it as absent: it is not flagged as
    cached, sends one request and stores the new answer. *)
Theorem distill_cache_round_trip (query : str) (ranked_chunks : list RankedChunk)
    (t1 ts1 t2 ts2 : Q) (cache : Cache) :
  ranked_chunks ≠ [] ->
  _get_client backend = true ->
  messages_create backend (request_for query ranked_chunks) ≠ Raises ->
  let key := key_of query ranked_chunks in
  let first := distill query ranked_chunks true t1 ts1 cache in
  let second := distill query ranked_chunks true t2 ts2 (cache_after first) in
  ∃ stored_at,
    cache_after first !! key = Some (content (result first), stored_at)
    ∧ (cached (result first) = false -> stored_at = ts1)
    ∧ (t2 - stored_at < CACHE_TTL_SECONDS ->
       content (result second) = content (result first)
       ∧ cached (result second) = true
       ∧ requests second = []
       ∧ cache_after second = cache_after first)
    ∧ (CACHE_TTL_SECONDS <= t2 - stored_at ->
       _check_cache t2 key (cache_after first)
       = (None, delete key (cache_after first))
       ∧ cached (result second) = false
       ∧ requests second = [request_for query ranked_chunks]
       ∧ cache_after second !! key = Some (content (result second), ts2)).
Proof.
  intros Hne Hclient Hanswers key first second.
  destruct (distill_leaves_entry query ranked_chunks t1 ts1 cache Hne Hclient Hanswers)
    as [Htext [stored_at [Hk [_ Hmiss]]]].
  fold first in Htext, Hk, Hmiss. fold key in Hk.
  exists stored_at. split; [exact Hk|]. split; [intros H; now apply Hmiss|]. split.
  - intros Hage. subst second.
    rewrite (distill_hit query ranked_chunks t2 ts2 stored_at _ _ Hne Htext Hk Hage).
    cbn [result cache_after content requests cached]. repeat split.
  - intros Hage.
    pose proof (check_cache_expired t2 key _ stored_at _ Hk Hage) as Hcheck.
    split; [exact Hcheck|].
    destruct (messages_create backend (request_for query ranked_chunks))
      as [|blocks] eqn:Hreply; [congruence|].
    subst second.
    rewrite (distill_miss query ranked_chunks t2 ts2 _ _ blocks Hne Hcheck Hclient Hreply).
    cbn [result cache_after content requests cached].
    split; [reflexivity|]. split; [reflexivity|].
    unfold _store_cache. fold key. apply lookup_insert_eq.
Qed.

End Distillation.

(** C7, as the claim states it, fails in two ways, with chunks and a
    backend that answers.  The TTL runs from the time at which the entry
    was stored, not from the first of the two calls: when the first call
    is itself answered from an entry stored 3000 seconds before it, a
    second call 700 seconds later, well within the TTL of the first, finds
    the entry 3700 seconds old, evicts it, is not flagged as cached and
    sends a request.  And an entry is evicted when its age is equal to the
    TTL, which does not exceed it: a second call exactly 3600 seconds
    after the first one stored its answer is not flagged as cached and
    sends a request. *)
Lemma distill_twice_as_claimed_fails :
  let query := py "where are options set" in
  let key := _get_cache_key example_digest query [example_ranked] in
  let distill :=
    distill example_config answering_backend example_digest query [example_ranked]
      true in
  (let first := distill 3000%Q 3001%Q {[ key := (py "An older answer.", 0%Q) ]} in
   let second := distill 3700%Q 3701%Q (cache_after first) in
   cached (result first) = true
   ∧ (3700 - 3000 < CACHE_TTL_SECONDS)%Q
   ∧ cached (result second) = false
   ∧ length (requests second) = 1%nat)
  ∧ (let first := distill 0%Q 0%Q ∅ in
     let second := distill 3600%Q 3600%Q (cache_after first) in
     cached (result first) = false
     ∧ cache_after first !! key = Some (content (result first), 0%Q)
     ∧ (3600 - 0 <= CACHE_TTL_SECONDS)%Q
     ∧ cached (result second) = false
     ∧ length (requests second) = 1%nat).
Proof.
  cbv zeta. split.
  - split; [vm_compute; reflexivity|]. split; [vm_compute; reflexivity|].
    split; vm_compute; reflexivity.
  - split; [vm_compute; reflexivity|]. split; [vm_compute; reflexivity|].
    split; [vm_compute; discriminate|]. split; vm_compute; reflexivity.
Qed.

Lemma distill_cache_round_trip_witness :
  let first :=
    distill example_config answering_backend example_digest
      (py "where are options set") [example_ranked] true 0 1 ∅ in
  let second :=
    distill example_config answering_backend example_digest
      (py "where are options set") [example_ranked] true 100 101 (cache_after first) in
  content (result second) = content (result first)
  ∧ cached (result second) = true
  ∧ requests second = []
  ∧ cache_after second = cache_after first.
Proof.
  destruct (distill_cache_round_trip example_config answering_backend example_digest
              (py "where are options set") [example_ranked] 0 1 100 101 ∅)
    as [stored_at [_ [Hat [Hfresh _]]]].
  - discriminate.
  - reflexivity.
  - discriminate.
  - apply Hfresh. rewrite Hat; reflexivity.
Defined.

(** ** The search backend ([search.py]) *)

Section SearchBackend.

Local Open Scope Z_scope.

Variable host : Host.
Variable config : Config.

Local Abbreviation unavailable := (py "Neither ripgrep nor grep is available.").

(** The grep loop raises the availability error only after an
    invocation of grep found no executable. *)
Lemma grep_loop_raises (keywords : list str) (max_results : Z)
    (search_paths : list str) (results : list SearchResult) (msg : str) :
  grep_loop host config keywords max_results search_paths results = RuntimeError msg ->
  msg = unavailable
  ∧ ∃ search_path n,
      In search_path search_paths
      ∧ run host (_build_grep_command host config (or_pattern keywords) search_path (Some n))
        = FileNotFoundError.
Proof.
  revert results. induction search_paths as [|p more IH]; intros results; simpl.
  - discriminate.
  - destruct (path_exists host p); simpl.
    + destruct (_ <=? 0); [discriminate|].
      destruct (run host _) as [stdout| |] eqn:Hrun.
      * destruct (parse_stdout _ _ _ _) as [results'|]; [|discriminate].
        intros H. destruct (IH _ H) as [Hm [sp [n [Hin Hr]]]].
        split; [exact Hm|]. exists sp, n. split; [now right|exact Hr].
      * discriminate.
      * intros [= <-]. split; [reflexivity|].
        eexists p, _. split; [now left|exact Hrun].
    + intros H. destruct (IH _ H) as [Hm [sp [n [Hin Hr]]]].
      split; [exact Hm|]. exists sp, n. split; [now right|exact Hr].
Qed.

Lemma grep_search_raises (keywords : list str) (max_results : option Z) (msg : str) :
  _grep_search host config keywords max_results = RuntimeError msg ->
  msg = unavailable
  ∧ ∃ search_path n,
      run host (_build_grep_command host config (or_pattern keywords) search_path (Some n))
      = FileNotFoundError.
Proof.
  unfold _grep_search. destruct keywords as [|kw kws]; [discriminate|].
  intros H. destruct (grep_loop_raises _ _ _ _ _ H) as [Hm [sp [n [_ Hr]]]].
  split; [exact Hm|]. now exists sp, n.
Qed.

Lemma ripgrep_loop_raises (keywords : list str) (max_results : Z)
    (search_paths : list str) (results : list SearchResult) (msg : str) :
  ripgrep_loop host config keywords max_results search_paths results = RuntimeError msg ->
  msg = unavailable
  ∧ ∃ search_path n,
      run host (_build_grep_command host config (or_pattern keywords) search_path (Some n))
      = FileNotFoundError.
Proof.
  revert results. induction search_paths as [|p more IH]; intros results; simpl.
  - discriminate.
  - destruct (path_exists host p); simpl; [|apply IH].
    destruct (_ <=? 0); [discriminate|].
    destruct (run host _) as [stdout| |]; [|discriminate|].
    + destruct (parse_stdout _ _ _ _) as [results'|]; [apply IH|discriminate].
    + apply grep_search_raises.
Qed.

(** The parsing loop raises only at a result line whose line number has
    more digits than [int] accepts. *)
Lemma parse_lines_value_error (mk_path : str -> str) (keywords lines : list str)
    (results : list SearchResult) :
  parse_lines mk_path keywords lines results = None ->
  ∃ line g1 g2 content,
    In line lines
    ∧ match_line line = Some (g1, g2, content)
    ∧ (int_max_str_digits < length g2)%nat.
Proof.
  revert results. induction lines as [|line more IH]; intros results;
    cbn [parse_lines]; [discriminate|].
  assert (Hmore : ∀ results',
            parse_lines mk_path keywords more results' = None ->
            ∃ l g1 g2 content,
              In l (line :: more)
              ∧ match_line l = Some (g1, g2, content)
              ∧ (int_max_str_digits < length g2)%nat).
  { intros results' H. destruct (IH _ H) as (l & g1 & g2 & content & Hin & Hm & Hlen).
    exists l, g1, g2, content. split; [now right|now split]. }
  destruct line as [|c line]; [apply Hmore|].
  destruct (match_line (c :: line)) as [[[g1 g2] content]|] eqn:Hmatch; [|apply Hmore].
  unfold int_of_digits.
  destruct (Nat.leb_spec (length g2) int_max_str_digits) as [Hle|Hgt]; [apply Hmore|].
  intros _. exists (c :: line), g1, g2, content. split; [now left|now split].
Qed.

(** The searches raise a [ValueError] only after an invocation that
    completed with such a line. *)
Lemma grep_loop_value_error (keywords : list str) (max_results : Z)
    (search_paths : list str) (results : list SearchResult) :
  grep_loop host config keywords max_results search_paths results = ValueError ->
  ∃ cmd stdout, run host cmd = Completed stdout ∧ overlong_number stdout.
Proof.
  revert results. induction search_paths as [|p more IH]; intros results; simpl.
  - discriminate.
  - destruct (path_exists host p); simpl; [|apply IH].
    destruct (_ <=? 0); [discriminate|].
    destruct (run host _) as [stdout| |] eqn:Hrun; [|discriminate|discriminate].
    destruct (parse_stdout _ _ _ _) as [results'|] eqn:Hparse; [apply IH|].
    intros _. eexists _, stdout. split; [exact Hrun|].
    exact (parse_lines_value_error _ _ _ _ Hparse).
Qed.

Lemma grep_search_value_error (keywords : list str) (max_results : option Z) :
  _grep_search host config keywords max_results = ValueError ->
  ∃ cmd stdout, run host cmd = Completed stdout ∧ overlong_number stdout.
Proof.
  unfold _grep_search. destruct keywords as [|kw kws]; [discriminate|].
  apply grep_loop_value_error.
Qed.

Lemma ripgrep_loop_value_error (keywords : list str) (max_results : Z)
    (search_paths : list str) (results : list SearchResult) :
  ripgrep_loop host config keywords max_results search_paths results = ValueError ->
  ∃ cmd stdout, run host cmd = Completed stdout ∧ overlong_number stdout.
Proof.
  revert results. induction search_paths as [|p more IH]; intros results; simpl.
  - discriminate.
  - destruct (path_exists host p); simpl; [|apply IH].
    destruct (_ <=? 0); [discriminate|].
    destruct (run host _) as [stdout| |] eqn:Hrun; [|discriminate|].
    + destruct (parse_stdout _ _ _ _) as [results'|] eqn:Hparse; [apply IH|].
      intros _. eexists _, stdout. split; [exact Hrun|].
      exact (parse_lines_value_error _ _ _ _ Hparse).
    + apply grep_search_value_error.
Qed.






End SearchBackend.

(** *** The search at concrete hosts *)



(** C2 at a failing input: with a budget of one result, the single
    invocation of ripgrep is capped at one (its [--max-count]), two lines
    come back, one for each file, and the search returns both. *)
Theorem ripgrep_search_exceeds_max_results :
  let keywords := [py "add"] in
  let cmd :=
    _build_ripgrep_command two_files_host example_config (or_pattern keywords)
      (py "/ws/.claude") (Some 1%Z) in
  (∃ before after, cmd = before ++ [py "--max-count"; py "1"] ++ after)
  ∧ run two_files_host cmd = Completed (Some two_files_output)
  ∧ ripgrep_search two_files_host example_config keywords (Some 1%Z)
    = Returned
        [ {| Search.file_path := py "/ws/.claude/a.md"; line_number := 3;
             line_content := py "add a rule"; match_text := py "add" |};
          {| Search.file_path := py "/ws/.claude/b.md"; line_number := 7;
             line_content := py "how to add an option"; match_text := py "add" |} ].
Proof.
  cbv zeta. split; [|split; vm_compute; reflexivity].
  set (cmd := _build_ripgrep_command _ _ _ _ _).
  exists (take 41 cmd), (drop 43 cmd). vm_compute. reflexivity.
Qed.

(** ** Lines of a text ([str.split] and [str.join]) *)

Section Lines.

Variable sep : ascii.

Lemma split_not_nil (s : str) : split sep s ≠ [].
Proof.
  destruct s as [|c s]; simpl; [discriminate|].
  case_bool_decide; [discriminate|]. destruct (split sep s); discriminate.
Qed.

Lemma split_no_sep (s : str) : Forall (fun l => ¬ In sep l) (split sep s).
Proof.
  induction s as [|c s IH]; simpl.
  - constructor; [intros []|constructor].
  - case_bool_decide as Hc.
    + constructor; [intros []|exact IH].
    + destruct (split sep s) as [|l ls]; [repeat constructor; intros [?|[]]; congruence|].
      inversion IH as [|? ? Hl Hls]; subst. constructor; [|exact Hls].
      intros [?|?]; [congruence|auto].
Qed.

Lemma join_cons (p : str) (ps : list str) :
  ps ≠ [] -> join [sep] (p :: ps) = p ++ sep :: join [sep] ps.
Proof. destruct ps; [congruence|reflexivity]. Qed.

Lemma join_split (s : str) : join [sep] (split sep s) = s.
Proof.
  induction s as [|c s IH]; simpl; [reflexivity|].
  case_bool_decide as Hc.
  - rewrite join_cons by apply split_not_nil. simpl. now rewrite IH, Hc.
  - pose proof (split_not_nil s) as Hne.
    destruct (split sep s) as [|l ls]; [congruence|].
    destruct ls as [|l' ls]; simpl in *; now rewrite <- IH.
Qed.

Lemma split_without_sep (p : str) : ¬ In sep p -> split sep p = [p].
Proof.
  induction p as [|c p IH]; simpl; [reflexivity|].
  intros Hp. case_bool_decide as Hc; [exfalso; apply Hp; now left|].
  rewrite IH by (intros ?; apply Hp; now right). reflexivity.
Qed.

Lemma split_app_sep (p t : str) :
  ¬ In sep p -> split sep (p ++ sep :: t) = p :: split sep t.
Proof.
  induction p as [|c p IH]; simpl; intros Hp.
  - now rewrite bool_decide_eq_true_2.
  - case_bool_decide as Hc; [exfalso; apply Hp; now left|].
    rewrite IH by (intros ?; apply Hp; now right). reflexivity.
Qed.

Lemma split_join (ls : list str) :
  ls ≠ [] -> Forall (fun l => ¬ In sep l) ls -> split sep (join [sep] ls) = ls.
Proof.
  induction ls as [|p ps IH]; [congruence|].
  intros _ Hall. inversion Hall as [|? ? Hp Hps]; subst.
  destruct ps as [|q ps].
  - simpl. now apply split_without_sep.
  - rewrite join_cons by discriminate.
    rewrite split_app_sep by exact Hp.
    now rewrite IH.
Qed.

End Lines.

(** ** Slices *)

Section Slices.

Local Open Scope Z_scope.

Context {A : Type}.

Lemma len_nonneg (l : list A) : 0 <= len l.
Proof. unfold len. lia. Qed.

Lemma len_slice (l : list A) (a b : Z) :
  0 <= a -> a <= b -> b <= len l -> len (slice l a b) = b - a.
Proof.
  unfold len, slice. intros Ha Hab Hb.
  rewrite length_take, length_drop. lia.
Qed.

Lemma slice_all (l : list A) : slice l 0 (len l) = l.
Proof.
  unfold slice, len. rewrite Z.sub_0_r, Nat2Z.id. simpl.
  apply firstn_all.
Qed.

Lemma slice_Forall (P : A -> Prop) (l : list A) (a b : Z) :
  Forall P l -> Forall P (slice l a b).
Proof. intros H. unfold slice. now apply Forall_take, Forall_drop. Qed.

Lemma slice_head (l : list A) (a b : Z) (x : A) :
  0 <= a -> a < b -> l !! Z.to_nat a = Some x ->
  ∃ rest, slice l a b = x :: rest.
Proof.
  intros Ha Hab Hx. unfold slice.
  rewrite (drop_S l x (Z.to_nat a)) by exact Hx.
  destruct (Z.to_nat (b - a)) as [|n] eqn:Hn; [lia|].
  simpl. eauto.
Qed.

End Slices.

(** ** Segmentation ([chunker.py]) *)

Section Segmentation.

Local Open Scope Z_scope.

Lemma covers_lines_split (file_content : str) (c : Chunk) :
  covers_lines (split newline file_content) c ->
  start_line c <= end_line c
  ∧ len (split newline (Chunker.content c)) = end_line c - start_line c + 1
  ∧ split newline (Chunker.content c)
    = slice (split newline file_content) (start_line c - 1) (end_line c)
  ∧ 1 <= start_line c ∧ end_line c <= len (split newline file_content).
Proof.
  intros (H1 & H2 & H3 & Hc).
  assert (Hs : split newline (Chunker.content c)
               = slice (split newline file_content) (start_line c - 1) (end_line c)).
  { rewrite Hc. apply split_join.
    - intros Hnil. apply (f_equal len) in Hnil.
      rewrite len_slice in Hnil by lia. unfold len in Hnil. simpl in Hnil. lia.
    - apply slice_Forall, split_no_sep. }
  repeat split; try assumption.
  rewrite Hs, len_slice by lia. lia.
Qed.

Lemma whole_file_covers (file_path file_content : str) :
  Forall (covers_lines (split newline file_content)) (whole_file file_path file_content)
  ∧ in_order (whole_file file_path file_content).
Proof.
  unfold whole_file. split.
  - constructor; [|constructor]. unfold covers_lines. simpl.
    pose proof (split_not_nil newline file_content) as Hne.
    assert (1 <= len (split newline file_content)).
    { unfold len. destruct (split newline file_content); [congruence|simpl; lia]. }
    repeat split; try lia.
    change (1 - 1) with 0. now rewrite slice_all, join_split.
  - repeat constructor.
Qed.

Lemma find_headers_range (i : Z) (lines : list str) :
  Forall (fun h => i <= hidx h < i + len lines) (find_headers i lines)
  ∧ StronglySorted (fun a b => hidx a < hidx b) (find_headers i lines).
Proof.
  revert i. induction lines as [|line more IH]; intros i; simpl.
  - split; constructor.
  - destruct (IH (i + 1)) as [Hr Hs].
    assert (Hr' : Forall (fun h => i <= hidx h < i + len (line :: more))
                    (find_headers (i + 1) more)).
    { eapply List.Forall_impl; [|exact Hr]. unfold len. simpl. intros h ?. lia. }
    destruct (MD_HEADER_PATTERN line) as [[level group2]|]; [|now split].
    split.
    + constructor; [unfold hidx, len; simpl; lia|exact Hr'].
    + constructor; [exact Hs|].
      eapply List.Forall_impl; [|exact Hr]. unfold hidx. simpl. intros h ?. lia.
Qed.

Lemma find_headers_match (i : Z) (lines : list str) (h : Z * nat * str) :
  In h (find_headers i lines) ->
  ∃ line group2,
    lines !! Z.to_nat (hidx h - i) = Some line
    ∧ MD_HEADER_PATTERN line = Some (snd (fst h), group2)
    ∧ snd h = strip group2.
Proof.
  revert i. induction lines as [|line more IH]; intros i; simpl; [intros []|].
  assert (Hrest : In h (find_headers (i + 1) more) ->
    ∃ line0 group2,
      (line :: more) !! Z.to_nat (hidx h - i) = Some line0
      ∧ MD_HEADER_PATTERN line0 = Some (snd (fst h), group2)
      ∧ snd h = strip group2).
  { intros Hin. destruct (IH _ Hin) as (l & g & Hl & Hm & Ht).
    exists l, g. split; [|now split].
    pose proof (proj1 (find_headers_range (i + 1) more)) as Hr.
    rewrite List.Forall_forall in Hr. specialize (Hr _ Hin).
    replace (Z.to_nat (hidx h - i)) with (S (Z.to_nat (hidx h - (i + 1)))) by lia.
    exact Hl. }
  destruct (MD_HEADER_PATTERN line) as [[level group2]|] eqn:Hm; [|exact Hrest].
  intros [<-|Hin]; [|now apply Hrest].
  exists line, group2. unfold hidx. simpl. rewrite Z.sub_diag. simpl. now split.
Qed.

Lemma find_headers_nonempty (i : Z) (lines : list str) :
  Exists (fun line => MD_HEADER_PATTERN line ≠ None) lines ->
  find_headers i lines ≠ [].
Proof.
  intros Hex. revert i. induction Hex as [line more Hm|line more _ IH]; intros i; simpl.
  - destruct (MD_HEADER_PATTERN line) as [[level group2]|]; [discriminate|congruence].
  - destruct (MD_HEADER_PATTERN line) as [[level group2]|]; [discriminate|apply IH].
Qed.

(** What the loop of [chunk_markdown] produces from sorted headings. *)
Lemma markdown_sections_ok (file_path : str) (lines : list str)
    (headers : list (Z * nat * str)) :
  Forall (fun h => 0 <= hidx h < len lines) headers ->
  StronglySorted (fun a b => hidx a < hidx b) headers ->
  let chunks := markdown_sections file_path lines headers in
  Forall (covers_lines lines) chunks
  ∧ in_order chunks
  ∧ Forall (fun c => ∃ h, In h headers
                          ∧ start_line c = hidx h + 1
                          ∧ header c = Some (snd h)) chunks.
Proof.
  induction headers as [|[[line_idx level] title] rest IH]; intros Hrange Hsorted; simpl.
  - repeat split; constructor.
  - inversion Hrange as [|? ? Hh Hrest]; subst.
    inversion Hsorted as [|? ? Hs Hlt]; subst.
    destruct (IH Hrest Hs) as (Hc & Ho & Hst). clear IH.
    unfold hidx in Hh. simpl in Hh.
    assert (Hst' : Forall (fun c => ∃ h, In h ((line_idx, level, title) :: rest)
                                         ∧ start_line c = hidx h + 1
                                         ∧ header c = Some (snd h))
                     (markdown_sections file_path lines rest)).
    { eapply List.Forall_impl; [|exact Hst]. intros c (h & Hin & ?). exists h.
      split; [now right|assumption]. }
    set (end_idx := match rest with
                    | (next_idx, _, _) :: _ => next_idx - 1
                    | [] => len lines - 1
                    end).
    assert (Hend : line_idx <= end_idx < len lines).
    { subst end_idx. destruct rest as [|[[next_idx ?] ?] ?]; [lia|].
      inversion Hlt as [|? ? Hn _]; subst. inversion Hrest as [|? ? Hn' _]; subst.
      unfold hidx in *. simpl in *. lia. }
    assert (Hafter : Forall (fun c => end_idx + 1 < start_line c)
                       (markdown_sections file_path lines rest)).
    { rewrite List.Forall_forall in Hst. apply List.Forall_forall. intros c Hin.
      destruct (Hst c Hin) as (h & Hh' & -> & _).
      subst end_idx. destruct rest as [|[[next_idx ?] ?] rest']; [destruct Hh'|].
      inversion Hs as [|? ? _ Hlt']; subst. rewrite List.Forall_forall in Hlt'.
      destruct Hh' as [<-|Hh']; [unfold hidx; simpl; lia|].
      specialize (Hlt' _ Hh'). unfold hidx in *. simpl in *. lia. }
    destruct (strip _); [now repeat split|].
    split; [|split].
    + constructor; [|exact Hc]. unfold covers_lines. simpl.
      repeat split; try lia. now rewrite Z.add_simpl_r.
    + constructor; [exact Ho|]. exact Hafter.
    + constructor; [|exact Hst'].
      exists (line_idx, level, title). split; [now left|now split].
Qed.

Lemma find_functions_range (pattern : Pattern) (i : Z) (lines : list str) :
  Forall (fun f => i <= fidx f < i + len lines) (find_functions pattern i lines)
  ∧ StronglySorted (fun a b => fidx a < fidx b) (find_functions pattern i lines).
Proof.
  revert i. induction lines as [|line more IH]; intros i; simpl.
  - split; constructor.
  - destruct (IH (i + 1)) as [Hr Hs].
    assert (Hr' : Forall (fun f => i <= fidx f < i + len (line :: more))
                    (find_functions pattern (i + 1) more)).
    { eapply List.Forall_impl; [|exact Hr]. unfold len. simpl. intros f ?. lia. }
    destruct (pattern line) as [name|]; [|now split].
    split.
    + constructor; [unfold fidx, len; simpl; lia|exact Hr'].
    + constructor; [exact Hs|].
      eapply List.Forall_impl; [|exact Hr]. unfold fidx. simpl. intros f ?. lia.
Qed.

Lemma code_sections_ok (file_path : str) (lines : list str)
    (functions : list (Z * str)) :
  Forall (fun f => 0 <= fidx f < len lines) functions ->
  StronglySorted (fun a b => fidx a < fidx b) functions ->
  let chunks := code_sections file_path lines functions in
  Forall (covers_lines lines) chunks
  ∧ in_order chunks
  ∧ Forall (fun c => ∃ f, In f functions ∧ start_line c = fidx f + 1) chunks.
Proof.
  induction functions as [|[line_idx func_name] rest IH]; intros Hrange Hsorted; simpl.
  - repeat split; constructor.
  - inversion Hrange as [|? ? Hh Hrest]; subst.
    inversion Hsorted as [|? ? Hs Hlt]; subst.
    destruct (IH Hrest Hs) as (Hc & Ho & Hst). clear IH.
    unfold fidx in Hh. simpl in Hh.
    set (end_idx := match rest with
                    | (next_idx, _) :: _ => next_idx - 1
                    | [] => len lines - 1
                    end).
    assert (Hend : line_idx <= end_idx < len lines).
    { subst end_idx. destruct rest as [|[next_idx ?] ?]; [lia|].
      inversion Hlt as [|? ? Hn _]; subst. inversion Hrest as [|? ? Hn' _]; subst.
      unfold fidx in *. simpl in *. lia. }
    split; [|split].
    + constructor; [|exact Hc]. unfold covers_lines. simpl.
      repeat split; try lia. now rewrite Z.add_simpl_r.
    + constructor; [exact Ho|]. simpl.
      rewrite List.Forall_forall in Hst. apply List.Forall_forall. intros c Hin.
      destruct (Hst c Hin) as (f & Hf & ->).
      subst end_idx. destruct rest as [|[next_idx ?] rest']; [destruct Hf|].
      inversion Hs as [|? ? _ Hlt']; subst. rewrite List.Forall_forall in Hlt'.
      destruct Hf as [<-|Hf]; [unfold fidx; simpl; lia|].
      specialize (Hlt' _ Hf). unfold fidx in *. simpl in *. lia.
    + constructor.
      * exists (line_idx, func_name). split; [now left|reflexivity].
      * eapply List.Forall_impl; [|exact Hst]. intros c (f & Hin & ?). exists f.
        split; [now right|assumption].
Qed.

End Segmentation.

Section SegmentationClaims.

Local Open Scope Z_scope.

Lemma segmentation_ok_intro (file_content : str) (chunks : list Chunk) :
  Forall (covers_lines (split newline file_content)) chunks ->
  in_order chunks ->
  segmentation_ok file_content chunks.
Proof.
  intros Hc Ho. split; [|exact Ho].
  eapply List.Forall_impl; [|exact Hc]. intros c. apply covers_lines_split.
Qed.

Lemma chunk_markdown_ok (file_content file_path : str) :
  segmentation_ok file_content (chunk_markdown file_content file_path).
Proof.
  unfold chunk_markdown.
  destruct (find_headers_range 0 (split newline file_content)) as [Hr Hs].
  destruct (find_headers 0 (split newline file_content)) as [|h hs] eqn:Hh.
  - apply segmentation_ok_intro; apply whole_file_covers.
  - destruct (markdown_sections_ok file_path (split newline file_content) (h :: hs))
      as (Hc & Ho & _); [exact Hr|exact Hs|].
    now apply segmentation_ok_intro.
Qed.

Lemma chunk_code_ok (file_content file_path : str) (pattern : Pattern) :
  segmentation_ok file_content (chunk_code file_content file_path pattern).
Proof.
  unfold chunk_code.
  destruct (find_functions_range pattern 0 (split newline file_content)) as [Hr Hs].
  destruct (find_functions pattern 0 (split newline file_content)) as [|f fs] eqn:Hf.
  - apply segmentation_ok_intro; apply whole_file_covers.
  - destruct (code_sections_ok file_path (split newline file_content) (f :: fs))
      as (Hc & Ho & _); [exact Hr|exact Hs|].
    now apply segmentation_ok_intro.
Qed.

(** C4: every chunk produced by a segmentation pass (markdown, code with
    any pattern, the whole-file fallback, and so every branch of
    [chunk_file]) has [end_line >= start_line]; splitting its content on
    the newline gives exactly [end_line - start_line + 1] elements, which
    are the lines of the file from [start_line] to [end_line] (counted
    from 1); and the chunks of one pass are in the order of their lines,
    each ending before the next one starts. *)
Theorem chunk_invariant (file_content file_path : str) (pattern : Pattern)
    (patterns : CodePatterns) (read_text : str -> option str) :
  segmentation_ok file_content (chunk_markdown file_content file_path)
  ∧ segmentation_ok file_content (chunk_code file_content file_path pattern)
  ∧ segmentation_ok file_content (whole_file file_path file_content)
  ∧ segmentation_ok (default [] (read_text file_path))
      (chunk_file patterns read_text file_path).
Proof.
  split; [apply chunk_markdown_ok|]. split; [apply chunk_code_ok|].
  split; [apply segmentation_ok_intro; apply whole_file_covers|].
  unfold chunk_file. destruct (read_text file_path) as [text|]; simpl.
  - destruct (_detect_file_type file_path);
      first [apply chunk_markdown_ok | apply chunk_code_ok
            | apply segmentation_ok_intro; apply whole_file_covers].
  - split; constructor.
Qed.

(** C10: in a markdown document with at least one heading line, every
    chunk of [chunk_markdown] starts at a heading line: the line numbered
    [start_line] matches the heading pattern and the chunk's header is
    that heading's title.  Hence a line number [n] such that no line up to
    [n] is a heading lies in no chunk: the lines before the first heading
    are not covered. *)
Theorem markdown_chunks_start_at_headings (file_content file_path : str) :
  Exists (fun line => MD_HEADER_PATTERN line ≠ None) (split newline file_content) ->
  let lines := split newline file_content in
  let chunks := chunk_markdown file_content file_path in
  Forall (fun c =>
            1 <= start_line c
            ∧ ∃ line level group2,
                lines !! Z.to_nat (start_line c - 1) = Some line
                ∧ MD_HEADER_PATTERN line = Some (level, group2)
                ∧ header c = Some (strip group2)) chunks
  ∧ ∀ n,
      (∀ k line, 1 <= k <= n ->
                 lines !! Z.to_nat (k - 1) = Some line ->
                 MD_HEADER_PATTERN line = None) ->
      Forall (fun c => ¬ (start_line c <= n <= end_line c)) chunks.
Proof.
  intros Hex lines chunks.
  assert (Hstart : Forall (fun c =>
            1 <= start_line c
            ∧ ∃ line level group2,
                lines !! Z.to_nat (start_line c - 1) = Some line
                ∧ MD_HEADER_PATTERN line = Some (level, group2)
                ∧ header c = Some (strip group2)) chunks).
  { subst chunks. unfold chunk_markdown. fold lines.
    pose proof (find_headers_nonempty 0 lines Hex) as Hne.
    destruct (find_headers_range 0 lines) as [Hr Hs].
    pose proof (find_headers_match 0 lines) as Hm.
    destruct (find_headers 0 lines) as [|h hs]; [congruence|].
    destruct (markdown_sections_ok file_path lines (h :: hs) Hr Hs) as (_ & _ & Hst).
    eapply List.Forall_impl; [|exact Hst].
    intros c (h' & Hin & Hs' & Hh').
    rewrite List.Forall_forall in Hr. specialize (Hr _ Hin).
    destruct (Hm _ Hin) as (line & group2 & Hl & Hp & Ht).
    split; [lia|]. exists line, (snd (fst h')), group2.
    rewrite Hs', Z.add_simpl_r. rewrite Z.sub_0_r in Hl.
    split; [exact Hl|]. split; [exact Hp|]. now rewrite Hh', Ht. }
  split; [exact Hstart|].
  intros n Hbefore. eapply List.Forall_impl; [|exact Hstart].
  intros c (H1 & line & level & group2 & Hl & Hp & _) [Hle _].
  rewrite (Hbefore (start_line c) line) in Hp; [discriminate|lia|exact Hl].
Qed.

End SegmentationClaims.

Lemma markdown_chunks_start_at_headings_witness :
  Forall (fun c => ¬ (start_line c <= 1 <= end_line c)%Z)
    (chunk_markdown example_markdown (py "notes.md")).
Proof.
  assert (Hex : Exists (fun line => MD_HEADER_PATTERN line ≠ None)
                  (split newline example_markdown)).
  { replace (split newline example_markdown)
      with [py "intro"; py "# Main Title"; py "text"] by (vm_compute; reflexivity).
    apply Exists_cons_tl, Exists_cons_hd. vm_compute. discriminate. }
  apply (proj2 (markdown_chunks_start_at_headings example_markdown (py "notes.md") Hex) 1%Z).
  intros k line Hk.
  replace k with 1%Z by lia.
  replace (split newline example_markdown)
    with [py "intro"; py "# Main Title"; py "text"] by (vm_compute; reflexivity).
  simpl. intros [= <-]. vm_compute. reflexivity.
Defined.

(** ** Keyword extraction ([extract_keywords]) *)

Section CharacterClasses.

Ltac by_cases_on c :=
  destruct c as [[] [] [] [] [] [] [] []]; vm_compute; reflexivity.

Lemma is_word_lower_char (c : ascii) : is_word (lower_char c) = is_word c.
Proof. by_cases_on c. Qed.

Lemma is_ident_start_lower_char (c : ascii) :
  is_ident_start (lower_char c) = is_ident_start c.
Proof. by_cases_on c. Qed.

Lemma is_ident_char_lower_char (c : ascii) :
  is_ident_char (lower_char c) = is_ident_char c.
Proof. by_cases_on c. Qed.

Lemma lower_char_idem (c : ascii) : lower_char (lower_char c) = lower_char c.
Proof. by_cases_on c. Qed.

Lemma is_ident_start_char (c : ascii) :
  is_ident_start c = true -> is_ident_char c = true.
Proof. unfold is_ident_char. now intros ->. Qed.

Lemma is_ident_char_word (c : ascii) : is_ident_char c = true -> is_word c = true.
Proof. unfold is_word. now intros ->. Qed.

Lemma lower_idem (s : str) : lower (lower s) = lower s.
Proof.
  unfold lower. rewrite map_map. apply map_ext. intros c. apply lower_char_idem.
Qed.

End CharacterClasses.

Section Deduplication.

Lemma differs_true (x y : str) : differs x y = true <-> x ≠ y.
Proof.
  unfold differs, str_eqb. rewrite negb_true_iff, bool_decide_eq_false. reflexivity.
Qed.

Lemma filter_filter_comm (f g : str -> bool) (l : list str) :
  List.filter f (List.filter g l) = List.filter g (List.filter f l).
Proof.
  induction l as [|x l IH]; simpl; [reflexivity|].
  destruct (g x) eqn:Hg, (f x) eqn:Hf; simpl; rewrite ?Hg, ?Hf, IH; reflexivity.
Qed.

Lemma filter_idem (f : str -> bool) (l : list str) :
  List.filter f (List.filter f l) = List.filter f l.
Proof.
  induction l as [|x l IH]; simpl; [reflexivity|].
  destruct (f x) eqn:Hf; simpl; rewrite ?Hf, IH; reflexivity.
Qed.

Lemma first_occurrences_filter (x : str) (l : list str) :
  List.filter (differs x) (first_occurrences l)
  = first_occurrences (List.filter (differs x) l).
Proof.
  induction l as [|y l IH]; simpl; [reflexivity|].
  destruct (differs x y) eqn:Hxy; simpl.
  - rewrite filter_filter_comm, IH. reflexivity.
  - assert (x = y) as <-.
    { destruct (decide (x = y)) as [|Hne]; [assumption|].
      apply differs_true in Hne. congruence. }
    rewrite filter_idem. exact IH.
Qed.

Lemma first_occurrences_In (x : str) (l : list str) :
  In x (first_occurrences l) <-> In x l.
Proof.
  induction l as [|y l IH]; simpl; [reflexivity|].
  rewrite filter_In, IH, differs_true.
  destruct (decide (y = x)); intuition congruence.
Qed.

Lemma first_occurrences_NoDup (l : list str) : List.NoDup (first_occurrences l).
Proof.
  induction l as [|x l IH]; simpl; constructor.
  - rewrite filter_In, differs_true. intros [_ H]. now apply H.
  - now apply List.NoDup_filter.
Qed.

Lemma filter_all (f : str -> bool) (l : list str) :
  Forall (fun x => f x = true) l -> List.filter f l = l.
Proof.
  induction 1 as [|x l Hx _ IH]; simpl; [reflexivity|]. now rewrite Hx, IH.
Qed.

Lemma first_occurrences_id (l : list str) :
  List.NoDup l -> first_occurrences l = l.
Proof.
  induction 1 as [|x l Hx _ IH]; simpl; [reflexivity|].
  rewrite IH, filter_all; [reflexivity|].
  apply List.Forall_forall. intros y Hy. apply differs_true. congruence.
Qed.

Lemma filter_unseen_union (seen : gset str) (kw : str) (rest : list str) :
  List.filter (fun k => negb (bool_decide (k ∈ seen ∪ {[kw]}))) rest
  = List.filter (differs kw)
      (List.filter (fun k => negb (bool_decide (k ∈ seen))) rest).
Proof.
  induction rest as [|y rest IH]; [reflexivity|]. cbn [List.filter].
  rewrite (bool_decide_ext (y ∈ seen ∪ {[kw]}) (y ∈ seen ∨ kw = y))
    by (rewrite elem_of_union, elem_of_singleton; intuition congruence).
  rewrite bool_decide_or, negb_orb.
  destruct (bool_decide (y ∈ seen)); cbn [negb andb List.filter]; [exact IH|].
  unfold differs at 1, str_eqb.
  destruct (bool_decide (kw = y)); cbn [negb]; now rewrite IH.
Qed.

(** The loop with its [seen] set computes the first occurrences. *)
Lemma dedup_loop_spec (seen : gset str) (unique : list str) (keywords : list str) :
  dedup_loop seen unique keywords
  = unique
    ++ first_occurrences
         (List.filter (fun kw => negb (bool_decide (kw ∈ seen))) keywords).
Proof.
  revert seen unique. induction keywords as [|kw rest IH]; intros seen unique; simpl.
  - now rewrite app_nil_r.
  - case_bool_decide as Hin; simpl; [apply IH|].
    rewrite IH, <- app_assoc. simpl. do 2 f_equal.
    now rewrite first_occurrences_filter, filter_unseen_union.
Qed.

Lemma dedup_loop_first_occurrences (keywords : list str) :
  dedup_loop ∅ [] keywords = first_occurrences keywords.
Proof.
  rewrite dedup_loop_spec. simpl. f_equal.
  apply filter_all, List.Forall_forall. intros x _.
  rewrite bool_decide_eq_false_2; [reflexivity|apply not_elem_of_empty].
Qed.

End Deduplication.

Section Tokens.

Lemma take_class_all (cls : ascii -> bool) (s : str) :
  Forall (fun c => cls c = true) (take_class cls s).
Proof.
  induction s as [|c s IH]; simpl; [constructor|].
  destruct (cls c) eqn:Hc; constructor; assumption.
Qed.

Lemma take_class_prefix (cls : ascii -> bool) (s : str) :
  take (length (take_class cls s)) s = take_class cls s.
Proof.
  induction s as [|c s IH]; simpl; [reflexivity|].
  destruct (cls c); simpl; [now rewrite IH|reflexivity].
Qed.

Lemma take_class_map (cls : ascii -> bool) (f : ascii -> ascii) (s : str) :
  (∀ c, cls (f c) = cls c) ->
  take_class cls (map f s) = map f (take_class cls s).
Proof.
  intros Hf. induction s as [|c s IH]; simpl; [reflexivity|].
  rewrite Hf. destruct (cls c); simpl; [now rewrite IH|reflexivity].
Qed.

(** The class stops at the end of the text or at a character outside it. *)
Lemma take_class_app (cls : ascii -> bool) (t rest : str) :
  Forall (fun c => cls c = true) t ->
  match rest with [] => True | d :: _ => cls d = false end ->
  take_class cls (t ++ rest) = t.
Proof.
  intros Ht Hrest. induction Ht as [|c t Hc _ IH]; simpl.
  - destruct rest as [|d rest]; [reflexivity|]. simpl. now rewrite Hrest.
  - now rewrite Hc, IH.
Qed.

Lemma last_map (f : ascii -> ascii) (l : str) (d : ascii) :
  List.last (map f l) (f d) = f (List.last l d).
Proof.
  induction l as [|a l IH]; [reflexivity|].
  destruct l as [|b l]; [reflexivity|]. exact IH.
Qed.

Lemma last_all (P : ascii -> Prop) (l : str) (d : ascii) :
  P d -> Forall P l -> P (List.last l d).
Proof.
  intros Hd Hl. induction Hl as [|a l Ha Hl IH]; [exact Hd|].
  destruct l as [|b l]; [exact Ha|]. exact IH.
Qed.

Lemma close_ident_take (c : ascii) (rest : str) (n : nat) (m : str) :
  close_ident c rest n = Some m -> ∃ k, (k <= n)%nat ∧ m = c :: take k rest.
Proof.
  induction n as [|n IH]; simpl.
  - destruct (boundary _ _); [|discriminate]. intros [= <-]. exists 0%nat. now split.
  - destruct (boundary _ _).
    + intros [= <-]. exists (S n). now split.
    + intros H. destruct (IH H) as (k & Hk & ->). exists k. split; [lia|reflexivity].
Qed.

Lemma match_ident_identifier (prev_word : bool) (s m : str) :
  match_ident prev_word s = Some m -> is_identifier m = true.
Proof.
  unfold match_ident. destruct s as [|c rest]; [discriminate|].
  destruct (boundary prev_word (c :: rest)); [|discriminate]. simpl.
  destruct (is_ident_start c) eqn:Hc; [|discriminate].
  intros H. apply close_ident_take in H as (k & Hk & ->).
  simpl. rewrite Hc. simpl. apply forallb_forall.
  apply List.Forall_forall.
  replace (take k rest) with (take k (take_class is_ident_char rest)).
  - apply Forall_take, take_class_all.
  - rewrite <- take_class_prefix, take_take. f_equal. lia.
Qed.

Lemma findall_from_identifier (skip : nat) (prev_word : bool) (s : str) :
  Forall (fun m => is_identifier m = true) (findall_from skip prev_word s).
Proof.
  revert skip prev_word.
  induction s as [|c rest IH]; intros skip prev_word; cbn [findall_from].
  - constructor.
  - destruct skip as [|k]; [|apply IH].
    destruct (match_ident prev_word (c :: rest)) as [m|] eqn:Hm; [|apply IH].
    constructor; [|apply IH]. exact (match_ident_identifier _ _ _ Hm).
Qed.

(** Lower-casing commutes with the scan: the tokens of the lower-cased
    text are the lower-cased tokens of the text. *)
Lemma word_at_lower (s : str) : word_at (lower s) = word_at s.
Proof. destruct s; simpl; [reflexivity|apply is_word_lower_char]. Qed.

Lemma close_ident_eq (c : ascii) (rest : str) (n : nat) :
  close_ident c rest n
  = if boundary (is_word (List.last (c :: take n rest) c)) (drop n rest)
    then Some (c :: take n rest)
    else match n with
         | O => None
         | S k => close_ident c rest k
         end.
Proof. destruct n; reflexivity. Qed.

Lemma close_ident_lower (c : ascii) (rest : str) (n : nat) :
  close_ident (lower_char c) (lower rest) n = option_map lower (close_ident c rest n).
Proof.
  assert (Hb : ∀ k,
    boundary (is_word (List.last (lower_char c :: take k (lower rest)) (lower_char c)))
      (drop k (lower rest))
    = boundary (is_word (List.last (c :: take k rest) c)) (drop k rest)).
  { intros k. unfold boundary, lower.
    rewrite firstn_map, skipn_map.
    change (lower_char c :: map lower_char (take k rest))
      with (map lower_char (c :: take k rest)).
    rewrite last_map, is_word_lower_char.
    f_equal. apply word_at_lower. }
  induction n as [|n IH].
  - rewrite !close_ident_eq, Hb.
    destruct (boundary _ _); reflexivity.
  - rewrite (close_ident_eq _ _ (S n)), (close_ident_eq c rest (S n)), Hb.
    destruct (boundary _ _); [|exact IH].
    cbn [option_map]. unfold lower. now rewrite firstn_map.
Qed.

Lemma match_ident_lower (prev_word : bool) (s : str) :
  match_ident prev_word (lower s) = option_map lower (match_ident prev_word s).
Proof.
  destruct s as [|c rest]; [reflexivity|].
  change (lower (c :: rest)) with (lower_char c :: lower rest).
  unfold match_ident.
  replace (boundary prev_word (lower_char c :: lower rest))
    with (boundary prev_word (c :: rest))
    by (unfold boundary; simpl; now rewrite is_word_lower_char).
  rewrite is_ident_start_lower_char.
  destruct (boundary prev_word (c :: rest) && is_ident_start c); [|reflexivity].
  replace (length (take_class is_ident_char (lower rest)))
    with (length (take_class is_ident_char rest)).
  - apply close_ident_lower.
  - unfold lower.
    now rewrite (take_class_map _ _ _ is_ident_char_lower_char), length_map.
Qed.

Lemma findall_from_lower (skip : nat) (prev_word : bool) (s : str) :
  findall_from skip prev_word (lower s) = map lower (findall_from skip prev_word s).
Proof.
  revert skip prev_word. induction s as [|c rest IH]; intros skip prev_word.
  - reflexivity.
  - change (lower (c :: rest)) with (lower_char c :: lower rest).
    cbn [findall_from]. rewrite is_word_lower_char.
    destruct skip as [|k]; [|apply IH].
    change (lower_char c :: lower rest) with (lower (c :: rest)).
    rewrite match_ident_lower.
    destruct (match_ident prev_word (c :: rest)) as [m|]; cbn [option_map map].
    + unfold lower at 2. rewrite length_map. now rewrite IH.
    + apply IH.
Qed.

Lemma findall_ident_lower (s : str) :
  findall_ident (lower s) = map lower (findall_ident s).
Proof. apply findall_from_lower. Qed.

End Tokens.

Section Keywords.

Lemma is_identifier_lower (w : str) : is_identifier (lower w) = is_identifier w.
Proof.
  destruct w as [|c t]; [reflexivity|]. simpl.
  rewrite is_ident_start_lower_char. f_equal.
  induction t as [|d t IH]; simpl; [reflexivity|].
  now rewrite is_ident_char_lower_char, IH.
Qed.


Lemma extract_keywords_spec (query : str) :
  extract_keywords query
  = first_occurrences (List.filter is_keyword (map lower (findall_ident query))).
Proof.
  unfold extract_keywords.
  now rewrite dedup_loop_first_occurrences, findall_ident_lower.
Qed.

(** What every extracted keyword satisfies. *)
Lemma extract_keywords_each (query : str) :
  Forall (fun w => is_identifier w = true ∧ lower w = w ∧ is_keyword w = true)
    (extract_keywords query).
Proof.
  rewrite extract_keywords_spec. apply List.Forall_forall. intros w Hw.
  apply first_occurrences_In, filter_In in Hw as [Hw Hk].
  apply in_map_iff in Hw as (t & <- & Ht).
  pose proof (findall_from_identifier 0 false query) as Hid.
  rewrite List.Forall_forall in Hid. specialize (Hid t Ht).
  split; [now rewrite is_identifier_lower|].
  split; [apply lower_idem|exact Hk].
Qed.

Lemma extract_keywords_NoDup (query : str) : List.NoDup (extract_keywords query).
Proof. rewrite extract_keywords_spec. apply first_occurrences_NoDup. Qed.



End Keywords.

(** ** The wider alphabet and the Latin-1 range *)

Section WiderAlphabet.

Lemma widen_inj (a b : str) : widen a = widen b -> a = b.
Proof.
  revert b. induction a as [|x a IH]; intros [|y b]; try discriminate; [reflexivity|].
  intros [= -> H]. f_equal. now apply IH.
Qed.

Lemma wide_lower (s : str) : Wide.lower (widen s) = widen (lower s).
Proof. induction s as [|c s IH]; [reflexivity|]. simpl. now rewrite IH. Qed.

Lemma wide_take_class (s : str) :
  Wide.take_class Wide.is_ident_char (widen s) = widen (take_class is_ident_char s).
Proof.
  induction s as [|c s IH]; [reflexivity|]. cbn [widen map Wide.take_class take_class].
  cbn [Wide.is_ident_char]. destruct (is_ident_char c); [|reflexivity].
  cbn [map]. f_equal. exact IH.
Qed.

Lemma wide_word_at (s : str) : Wide.word_at (widen s) = word_at s.
Proof. now destruct s. Qed.

Lemma wide_last (l : str) (d : ascii) :
  List.last (widen l) (Wide.Latin d) = Wide.Latin (List.last l d).
Proof.
  induction l as [|a l IH]; [reflexivity|].
  destruct l as [|b l]; [reflexivity|]. exact IH.
Qed.

Lemma widen_length (s : str) : length (widen s) = length s.
Proof. apply length_map. Qed.

Lemma widen_take (n : nat) (s : str) : take n (widen s) = widen (take n s).
Proof. apply firstn_map. Qed.

Lemma widen_drop (n : nat) (s : str) : drop n (widen s) = widen (drop n s).
Proof. apply skipn_map. Qed.

Lemma wide_close_ident (c : ascii) (rest : str) (n : nat) :
  Wide.close_ident (Wide.Latin c) (widen rest) n
  = option_map widen (close_ident c rest n).
Proof.
  induction n as [|k IH]; cbn [Wide.close_ident close_ident];
    unfold Wide.boundary, boundary; rewrite widen_take, widen_drop;
    change (Wide.Latin c :: widen (take ?n rest)) with (widen (c :: take n rest));
    rewrite wide_last, wide_word_at; cbn [Wide.is_word];
    destruct (xorb _ _); first [reflexivity | exact IH].
Qed.

Lemma wide_match_ident (prev_word : bool) (s : str) :
  Wide.match_ident prev_word (widen s) = option_map widen (match_ident prev_word s).
Proof.
  destruct s as [|c rest]; [reflexivity|].
  cbn [widen map Wide.match_ident match_ident].
  unfold Wide.boundary, boundary. cbn [Wide.word_at word_at Wide.is_word Wide.is_ident_start].
  destruct (xorb prev_word (is_word c) && is_ident_start c); [|reflexivity].
  fold (widen rest). rewrite wide_take_class, widen_length. apply wide_close_ident.
Qed.

Lemma wide_findall_from (skip : nat) (prev_word : bool) (s : str) :
  Wide.findall_from skip prev_word (widen s)
  = map widen (findall_from skip prev_word s).
Proof.
  revert skip prev_word. induction s as [|c rest IH]; intros skip prev_word;
    [reflexivity|].
  cbn [widen map Wide.findall_from findall_from]. fold (widen rest).
  destruct skip as [|k]; [|apply IH].
  change (Wide.Latin c :: widen rest) with (widen (c :: rest)).
  rewrite wide_match_ident. cbn [Wide.is_word].
  destruct (match_ident prev_word (c :: rest)) as [m|]; cbn [option_map map].
  - rewrite widen_length. f_equal. apply IH.
  - apply IH.
Qed.

Lemma wide_stop_word (w : str) : widen w ∈ Wide.STOP_WORDS <-> w ∈ STOP_WORDS.
Proof.
  unfold Wide.STOP_WORDS, STOP_WORDS. rewrite !elem_of_list_to_set.
  unfold Wide.upy. change (map (fun s => map Wide.Latin (py s)) stop_word_list)
    with (map (fun s => widen (py s)) stop_word_list).
  rewrite !list_elem_of_In, !in_map_iff. split.
  - intros (x & Hx & Hin). exists x. split; [|exact Hin]. now apply widen_inj.
  - intros (x & Hx & Hin). exists x. split; [|exact Hin]. now rewrite Hx.
Qed.

Lemma wide_is_keyword (w : str) : Wide.is_keyword (widen w) = is_keyword w.
Proof.
  unfold Wide.is_keyword, is_keyword. rewrite widen_length.
  f_equal. f_equal. apply bool_decide_ext, wide_stop_word.
Qed.

Lemma wide_filter (l : list str) :
  List.filter Wide.is_keyword (map widen l) = map widen (List.filter is_keyword l).
Proof.
  induction l as [|w l IH]; [reflexivity|]. cbn [map List.filter].
  rewrite wide_is_keyword. destruct (is_keyword w); cbn [map]; now rewrite IH.
Qed.

Lemma wide_dedup_loop (seen : gset str) (unique keywords : list str) :
  Wide.dedup_loop (set_map widen seen) (map widen unique) (map widen keywords)
  = map widen (dedup_loop seen unique keywords).
Proof.
  revert seen unique. induction keywords as [|kw rest IH]; intros seen unique;
    [reflexivity|].
  cbn [map Wide.dedup_loop dedup_loop].
  rewrite (bool_decide_ext (widen kw ∈ (set_map widen seen : gset Wide.ustr)) (kw ∈ seen)).
  2:{ rewrite elem_of_map. split.
      - intros (x & Hx & Hin). apply widen_inj in Hx. now subst x.
      - intros Hin. now exists kw. }
  destruct (bool_decide (kw ∈ seen)); [apply IH|].
  rewrite <- IH, map_app, set_map_union_L, set_map_singleton_L. reflexivity.
Qed.

(** On the strings of code points below 256 the two embeddings of
    [extract_keywords] agree. *)
Lemma wide_extract_keywords (query : str) :
  Wide.extract_keywords (widen query) = map widen (extract_keywords query).
Proof.
  unfold Wide.extract_keywords, extract_keywords, Wide.findall_ident, findall_ident.
  rewrite wide_lower, wide_findall_from, wide_filter.
  rewrite <- wide_dedup_loop. now rewrite set_map_empty.
Qed.

End WiderAlphabet.


(** ** Idempotence of the extraction *)

Section Idempotence.

Lemma lower_join (sep : str) (parts : list str) :
  lower (join sep parts) = join (lower sep) (map lower parts).
Proof.
  induction parts as [|p ps IH]; [reflexivity|].
  destruct ps as [|q ps]; [reflexivity|].
  change (join sep (p :: q :: ps)) with (p ++ sep ++ join sep (q :: ps)).
  change (join (lower sep) (map lower (p :: q :: ps)))
    with (lower p ++ lower sep ++ join (lower sep) (map lower (q :: ps))).
  rewrite <- IH. unfold lower. now rewrite !map_app.
Qed.

Lemma map_lower_fixed (l : list str) :
  Forall (fun w => lower w = w) l -> map lower l = l.
Proof. induction 1 as [|w l Hw _ IH]; simpl; [reflexivity|]. now rewrite Hw, IH. Qed.

(** Skipping the characters of a match. *)
Lemma findall_from_skip (t : str) (prev_word : bool) (rest : str) :
  findall_from (length t) prev_word (t ++ rest)
  = findall_from 0 (fold_left (fun _ c => is_word c) t prev_word) rest.
Proof.
  revert prev_word. induction t as [|c t IH]; intros prev_word; [reflexivity|].
  simpl. apply IH.
Qed.

Lemma fold_word (t : str) (prev_word : bool) :
  prev_word = true ->
  Forall (fun c => is_word c = true) t ->
  fold_left (fun _ c => is_word c) t prev_word = true.
Proof.
  intros Hp Ht. revert prev_word Hp.
  induction Ht as [|c t Hc _ IH]; intros prev_word Hp; simpl; [exact Hp|].
  now apply IH.
Qed.

(** An identifier followed by the end of the text or by a character that
    is not a word character is the next token. *)
Lemma findall_identifier_first (w rest : str) :
  is_identifier w = true ->
  match rest with [] => True | d :: _ => is_word d = false end ->
  findall_from 0 false (w ++ rest)
  = w :: findall_from 0 false (match rest with [] => [] | _ :: r => r end).
Proof.
  intros Hw Hrest. destruct w as [|c t]; [discriminate|].
  simpl in Hw. apply andb_true_iff in Hw as [Hc Ht].
  rewrite forallb_forall, <- List.Forall_forall in Ht.
  assert (Hcw : is_word c = true) by now apply is_ident_char_word, is_ident_start_char.
  assert (Htw : Forall (fun d => is_word d = true) t).
  { eapply List.Forall_impl; [|exact Ht]. intros d. apply is_ident_char_word. }
  assert (Hm : match_ident false ((c :: t) ++ rest) = Some (c :: t)).
  { unfold match_ident. simpl app.
    unfold boundary at 1. simpl word_at. rewrite Hcw, Hc. simpl.
    rewrite take_class_app; [|exact Ht|].
    - rewrite close_ident_eq, take_app_length, drop_app_length.
      replace (is_word (List.last (c :: t) c)) with true.
      + unfold boundary. destruct rest as [|d r]; simpl; [reflexivity|].
        now rewrite Hrest.
      + symmetry. apply (last_all (fun d => is_word d = true)); [exact Hcw|].
        constructor; assumption.
    - destruct rest as [|d r]; [exact I|].
      destruct (is_ident_char d) eqn:Hd; [|reflexivity].
      apply is_ident_char_word in Hd. congruence. }
  change ((c :: t) ++ rest) with (c :: (t ++ rest)) in *.
  cbn [findall_from]. rewrite Hm. f_equal.
  cbn [length Nat.pred]. rewrite findall_from_skip, fold_word by assumption.
  destruct rest as [|d r]; [reflexivity|].
  cbn [findall_from]. unfold match_ident.
  replace (is_ident_start d) with false.
  - rewrite andb_false_r, Hrest. reflexivity.
  - destruct (is_ident_start d) eqn:Hd; [|reflexivity].
    apply is_ident_start_char, is_ident_char_word in Hd. congruence.
Qed.

(** The tokens of identifiers joined by single spaces are these
    identifiers. *)
Lemma findall_ident_join (keywords : list str) :
  Forall (fun w => is_identifier w = true) keywords ->
  findall_ident (join [space] keywords) = keywords.
Proof.
  unfold findall_ident.
  induction 1 as [|w ws Hw Hws IH]; [reflexivity|].
  destruct ws as [|w' ws].
  - simpl join. rewrite <- (app_nil_r w) at 1.
    now rewrite findall_identifier_first.
  - change (join [space] (w :: w' :: ws)) with (w ++ space :: join [space] (w' :: ws)).
    rewrite findall_identifier_first; [|exact Hw|reflexivity].
    now rewrite IH.
Qed.

(** C9: extracting the keywords of the keywords of a query, joined by
    single spaces, gives the keywords of the query again. *)
Theorem extract_keywords_idempotent (query : str) :
  extract_keywords (join (py " ") (extract_keywords query)) = extract_keywords query.
Proof.
  pose proof (extract_keywords_each query) as Heach.
  pose proof (extract_keywords_NoDup query) as Hnodup.
  set (keywords := extract_keywords query) in *.
  unfold extract_keywords.
  rewrite dedup_loop_first_occurrences, lower_join.
  change (lower (py " ")) with [space].
  rewrite map_lower_fixed, findall_ident_join, filter_all, first_occurrences_id.
  - reflexivity.
  - exact Hnodup.
  - eapply List.Forall_impl; [|exact Heach]. intros w (? & ? & ?); assumption.
  - eapply List.Forall_impl; [|exact Heach]. intros w (? & ? & ?); assumption.
  - eapply List.Forall_impl; [|exact Heach]. intros w (? & ? & ?); assumption.
Qed.

End Idempotence.

(** ** Ranking ([ranker.py]) *)

Section Occurrences.

Lemma count_from_contains (skip : nat) (sub s : str) :
  (0 < count_from skip sub s)%nat -> contains sub s = true.
Proof.
  revert skip. induction s as [|c s IH]; intros skip.
  - destruct skip; simpl; [|lia]. destruct sub; simpl; [reflexivity|lia].
  - cbn [count_from]. destruct skip as [|k].
    + destruct (starts_with sub (c :: s)) eqn:Hs.
      * intros _. cbn [contains]. now rewrite Hs.
      * intros H. cbn [contains]. rewrite (IH _ H). apply orb_true_r.
    + intros H. cbn [contains]. rewrite (IH _ H). apply orb_true_r.
Qed.

Lemma contains_count (sub s : str) :
  contains sub s = true -> (0 < count sub s)%nat.
Proof.
  unfold count. induction s as [|c s IH].
  - simpl. rewrite orb_false_r. intros ->. lia.
  - cbn [contains count_from].
    destruct (starts_with sub (c :: s)); [lia|]. exact IH.
Qed.

(** A keyword is counted in a text exactly when the text contains it. *)
Lemma count_positive (sub s : str) :
  (0 < count sub s)%nat <-> contains sub s = true.
Proof. split; [apply count_from_contains|apply contains_count]. Qed.

Lemma count_zero (sub s : str) : contains sub s = false -> count sub s = 0%nat.
Proof.
  intros H. destruct (count sub s) eqn:Hc; [reflexivity|].
  assert (0 < count sub s)%nat as Hpos by lia.
  apply count_positive in Hpos. congruence.
Qed.

End Occurrences.

Section DocumentFrequency.

Lemma lookup_counter_incr (kw k : str) (counter : gmap str nat) :
  default 0%nat (counter_incr k counter !! kw)
  = (default 0%nat (counter !! kw) + (if bool_decide (k = kw) then 1 else 0))%nat.
Proof.
  unfold counter_incr. case_bool_decide as Hk.
  - subst k. rewrite lookup_insert_eq. simpl. lia.
  - rewrite lookup_insert_ne by exact Hk. lia.
Qed.

Lemma lookup_count_chunk (keywords : list str) (kw : str) (counter : gmap str nat)
    (c : Chunk) :
  default 0%nat (count_chunk keywords counter c !! kw)
  = (default 0%nat (counter !! kw)
     + (if mentions kw c then occurrences kw keywords else 0))%nat.
Proof.
  unfold count_chunk, occurrences.
  revert counter. induction keywords as [|k ks IH]; intros counter; simpl.
  - destruct (mentions kw c); lia.
  - rewrite IH. clear IH.
    destruct (contains (lower k) (lower (combined_text c))) eqn:Hk.
    + rewrite lookup_counter_incr. case_bool_decide as Heq; simpl.
      * subst k. unfold mentions. rewrite Hk. lia.
      * destruct (mentions kw c); lia.
    + case_bool_decide as Heq; simpl; [|reflexivity].
      subst k. unfold mentions. now rewrite Hk.
Qed.

Lemma lookup_document_frequencies (chunks : list Chunk) (keywords : list str)
    (kw : str) (counter : gmap str nat) :
  default 0%nat (fold_left (count_chunk keywords) chunks counter !! kw)
  = (default 0%nat (counter !! kw)
     + occurrences kw keywords * length (List.filter (mentions kw) chunks))%nat.
Proof.
  revert counter. induction chunks as [|c cs IH]; intros counter; simpl; [lia|].
  rewrite IH, lookup_count_chunk. destruct (mentions kw c); simpl; lia.
Qed.

(** For a keyword that is listed once, the document frequency is the
    number of chunks that mention it. *)
Lemma df_counts (chunks : list Chunk) (keywords : list str) (kw : str) :
  occurrences kw keywords = 1%nat ->
  df chunks keywords kw = length (List.filter (mentions kw) chunks).
Proof.
  intros Hocc. unfold df, document_frequencies.
  rewrite lookup_document_frequencies, Hocc, lookup_empty. simpl. lia.
Qed.

Lemma filter_length_lt (f : Chunk -> bool) (l : list Chunk) (x : Chunk) :
  In x l -> f x = false -> (length (List.filter f l) < length l)%nat.
Proof.
  induction l as [|y l IH]; [intros []|].
  pose proof (List.filter_length_le f l) as Hle.
  intros [->|Hin] Hx; simpl.
  - rewrite Hx. lia.
  - specialize (IH Hin Hx). destruct (f y); simpl; lia.
Qed.

(** A keyword that some chunk does not mention has a document frequency
    below the number of chunks. *)
Lemma df_below_total (chunks : list Chunk) (keywords : list str) (kw : str)
    (c : Chunk) :
  occurrences kw keywords = 1%nat ->
  In c chunks -> mentions kw c = false ->
  (1 + df chunks keywords kw <= length chunks)%nat.
Proof.
  intros Hocc Hin Hc. rewrite (df_counts _ _ _ Hocc).
  pose proof (filter_length_lt (mentions kw) chunks c Hin Hc). lia.
Qed.

End DocumentFrequency.

Section Scores.

Local Open Scope R_scope.

Lemma ln_two_lower_bound : 1 / 2 < ln 2.
Proof.
  rewrite <- (ln_exp (1 / 2)). apply ln_increasing; [apply exp_pos|].
  assert (H : exp (1 / 2) * exp (1 / 2) <= 3).
  { rewrite <- exp_plus. replace (1 / 2 + 1 / 2) with 1 by lra. apply exp_le_3. }
  pose proof (exp_pos (1 / 2)). nra.
Qed.

Lemma sqrt_two_bounds : 1 < sqrt 2 < 3 / 2.
Proof.
  split.
  - rewrite <- sqrt_1 at 1. apply sqrt_lt_1_alt. lra.
  - rewrite <- (sqrt_square (3 / 2)) by lra. apply sqrt_lt_1_alt. lra.
Qed.

Lemma ln_nonneg (x : R) : 1 <= x -> 0 <= ln x.
Proof.
  intros [H|<-]; [|rewrite ln_1; lra].
  rewrite <- ln_1. left. apply ln_increasing; lra.
Qed.

Lemma ln_monotone (x y : R) : 0 < x -> x <= y -> ln x <= ln y.
Proof. intros Hx [H|<-]; [left; now apply ln_increasing|lra]. Qed.

Lemma idf_nonneg (chunks : list Chunk) (keywords : list str) (kw : str) :
  (1 + df chunks keywords kw <= length chunks)%nat ->
  0 <= idf chunks keywords kw.
Proof.
  intros H. unfold idf. apply ln_nonneg.
  apply le_INR in H. rewrite plus_INR in H. simpl in H.
  pose proof (pos_INR (df chunks keywords kw)) as Hp.
  apply (Rmult_le_reg_r (1 + INR (df chunks keywords kw))); [lra|].
  unfold Rdiv. rewrite Rmult_assoc, Rinv_l by lra. lra.
Qed.

Lemma keyword_frequency_two (text k1 k2 : str) :
  k1 ≠ k2 ->
  _keyword_frequency text [k1; k2]
  = [(k1, count (lower k1) (lower text)); (k2, count (lower k2) (lower text))].
Proof.
  intros Hne. unfold _keyword_frequency. simpl.
  now rewrite bool_decide_eq_false_2.
Qed.

(** The score of a chunk for two different keywords, by the keywords it
    mentions. *)
Lemma score_two_keywords (chunks : list Chunk) (k1 k2 : str) (c : Chunk) :
  k1 ≠ k2 ->
  score (score_chunk chunks [k1; k2] c)
  = match mentions k1 c, mentions k2 c with
    | true, true =>
        0 + term chunks [k1; k2] k1 c + term chunks [k1; k2] k2 c + sqrt 2
    | true, false => 0 + term chunks [k1; k2] k1 c + 1
    | false, true => 0 + term chunks [k1; k2] k2 c + 1
    | false, false => 0 + 0
    end.
Proof.
  intros Hne. unfold score_chunk, _calculate_score.
  rewrite (keyword_frequency_two _ _ _ Hne).
  fold (tf k1 c) (tf k2 c).
  assert (H1 : (0 <? tf k1 c)%nat = mentions k1 c).
  { unfold tf, mentions. destruct (contains _ _) eqn:Hc.
    - apply Nat.ltb_lt, count_positive, Hc.
    - now rewrite (count_zero _ _ Hc). }
  assert (H2 : (0 <? tf k2 c)%nat = mentions k2 c).
  { unfold tf, mentions. destruct (contains _ _) eqn:Hc.
    - apply Nat.ltb_lt, count_positive, Hc.
    - now rewrite (count_zero _ _ Hc). }
  cbn [score_terms]. rewrite H1, H2.
  destruct (mentions k1 c), (mentions k2 c); cbn [score_terms score app length];
    unfold term, idf, header_boost, df, in_header; try reflexivity;
    simpl INR; rewrite sqrt_1; reflexivity.
Qed.

Lemma term_nonneg (chunks : list Chunk) (keywords : list str) (kw : str) (c : Chunk) :
  0 <= idf chunks keywords kw -> 0 <= term chunks keywords kw c.
Proof.
  intros Hidf. unfold term, header_boost.
  assert (0 <= ln (1 + INR (tf kw c))).
  { apply ln_nonneg. pose proof (pos_INR (tf kw c)). lra. }
  destruct (in_header kw c); nra.
Qed.

Lemma term_monotone (chunks : list Chunk) (keywords : list str) (kw : str)
    (a b : Chunk) :
  0 <= idf chunks keywords kw ->
  (tf kw b <= tf kw a)%nat ->
  (in_header kw b = true -> in_header kw a = true) ->
  term chunks keywords kw b <= term chunks keywords kw a.
Proof.
  intros Hidf Htf Hh. unfold term, header_boost.
  assert (H0 : 0 <= ln (1 + INR (tf kw b))).
  { apply ln_nonneg. pose proof (pos_INR (tf kw b)). lra. }
  assert (Hl : ln (1 + INR (tf kw b)) <= ln (1 + INR (tf kw a))).
  { apply ln_monotone.
    - pose proof (pos_INR (tf kw b)). lra.
    - apply le_INR in Htf. lra. }
  destruct (in_header kw b) eqn:Hb.
  - rewrite (Hh eq_refl). nra.
  - destruct (in_header kw a); nra.
Qed.

End Scores.

Section RankOrder.

Local Open Scope R_scope.

Lemma insert_by_score_In (x y : RankedChunk) (l : list RankedChunk) :
  In y (insert_by_score x l) <-> y = x ∨ In y l.
Proof.
  induction l as [|z l IH]; simpl.
  - intuition.
  - destruct (Rle_dec (score z) (score x)); simpl; [intuition|].
    rewrite IH. intuition.
Qed.

Lemma insert_by_score_sorted (x : RankedChunk) (l : list RankedChunk) :
  StronglySorted by_score_desc l -> StronglySorted by_score_desc (insert_by_score x l).
Proof.
  induction 1 as [|z l Hs IH Hz]; simpl.
  - repeat constructor.
  - destruct (Rle_dec (score z) (score x)) as [Hle|Hgt].
    + constructor; [now constructor|].
      constructor; [exact Hle|].
      eapply List.Forall_impl; [|exact Hz]. unfold by_score_desc. intros w ?. lra.
    + constructor; [exact IH|].
      apply List.Forall_forall. intros w Hw.
      apply insert_by_score_In in Hw as [->|Hw].
      * unfold by_score_desc. lra.
      * rewrite List.Forall_forall in Hz. now apply Hz.
Qed.

Lemma sort_by_score_sorted (l : list RankedChunk) :
  StronglySorted by_score_desc (sort_by_score l).
Proof.
  induction l as [|x l IH]; simpl; [constructor|].
  now apply insert_by_score_sorted.
Qed.

Lemma sorted_take (n : nat) (l : list RankedChunk) :
  StronglySorted by_score_desc l -> StronglySorted by_score_desc (take n l).
Proof.
  intros Hs. revert n. induction Hs as [|x l Hs IH Hx]; intros [|n]; simpl;
    try constructor; [apply IH|now apply Forall_take].
Qed.

Lemma sorted_lookup (l : list RankedChunk) (i j : nat) (a b : RankedChunk) :
  StronglySorted by_score_desc l ->
  l !! i = Some a -> l !! j = Some b -> (i < j)%nat -> score b <= score a.
Proof.
  intros Hs. revert i j. induction Hs as [|x l Hs IH Hx]; intros i j Hi Hj Hlt.
  - discriminate.
  - destruct j as [|j]; [lia|]. destruct i as [|i]; simpl in *.
    + injection Hi as <-. rewrite List.Forall_forall in Hx.
      apply Hx. apply list_elem_of_In. eapply list_elem_of_lookup_2, Hj.
    + apply (IH i j); [assumption..|lia].
Qed.

Lemma rank_sorted (top_n : nat) (chunks : list Chunk) (keywords : list str) :
  StronglySorted by_score_desc (rank top_n chunks keywords).
Proof.
  unfold rank. destruct chunks; [constructor|]. destruct keywords; [constructor|].
  apply sorted_take, sort_by_score_sorted.
Qed.

(** In the ranked list a chunk with a strictly higher score stands
    before one with a lower score. *)
Lemma rank_position (top_n : nat) (chunks : list Chunk) (keywords : list str)
    (i j : nat) (a b : RankedChunk) :
  rank top_n chunks keywords !! i = Some a ->
  rank top_n chunks keywords !! j = Some b ->
  score b < score a ->
  (i < j)%nat.
Proof.
  intros Hi Hj Hlt.
  destruct (Nat.lt_trichotomy i j) as [H|[->|H]]; [exact H| |].
  - rewrite Hi in Hj. injection Hj as ->. lra.
  - pose proof (sorted_lookup _ _ _ _ _ (rank_sorted top_n chunks keywords) Hj Hi H).
    lra.
Qed.

Lemma occurrences_pair (k1 k2 : str) :
  k1 ≠ k2 -> occurrences k1 [k1; k2] = 1%nat ∧ occurrences k2 [k1; k2] = 1%nat.
Proof.
  intros Hne. unfold occurrences. cbn [List.filter].
  rewrite (bool_decide_eq_true_2 (k1 = k1)) by reflexivity.
  rewrite (bool_decide_eq_true_2 (k2 = k2)) by reflexivity.
  rewrite (bool_decide_eq_false_2 (k2 = k1)) by congruence.
  rewrite (bool_decide_eq_false_2 (k1 = k2)) by congruence.
  now split.
Qed.

(** C6 (amended): in one ranking call for two different keywords, take
    a chunk [a] whose combined text mentions both and a chunk [b] whose
    combined text mentions only one of them, the two keywords having the
    same document frequency.  If [b] does not count more occurrences of
    the shared keyword than [a], and has it in its header only if [a]
    has, then [a] gets a strictly higher score, and stands before [b]
    wherever both are in the ranked list.  Ranking an empty list of chunks
    or with an empty list of keywords gives the empty list. *)
Theorem rank_two_keywords (top_n : nat) (chunks : list Chunk)
    (shared other : str) (keywords : list str) (a b : Chunk) :
  shared ≠ other ->
  keywords = [shared; other] ∨ keywords = [other; shared] ->
  In a chunks -> In b chunks ->
  mentions shared a = true -> mentions other a = true ->
  mentions shared b = true -> mentions other b = false ->
  df chunks keywords shared = df chunks keywords other ->
  (tf shared b <= tf shared a)%nat ->
  (in_header shared b = true -> in_header shared a = true) ->
  score (score_chunk chunks keywords b) < score (score_chunk chunks keywords a)
  ∧ (∀ i j,
       rank top_n chunks keywords !! i = Some (score_chunk chunks keywords a) ->
       rank top_n chunks keywords !! j = Some (score_chunk chunks keywords b) ->
       (i < j)%nat)
  ∧ (∀ kws, rank top_n [] kws = [])
  ∧ (∀ cs, rank top_n cs [] = []).
Proof.
  intros Hne Hkw Ha Hb Hsa Hoa Hsb Hob Hdf Htf Hhead.
  assert (Hscore : score (score_chunk chunks keywords b)
                   < score (score_chunk chunks keywords a)).
  { assert (Hocc : occurrences other keywords = 1%nat).
    { destruct Hkw as [-> | ->].
      - now apply occurrences_pair.
      - apply occurrences_pair. congruence. }
    assert (Hio : 0 <= idf chunks keywords other).
    { apply idf_nonneg. exact (df_below_total _ _ _ b Hocc Hb Hob). }
    assert (His : 0 <= idf chunks keywords shared).
    { unfold idf in *. now rewrite Hdf. }
    pose proof (term_monotone chunks keywords shared a b His Htf Hhead) as Hmono.
    pose proof (term_nonneg chunks keywords other a Hio) as Hpos.
    pose proof sqrt_two_bounds as [Hsqrt _].
    destruct Hkw as [-> | ->].
    - rewrite !score_two_keywords by exact Hne.
      rewrite Hsa, Hoa, Hsb, Hob. lra.
    - rewrite !score_two_keywords by congruence.
      rewrite Hsa, Hoa, Hsb, Hob. lra. }
  split; [exact Hscore|]. split.
  - intros i j Hi Hj. exact (rank_position _ _ _ _ _ _ _ Hi Hj Hscore).
  - split; [reflexivity|]. intros cs. unfold rank. now destruct cs.
Qed.

End RankOrder.

(** *** The ranking of concrete chunk sets *)

(** C6, as the claim states it, fails: among six chunks, both keywords
    have document frequency two; one chunk mentions both keywords once,
    another mentions only the first, fifteen times; the second gets the
    strictly higher score. *)
Lemma more_keywords_as_claimed_fails :
  mentions (py "alpha") chunk_both = true
  ∧ mentions (py "beta") chunk_both = true
  ∧ mentions (py "alpha") chunk_repeating = true
  ∧ mentions (py "beta") chunk_repeating = false
  ∧ df six_chunks two_keywords (py "alpha") = df six_chunks two_keywords (py "beta")
  ∧ (score (score_chunk six_chunks two_keywords chunk_both)
     < score (score_chunk six_chunks two_keywords chunk_repeating))%R.
Proof.
  assert (H1 : mentions (py "alpha") chunk_both = true) by (vm_compute; reflexivity).
  assert (H2 : mentions (py "beta") chunk_both = true) by (vm_compute; reflexivity).
  assert (H3 : mentions (py "alpha") chunk_repeating = true) by (vm_compute; reflexivity).
  assert (H4 : mentions (py "beta") chunk_repeating = false) by (vm_compute; reflexivity).
  repeat (split; [first [assumption | vm_compute; reflexivity]|]).
  unfold two_keywords. rewrite !score_two_keywords by discriminate.
  rewrite H1, H2, H3, H4. unfold term, idf, header_boost.
  replace (in_header (py "alpha") chunk_both) with false by (vm_compute; reflexivity).
  replace (in_header (py "beta") chunk_both) with false by (vm_compute; reflexivity).
  replace (in_header (py "alpha") chunk_repeating) with false by (vm_compute; reflexivity).
  replace (tf (py "alpha") chunk_both) with 1%nat by (vm_compute; reflexivity).
  replace (tf (py "beta") chunk_both) with 1%nat by (vm_compute; reflexivity).
  replace (tf (py "alpha") chunk_repeating) with 15%nat by (vm_compute; reflexivity).
  replace (df six_chunks [py "alpha"; py "beta"] (py "alpha")) with 2%nat
    by (vm_compute; reflexivity).
  replace (df six_chunks [py "alpha"; py "beta"] (py "beta")) with 2%nat
    by (vm_compute; reflexivity).
  replace (INR (length six_chunks) / (1 + INR 2))%R with 2%R by (simpl; lra).
  replace (1 + INR 1)%R with 2%R by (simpl; lra).
  replace (1 + INR 15)%R with (2 * 2 * (2 * 2))%R by (simpl; lra).
  rewrite !ln_mult by lra.
  pose proof ln_two_lower_bound. pose proof sqrt_two_bounds. nra.
Qed.

Lemma rank_two_keywords_witness :
  (score (score_chunk three_chunks two_keywords chunk_single)
   < score (score_chunk three_chunks two_keywords chunk_both))%R.
Proof.
  apply (proj1 (rank_two_keywords 10 three_chunks (py "alpha") (py "beta")
                  two_keywords chunk_both chunk_single
                  ltac:(discriminate)
                  ltac:(left; reflexivity)
                  ltac:(simpl; auto)
                  ltac:(simpl; auto)
                  ltac:(vm_compute; reflexivity)
                  ltac:(vm_compute; reflexivity)
                  ltac:(vm_compute; reflexivity)
                  ltac:(vm_compute; reflexivity)
                  ltac:(vm_compute; reflexivity)
                  ltac:(vm_compute; lia)
                  ltac:(vm_compute; discriminate))).
Defined.

(** ** The result budget of the search *)

Section ResultBudget.

Local Open Scope Z_scope.

Variable host : Host.
Variable config : Config.

Lemma parse_lines_length (mk_path : str -> str) (keywords : list str)
    (lines : list str) (results results' : list SearchResult) :
  parse_lines mk_path keywords lines results = Some results' ->
  len results' <= len results + len lines.
Proof.
  unfold len. revert results.
  induction lines as [|line more IH]; intros results; cbn [parse_lines].
  - intros [= <-]. simpl. lia.
  - assert (Hskip : ∀ grown,
              (length grown <= S (length results))%nat ->
              parse_lines mk_path keywords more grown = Some results' ->
              Z.of_nat (length results')
              <= Z.of_nat (length results) + Z.of_nat (length (line :: more))).
    { intros grown Hgrown H. specialize (IH grown H). simpl length. lia. }
    destruct line as [|c line]; [apply Hskip; lia|].
    destruct (match_line (c :: line)) as [[[g1 g2] content]|]; [|apply Hskip; lia].
    destruct (int_of_digits g2) as [line_num|]; [|discriminate].
    apply Hskip. rewrite length_app. simpl. lia.
Qed.

Lemma grep_loop_bounded (keywords : list str) (max_results : Z)
    (search_paths : list str) (results results' : list SearchResult) :
  total_cap host (_build_grep_command host config) ->
  len results <= Z.max 0 max_results ->
  grep_loop host config keywords max_results search_paths results = Returned results' ->
  len results' <= Z.max 0 max_results.
Proof.
  intros Hcap. revert results.
  induction search_paths as [|p more IH]; intros results Hlen; cbn [grep_loop].
  - now intros [= <-].
  - destruct (negb (path_exists host p)); [now apply IH|].
    fold (len results).
    destruct (Z.leb_spec (max_results - len results) 0) as [Hrem|Hrem];
      [now intros [= <-]|].
    destruct (run host _) as [stdout| |] eqn:Hrun; [|now intros [= <-]|discriminate].
    destruct (parse_stdout _ _ _ _) as [parsed|] eqn:Hparse; [|discriminate].
    apply IH. unfold parse_stdout in Hparse.
    pose proof (parse_lines_length _ _ _ _ _ Hparse) as Hp.
    pose proof (Hcap _ _ _ _ Hrun) as Hn. lia.
Qed.

Lemma ripgrep_loop_bounded (keywords : list str) (max_results : Z)
    (search_paths : list str) (results results' : list SearchResult) :
  total_cap host (_build_ripgrep_command host config) ->
  total_cap host (_build_grep_command host config) ->
  len results <= Z.max 0 max_results ->
  ripgrep_loop host config keywords max_results search_paths results = Returned results' ->
  len results' <= Z.max 0 max_results.
Proof.
  intros Hrg Hgrep. revert results.
  induction search_paths as [|p more IH]; intros results Hlen; cbn [ripgrep_loop].
  - now intros [= <-].
  - destruct (negb (path_exists host p)); [now apply IH|].
    fold (len results).
    destruct (Z.leb_spec (max_results - len results) 0) as [Hrem|Hrem];
      [now intros [= <-]|].
    destruct (run host _) as [stdout| |] eqn:Hrun; [|now intros [= <-]|].
    + destruct (parse_stdout _ _ _ _) as [parsed|] eqn:Hparse; [|discriminate].
      apply IH. unfold parse_stdout in Hparse.
      pose proof (parse_lines_length _ _ _ _ _ Hparse) as Hp.
      pose proof (Hrg _ _ _ _ Hrun) as Hn. lia.
    + unfold _grep_search.
      destruct keywords; [intros [= <-]; unfold len; simpl; lia|].
      apply grep_loop_bounded; [exact Hgrep|]. unfold len. simpl. lia.
Qed.

(** With tools that honour a total cap, the search returns at most
    [max_results] results.  This is the bound that the per-invocation cap
    and the check before each root give; nothing in the search itself
    cuts the parsed lines down to the remaining budget. *)
Lemma ripgrep_search_bounded (keywords : list str) (max_results : option Z)
    (results : list SearchResult) :
  total_cap host (_build_ripgrep_command host config) ->
  total_cap host (_build_grep_command host config) ->
  ripgrep_search host config keywords max_results = Returned results ->
  len results <= Z.max 0 (default (Config.max_results (search config)) max_results).
Proof.
  intros Hrg Hgrep. unfold ripgrep_search.
  destruct keywords as [|kw kws]; [intros [= <-]; unfold len; simpl; lia|].
  destruct (negb (_use_ripgrep host config)).
  - unfold _grep_search.
    apply grep_loop_bounded; [exact Hgrep|]. unfold len. simpl. lia.
  - apply ripgrep_loop_bounded; [exact Hrg|exact Hgrep|]. unfold len. simpl. lia.
Qed.

End ResultBudget.

(* ================================================================== *)
(** * Further properties *)
(* ================================================================== *)

(** ** Path normalisation ([wsl_path_to_linux]) *)

Section PathNormalizer.

Lemma starts_with_app (p s : str) : starts_with p (p ++ s) = true.
Proof.
  induction p as [|c p IH]; simpl; [reflexivity|].
  now rewrite bool_decide_eq_true_2, IH.
Qed.

Lemma split_once_segment (sep : ascii) (segment rest : str) :
  ¬ In sep segment ->
  split_once sep (segment ++ sep :: rest) = (segment, Some rest).
Proof.
  induction segment as [|c segment IH]; simpl; intros Hs.
  - now rewrite bool_decide_eq_true_2.
  - rewrite bool_decide_eq_false_2 by (intros ->; apply Hs; now left).
    rewrite IH by (intros ?; apply Hs; now right). reflexivity.
Qed.

Lemma split_once_last (sep : ascii) (segment : str) :
  ¬ In sep segment -> split_once sep segment = (segment, None).
Proof.
  induction segment as [|c segment IH]; simpl; intros Hs; [reflexivity|].
  rewrite bool_decide_eq_false_2 by (intros ->; apply Hs; now left).
  rewrite IH by (intros ?; apply Hs; now right). reflexivity.
Qed.

Lemma replace_char_gone (a b : ascii) (s : str) :
  a ≠ b -> ¬ In a (replace_char a b s).
Proof.
  intros Hab Hin. unfold replace_char in Hin.
  apply in_map_iff in Hin as (c & Hc & _).
  case_bool_decide; congruence.
Qed.

(** X1: a path that has neither WSL prefix is returned unchanged.  A path
    with one of the two prefixes, a distribution name and further
    segments becomes the segments after the distribution name, rooted at
    [/] and with every backslash replaced by a slash; with the
    distribution name alone it becomes [/].  In both cases the result
    holds no backslash. *)
Theorem wsl_path_to_linux_spec (distro rest path_str : str) :
  ¬ In backslash distro ->
  (is_wsl_path path_str = false -> wsl_path_to_linux path_str = path_str)
  ∧ wsl_path_to_linux (py "\\wsl.localhost\" ++ distro ++ backslash :: rest)
    = py "/" ++ replace_char backslash "/"%char rest
  ∧ wsl_path_to_linux (py "\\wsl$\" ++ distro ++ backslash :: rest)
    = py "/" ++ replace_char backslash "/"%char rest
  ∧ wsl_path_to_linux (py "\\wsl.localhost\" ++ distro) = py "/"
  ∧ wsl_path_to_linux (py "\\wsl$\" ++ distro) = py "/"
  ∧ (is_wsl_path path_str = true -> ¬ In backslash (wsl_path_to_linux path_str)).
Proof.
  intros Hd.
  assert (Hother : ∀ s, starts_with (py "\\wsl.localhost\") (py "\\wsl$\" ++ s) = false)
    by (intros s; reflexivity).
  split; [|split; [|split; [|split; [|split]]]].
  - unfold is_wsl_path, wsl_path_to_linux. intros H.
    apply orb_false_iff in H as [-> ->]. reflexivity.
  - unfold wsl_path_to_linux. rewrite starts_with_app, drop_app_length.
    now rewrite split_once_segment.
  - unfold wsl_path_to_linux. rewrite Hother, starts_with_app, drop_app_length.
    now rewrite split_once_segment.
  - unfold wsl_path_to_linux. rewrite starts_with_app, drop_app_length.
    now rewrite split_once_last.
  - unfold wsl_path_to_linux. rewrite Hother, starts_with_app, drop_app_length.
    now rewrite split_once_last.
  - unfold is_wsl_path, wsl_path_to_linux. intros H.
    assert (Hconv : ∀ remainder,
      ¬ In backslash
          match snd (split_once backslash remainder) with
          | Some rest0 => py "/" ++ replace_char backslash "/"%char rest0
          | None => py "/"
          end).
    { intros remainder. destruct (snd (split_once backslash remainder)).
      - intros [Hin|Hin]; [discriminate Hin|].
        now apply replace_char_gone in Hin.
      - intros [Hin|[]]. discriminate Hin. }
    destruct (starts_with (py "\\wsl.localhost\") path_str); [apply Hconv|].
    cbn [orb] in H. rewrite H. apply Hconv.
Qed.

Lemma wsl_path_to_linux_spec_witness :
  wsl_path_to_linux (py "\\wsl.localhost\Ubuntu\home\user") = py "/home/user".
Proof.
  assert (Hd : ¬ In backslash (py "Ubuntu")).
  { intros Hin. repeat (destruct Hin as [Hin|Hin]; [discriminate Hin|]). exact Hin. }
  exact (proj1 (proj2 (wsl_path_to_linux_spec (py "Ubuntu") (py "home\user")
                         (py "plain") Hd))).
Defined.

End PathNormalizer.

(** ** The search roots ([get_search_paths], [has_knowledge_base]) *)

Section SearchRoots.

(** X2: the search paths are the root file and the documentation
    folder, in this order, each listed exactly when it exists; so there
    is a knowledge base exactly when the list of search paths is not
    empty, and every listed path exists. *)
Theorem get_search_paths_spec (exists_ : str -> bool) (c : Config) :
  get_search_paths exists_ c
  = List.filter exists_ [root_file_path c; docs_folder_path c]
  ∧ (has_knowledge_base exists_ c = true <-> get_search_paths exists_ c ≠ [])
  ∧ Forall (fun search_path => exists_ search_path = true) (get_search_paths exists_ c).
Proof.
  unfold get_search_paths, has_knowledge_base. simpl.
  destruct (exists_ (root_file_path c)) eqn:H1,
           (exists_ (docs_folder_path c)) eqn:H2; simpl;
    repeat split; try discriminate; try congruence;
    repeat constructor; assumption.
Qed.

End SearchRoots.

(** ** Query classification ([classify_query], both versions) *)

Section Classification.

Lemma starts_with_extend (p s t : str) :
  starts_with p s = true -> starts_with p (s ++ t) = true.
Proof.
  revert s. induction p as [|a p IH]; intros s; [reflexivity|].
  destruct s as [|b s]; simpl; [discriminate|].
  intros H. apply andb_true_iff in H as [-> H]. simpl. now apply IH.
Qed.

Lemma contains_extend_right (sub s t : str) :
  contains sub s = true -> contains sub (s ++ t) = true.
Proof.
  induction s as [|c s IH]; simpl.
  - rewrite orb_false_r. intros H. destruct sub; [|discriminate].
    destruct t; reflexivity.
  - intros H. apply orb_true_iff in H as [H|H].
    + apply (starts_with_extend _ (c :: s) t) in H. simpl in H. now rewrite H.
    + rewrite (IH H). apply orb_true_r.
Qed.

Lemma contains_extend_left (sub s t : str) :
  contains sub s = true -> contains sub (t ++ s) = true.
Proof.
  intros H. induction t as [|c t IH]; [exact H|].
  simpl. rewrite IH. apply orb_true_r.
Qed.

Lemma existsb_impl (f g : str -> bool) (l : list str) :
  (∀ x, f x = true -> g x = true) -> existsb f l = true -> existsb g l = true.
Proof.
  intros Hfg. rewrite !existsb_exists. intros (x & Hx & Hf). exists x. auto.
Qed.

Lemma classify_query_code (query : str) :
  classify_query query = py "code_example"
  <-> existsb (fun kw => contains kw (lower query)) Haiku.code_keywords = true.
Proof.
  unfold classify_query.
  destruct (existsb _ Haiku.code_keywords); [now split|].
  destruct (existsb _ Haiku.complex_keywords); split; discriminate.
Qed.

(** X3: the classification only reads the lower-cased query, so it does
    not depend on the case of the query.  Indicators of code examples take
    precedence: a query classified as a code example stays one when text
    is added before and after it, and every query followed by the word
    "example" is a code example, whatever else it holds. *)
Theorem classify_query_precedence (query before after : str) :
  classify_query (lower query) = classify_query query
  ∧ (classify_query query = py "code_example" ->
     classify_query (before ++ query ++ after) = py "code_example")
  ∧ classify_query (query ++ py " example") = py "code_example".
Proof.
  split; [|split].
  - unfold classify_query. now rewrite lower_idem.
  - rewrite !classify_query_code. apply existsb_impl. intros kw H.
    unfold lower. rewrite !map_app.
    now apply contains_extend_left, contains_extend_right.
  - apply classify_query_code. unfold lower. rewrite map_app.
    change (existsb (fun kw => contains kw (map lower_char query ++ py " example"))
              (py "example" :: tl Haiku.code_keywords) = true).
    cbn [existsb]. apply orb_true_iff. left.
    apply contains_extend_left. reflexivity.
Qed.

Lemma classify_query_precedence_witness :
  classify_query (py "Please " ++ py "show me the design" ++ py " of the parser")
  = py "code_example".
Proof.
  apply (proj1 (proj2 (classify_query_precedence (py "show me the design")
                         (py "Please ") (py " of the parser")))).
  reflexivity.
Defined.

(** X4: the classifier of the server and the classifier of the
    distillation step agree on every query that holds neither "write" nor
    "difference" (in any case); these two indicators are known to the
    distillation step only, which classifies "write a parser" as a code
    example and "difference of formats" as complex, where the server
    answers "simple". *)
Theorem classifiers_agree (query : str) :
  (contains (py "write") (lower query) = false ->
   contains (py "difference") (lower query) = false ->
   Server.classify_query query = classify_query query)
  ∧ Server.classify_query (py "write a parser") = py "simple"
  ∧ classify_query (py "write a parser") = py "code_example"
  ∧ Server.classify_query (py "difference of formats") = py "simple"
  ∧ classify_query (py "difference of formats") = py "complex".
Proof.
  split; [|repeat split; reflexivity].
  intros Hw Hd. unfold Server.classify_query, classify_query.
  change Haiku.code_keywords with (Server.code_keywords ++ [py "write"]).
  change Haiku.complex_keywords with (Server.complex_keywords ++ [py "difference"]).
  rewrite !existsb_app. cbn [existsb]. rewrite Hw, Hd, !orb_false_r. reflexivity.
Qed.

Lemma classifiers_agree_witness :
  Server.classify_query (py "Explain the cache") = classify_query (py "Explain the cache").
Proof.
  apply (proj1 (classifiers_agree (py "Explain the cache"))); reflexivity.
Defined.

End Classification.
(** ** More on the distillation step ([distill], [_fallback_response]) *)

Section DistillationFurther.

Local Open Scope Q_scope.

Variable config : Config.
Variable backend : Backend.
Variable md5_hexdigest : str -> str.

Local Abbreviation distill := (distill config backend md5_hexdigest).
Local Abbreviation key_of := (_get_cache_key md5_hexdigest).
Local Abbreviation request_for := (request_for config).

Lemma join_nonempty (sep first : str) (parts : list str) :
  first ≠ [] -> join sep (first :: parts) ≠ [].
Proof.
  intros Hne. destruct first as [|c first]; [congruence|].
  destruct parts; discriminate.
Qed.

Lemma fallback_response_nonempty (ranked_chunks : list RankedChunk)
    (query_type : str) (token_budget : Z) :
  content (_fallback_response ranked_chunks query_type token_budget) ≠ [].
Proof. apply join_nonempty. discriminate. Qed.

(** The cache that a lookup leaves differs from the one it found at most
    by the entry under the key. *)
Lemma check_cache_frame (now : Q) (key other : str) (cache : Cache) :
  other ≠ key ->
  snd (_check_cache now key cache) !! other = cache !! other.
Proof.
  intros Hne. unfold _check_cache.
  destruct (cache !! key) as [[text stored_at]|]; [|reflexivity].
  destruct (Qlt_le_dec _ _); [reflexivity|].
  cbn [snd]. now apply lookup_delete_ne.
Qed.

Lemma check_cache_shrinks (now : Q) (key : str) (cache : Cache) :
  snd (_check_cache now key cache) ⊆ cache.
Proof.
  unfold _check_cache.
  destruct (cache !! key) as [[text stored_at]|]; [|reflexivity].
  destruct (Qlt_le_dec _ _); [reflexivity|].
  cbn [snd]. apply delete_subseteq.
Qed.

(** X5: with [use_cache] off, [distill] neither reads nor writes the
    cache: the cache is left as it was, the result is never flagged as
    cached, and the result and the requests sent are the same whatever the
    cache holds and whatever the clock shows. *)
Theorem distill_without_cache (query : str) (ranked_chunks : list RankedChunk)
    (t_lookup t_store t_lookup' t_store' : Q) (cache cache' : Cache) :
  let d := distill query ranked_chunks false t_lookup t_store cache in
  let d' := distill query ranked_chunks false t_lookup' t_store' cache' in
  cache_after d = cache
  ∧ cached (result d) = false
  ∧ result d = result d'
  ∧ requests d = requests d'.
Proof.
  cbv zeta. destruct ranked_chunks as [|rc more]; [now repeat split|].
  unfold Haiku.distill.
  destruct (_get_client backend); [|now repeat split].
  destruct (messages_create backend _); now repeat split.
Qed.

(** X6: a call of [distill] changes the cache at most under the key of
    its query and chunks: every other entry is left as it was, whether the
    call was answered from the cache, by the backend or by the fallback. *)
Theorem distill_frame (query : str) (ranked_chunks : list RankedChunk)
    (use_cache : bool) (t_lookup t_store : Q) (cache : Cache) (other : str) :
  other ≠ key_of query ranked_chunks ->
  cache_after (distill query ranked_chunks use_cache t_lookup t_store cache) !! other
  = cache !! other.
Proof.
  intros Hne. destruct ranked_chunks as [|rc more]; [reflexivity|].
  unfold Haiku.distill.
  set (key := key_of query (rc :: more)) in *.
  destruct use_cache.
  - pose proof (check_cache_frame t_lookup key other cache Hne) as Hframe.
    destruct (_check_cache t_lookup key cache) as [answer cache1].
    cbn [snd] in Hframe.
    assert (Hstore : ∀ text, _store_cache t_store key text cache1 !! other = cache !! other).
    { intros text. unfold _store_cache. now rewrite lookup_insert_ne by congruence. }
    destruct answer as [[|ch text]|]; [|exact Hframe|];
      (destruct (_get_client backend);
       [destruct (messages_create backend _)|]); cbn [cache_after];
      first [exact Hframe | apply Hstore].
  - destruct (_get_client backend); [|reflexivity].
    destruct (messages_create backend _); reflexivity.
Qed.

(** X7: take a query and chunks of code points below 256, so that the
    cache key can be computed.  When the distiller has kept no client and
    cannot create one (no API key, or the package is missing), or when the
    backend call raises, a call of [distill] with chunks catches that
    error: it is answered from the cache, or it returns the fallback
    response built from the chunks, with the query type and the budget of
    the query.  Nothing is stored: the cache afterwards holds no entry
    that it did not hold before.  Without a client no request is sent. *)
Theorem distill_backend_unavailable (query : str) (ranked_chunks : list RankedChunk)
    (use_cache : bool) (t_lookup t_store : Q) (cache : Cache) :
  ranked_chunks ≠ [] ->
  _get_client backend = false
  ∨ messages_create backend (request_for query ranked_chunks) = Raises ->
  let d := distill query ranked_chunks use_cache t_lookup t_store cache in
  (cached (result d) = true
   ∨ result d
     = _fallback_response ranked_chunks (classify_query query)
         (get_token_budget (classify_query query) (haiku config)))
  ∧ cache_after d ⊆ cache
  ∧ (_get_client backend = false -> requests d = []).
Proof.
  intros Hne Hdown. destruct ranked_chunks as [|rc more]; [congruence|].
  cbv zeta. unfold Haiku.distill.
  set (key := key_of query (rc :: more)).
  assert (Hmiss : ∀ cache1, cache1 ⊆ cache ->
    let d :=
      if _get_client backend then
        match messages_create backend (request_for query (rc :: more)) with
        | Message blocks =>
            {| result :=
                 {| content := extract_text blocks;
                    query_type := classify_query query;
                    token_budget := get_token_budget (classify_query query) (haiku config);
                    cached := false |};
               cache_after :=
                 if use_cache
                 then _store_cache t_store key (extract_text blocks) cache1
                 else cache1;
               requests := [request_for query (rc :: more)] |}
        | Raises =>
            {| result := _fallback_response (rc :: more) (classify_query query)
                           (get_token_budget (classify_query query) (haiku config));
               cache_after := cache1;
               requests := [request_for query (rc :: more)] |}
        end
      else
        {| result := _fallback_response (rc :: more) (classify_query query)
                       (get_token_budget (classify_query query) (haiku config));
           cache_after := cache1;
           requests := [] |} in
    (cached (result d) = true
     ∨ result d
       = _fallback_response (rc :: more) (classify_query query)
           (get_token_budget (classify_query query) (haiku config)))
    ∧ cache_after d ⊆ cache
    ∧ (_get_client backend = false -> requests d = [])).
  { intros cache1 Hsub. cbv zeta.
    destruct (_get_client backend) eqn:Hclient.
    - destruct Hdown as [Hdown|Hdown]; [discriminate|]. rewrite Hdown.
      split; [now right|]. split; [exact Hsub|discriminate].
    - split; [now right|]. split; [exact Hsub|reflexivity]. }
  destruct use_cache.
  - pose proof (check_cache_shrinks t_lookup key cache) as Hsub.
    destruct (_check_cache t_lookup key cache) as [answer cache1].
    cbn [snd] in Hsub.
    destruct answer as [[|ch text]|]; try exact (Hmiss cache1 Hsub).
    cbn [result cache_after cached requests].
    split; [now left|]. split; [exact Hsub|reflexivity].
  - exact (Hmiss cache (reflexivity cache)).
Qed.

(** X8: the content that [distill] returns is never empty, whatever the
    chunks, the cache, the clock and the backend are: an empty cached text
    is not used, an empty or missing answer of the backend is replaced by
    a fixed message, and the fallback starts with a notice. *)
Theorem distill_content_nonempty (query : str) (ranked_chunks : list RankedChunk)
    (use_cache : bool) (t_lookup t_store : Q) (cache : Cache) :
  content (result (distill query ranked_chunks use_cache t_lookup t_store cache)) ≠ [].
Proof.
  destruct ranked_chunks as [|rc more]; [discriminate|].
  unfold Haiku.distill.
  destruct (if use_cache then _ else _) as [answer cache1].
  destruct answer as [[|ch text]|]; [|discriminate|];
    (destruct (_get_client backend);
     [destruct (messages_create backend _)|]); cbn [result];
    first [apply fallback_response_nonempty | apply extract_text_nonempty].
Qed.

(** X9: the cache key reads only the query and the concatenation of the
    first 100 characters of the content of each chunk.  So a call for
    other chunks, whose contents agree with those of an earlier call on
    that concatenation, is answered with the text stored by the earlier
    call, flagged as cached, and sends no request, when its lookup comes
    less than the TTL after the store. *)
Theorem distill_key_collision (query : str) (chunks1 chunks2 : list RankedChunk)
    (t1 ts1 t2 ts2 : Q) (cache : Cache) :
  chunks1 ≠ [] ->
  chunks2 ≠ [] ->
  concat (map (fun c => take 100 (Chunker.content (chunk c))) chunks1)
  = concat (map (fun c => take 100 (Chunker.content (chunk c))) chunks2) ->
  _get_client backend = true ->
  messages_create backend (request_for query chunks1) ≠ Raises ->
  t2 - ts1 < CACHE_TTL_SECONDS ->
  let first := distill query chunks1 true t1 ts1 cache in
  let second := distill query chunks2 true t2 ts2 (cache_after first) in
  key_of query chunks2 = key_of query chunks1
  ∧ (cached (result first) = false ->
     content (result second) = content (result first)
     ∧ cached (result second) = true
     ∧ requests second = []).
Proof.
  intros Hne1 Hne2 Hsame Hclient Hanswers Hage first second.
  assert (Hkey : key_of query chunks2 = key_of query chunks1).
  { unfold _get_cache_key. now rewrite Hsame. }
  split; [exact Hkey|]. intros Hfirst.
  destruct (distill_leaves_entry config backend md5_hexdigest query chunks1 t1 ts1 cache
              Hne1 Hclient Hanswers) as [Htext [stored_at [Hk [_ Hmiss]]]].
  fold first in Htext, Hk, Hmiss.
  destruct (Hmiss Hfirst) as [_ ->].
  rewrite <- Hkey in Hk. subst second.
  rewrite (distill_hit config backend md5_hexdigest query chunks2 t2 ts2 ts1 _ _
             Hne2 Htext Hk Hage).
  now repeat split.
Qed.

End DistillationFurther.

Lemma distill_frame_witness :
  cache_after
    (distill example_config answering_backend example_digest
       (py "where are options set") [example_ranked] true 0 1
       {[ py "other" := (py "kept", 0%Q) ]}) !! py "other"
  = ({[ py "other" := (py "kept", 0%Q) ]} : Cache) !! py "other".
Proof.
  apply (distill_frame example_config answering_backend example_digest).
  vm_compute. discriminate.
Defined.

Lemma distill_backend_unavailable_witness :
  let d :=
    distill example_config failing_backend example_digest
      (py "where are options set") [example_ranked] true 0 1 ∅ in
  (cached (result d) = true
   ∨ result d
     = _fallback_response [example_ranked] (classify_query (py "where are options set"))
         (get_token_budget (classify_query (py "where are options set"))
            (haiku example_config)))
  ∧ cache_after d ⊆ ∅
  ∧ (_get_client failing_backend = false -> requests d = []).
Proof.
  apply (distill_backend_unavailable example_config failing_backend example_digest).
  - discriminate.
  - right. reflexivity.
Defined.

(** Two chunks that differ only after their first 100 characters. *)
Lemma distill_key_collision_witness :
  let long_a := repeat "x"%char 100 ++ py "first" in
  let long_b := repeat "x"%char 100 ++ py "second" in
  let rc text :=
    {| chunk := {| Chunker.file_path := py "/ws/CLAUDE.md"; start_line := 1;
                   end_line := 1; Chunker.content := text; header := None |};
       score := 1%R; matched_keywords := [] |} in
  let first :=
    distill example_config answering_backend example_digest
      (py "where are options set") [rc long_a] true 0 1 ∅ in
  let second :=
    distill example_config answering_backend example_digest
      (py "where are options set") [rc long_b] true 100 101 (cache_after first) in
  cached (result second) = true.
Proof.
  cbv zeta.
  refine (proj1 (proj2 (proj2 (distill_key_collision example_config answering_backend
            example_digest (py "where are options set") _ _ 0 1 100 101 ∅
            _ _ _ _ _ _) _))).
  - discriminate.
  - discriminate.
  - reflexivity.
  - reflexivity.
  - discriminate.
  - reflexivity.
  - reflexivity.
Defined.

(** ** More on the ranking ([rank], [_calculate_score], [deduplicate]) *)

Section RankingFurther.

Local Open Scope R_scope.

Lemma dict_set_known (f : str -> nat) (kw : str) (l : list str) :
  In kw l ->
  dict_set kw (f kw) (map (fun k => (k, f k)) l) = map (fun k => (k, f k)) l.
Proof.
  induction l as [|k l IH]; [intros []|].
  intros Hin. cbn [map dict_set]. case_bool_decide as Hk.
  - now subst k.
  - destruct Hin as [->|Hin]; [congruence|]. now rewrite IH.
Qed.

Lemma dict_set_new (f : str -> nat) (kw : str) (l : list str) :
  ¬ In kw l ->
  dict_set kw (f kw) (map (fun k => (k, f k)) l) = map (fun k => (k, f k)) (l ++ [kw]).
Proof.
  induction l as [|k l IH]; [reflexivity|].
  intros Hin. cbn [map dict_set app]. case_bool_decide as Hk.
  - subst k. exfalso. apply Hin. now left.
  - rewrite IH; [reflexivity|]. intros H. apply Hin. now right.
Qed.

Lemma filter_differs_absent (kw : str) (l : list str) :
  ¬ In kw l -> List.filter (differs kw) l = l.
Proof.
  intros Hin. apply filter_all, List.Forall_forall.
  intros x Hx. apply differs_true. congruence.
Qed.

Lemma filter_and (f g : str -> bool) (l : list str) :
  List.filter f (List.filter g l) = List.filter (fun x => g x && f x) l.
Proof.
  induction l as [|x l IH]; [reflexivity|]. simpl.
  destruct (g x); simpl; [destruct (f x)|]; now rewrite IH.
Qed.

(** The keys of the dictionary that the loop of [_keyword_frequency]
    builds, starting from the keys [acc]. *)
Lemma keyword_frequency_loop (f : str -> nat) (keywords acc : list str) :
  fold_left (fun counts kw => dict_set kw (f kw) counts) keywords
    (map (fun k => (k, f k)) acc)
  = map (fun k => (k, f k))
      (acc ++ List.filter (fun k => negb (bool_decide (k ∈ acc)))
                (first_occurrences keywords)).
Proof.
  revert acc. induction keywords as [|kw keywords IH]; intros acc.
  - simpl. now rewrite app_nil_r.
  - cbn [fold_left first_occurrences List.filter].
    destruct (decide (kw ∈ acc)) as [Hin|Hin].
    + rewrite (dict_set_known f kw acc) by now apply list_elem_of_In.
      rewrite (IH acc), (bool_decide_eq_true_2 _ Hin). cbn [negb].
      rewrite filter_filter_comm.
      rewrite (filter_differs_absent kw); [reflexivity|].
      rewrite filter_In. intros [_ H].
      rewrite (bool_decide_eq_true_2 _ Hin) in H. discriminate.
    + rewrite (dict_set_new f kw acc) by now rewrite <- list_elem_of_In.
      rewrite IH, (bool_decide_eq_false_2 _ Hin). cbn [negb].
      rewrite <- app_assoc. cbn [app]. do 3 f_equal.
      rewrite filter_and.
      apply filter_ext. intros k. unfold differs, str_eqb.
      assert (Hiff : k ∈ acc ++ [kw] <-> k ∈ acc ∨ kw = k).
      { rewrite elem_of_app, list_elem_of_singleton. intuition. }
      rewrite (bool_decide_ext _ _ Hiff).
      destruct (decide (k ∈ acc)) as [Ha|Ha]; destruct (decide (kw = k)) as [Hk|Hk].
      * rewrite (bool_decide_eq_true_2 (k ∈ acc ∨ kw = k)) by now left.
        now rewrite (bool_decide_eq_true_2 _ Ha), andb_false_r.
      * rewrite (bool_decide_eq_true_2 (k ∈ acc ∨ kw = k)) by now left.
        now rewrite (bool_decide_eq_true_2 _ Ha), andb_false_r.
      * rewrite (bool_decide_eq_true_2 (k ∈ acc ∨ kw = k)) by now right.
        now rewrite (bool_decide_eq_true_2 _ Hk).
      * rewrite (bool_decide_eq_false_2 (k ∈ acc ∨ kw = k)) by (intros [?|?]; contradiction).
        now rewrite (bool_decide_eq_false_2 _ Ha), (bool_decide_eq_false_2 _ Hk).
Qed.

(** The dictionary of [_keyword_frequency]: one entry for each keyword,
    in the order in which the keywords first occur. *)
Lemma keyword_frequency_spec (text : str) (keywords : list str) :
  _keyword_frequency text keywords
  = map (fun kw => (kw, count (lower kw) (lower text))) (first_occurrences keywords).
Proof.
  unfold _keyword_frequency.
  pose proof (keyword_frequency_loop (fun kw => count (lower kw) (lower text)) keywords [])
    as Hloop.
  cbn [map app] in Hloop. cbv zeta. rewrite Hloop. f_equal. apply filter_all, List.Forall_forall. intros x _.
  rewrite bool_decide_eq_false_2; [reflexivity|]. apply not_elem_of_nil.
Qed.

(** The keywords that the loop of [_calculate_score] collects. *)
Lemma score_terms_matched (header : str) (doc_frequencies : gmap str nat)
    (total_docs : nat) (freqs : list (str * nat)) (score : R) (matched : list str) :
  snd (score_terms header doc_frequencies total_docs freqs score matched)
  = matched ++ map fst (List.filter (fun p => (0 <? snd p)%nat) freqs).
Proof.
  revert score matched. induction freqs as [|[kw n] freqs IH]; intros score matched.
  - simpl. now rewrite app_nil_r.
  - cbn [score_terms List.filter snd]. destruct (0 <? n)%nat.
    + rewrite IH, <- app_assoc. reflexivity.
    + apply IH.
Qed.

(** Without a matched keyword the loop leaves the score as it was. *)
Lemma score_terms_unmatched (header : str) (doc_frequencies : gmap str nat)
    (total_docs : nat) (freqs : list (str * nat)) (score : R) (matched : list str) :
  List.filter (fun p => (0 <? snd p)%nat) freqs = [] ->
  fst (score_terms header doc_frequencies total_docs freqs score matched) = score.
Proof.
  revert score matched. induction freqs as [|[kw n] freqs IH]; intros score matched.
  - reflexivity.
  - cbn [score_terms List.filter snd]. destruct (0 <? n)%nat; [discriminate|].
    apply IH.
Qed.

Lemma positive_count_mentions (kw : str) (c : Chunk) :
  (0 <? count (lower kw) (lower (combined_text c)))%nat = mentions kw c.
Proof.
  unfold mentions. destruct (contains _ _) eqn:Hc.
  - apply Nat.ltb_lt, count_positive, Hc.
  - now rewrite (count_zero _ _ Hc).
Qed.

Lemma chunk_score_chunk (chunks : list Chunk) (keywords : list str) (c : Chunk) :
  chunk (score_chunk chunks keywords c) = c.
Proof.
  unfold score_chunk. now destruct (_calculate_score _ _ _ _).
Qed.

Lemma matched_score_chunk (chunks : list Chunk) (keywords : list str) (c : Chunk) :
  matched_keywords (score_chunk chunks keywords c)
  = List.filter (fun kw => mentions kw c) (first_occurrences keywords).
Proof.
  unfold score_chunk, _calculate_score.
  pose proof (score_terms_matched (default [] (header c))
                (document_frequencies chunks keywords) (length chunks)
                (_keyword_frequency (combined_text c) keywords) 0 []) as Hm.
  destruct (score_terms _ _ _ _ _ _) as [s m]. cbn [snd app] in Hm.
  cbn [matched_keywords]. rewrite Hm, keyword_frequency_spec.
  induction (first_occurrences keywords) as [|kw l IH]; [reflexivity|].
  cbn [map List.filter snd]. rewrite positive_count_mentions.
  destruct (mentions kw c); cbn [map fst]; now rewrite IH.
Qed.

(** A chunk without a matched keyword has the score 0. *)
Lemma unmatched_score_chunk (chunks : list Chunk) (keywords : list str) (c : Chunk) :
  matched_keywords (score_chunk chunks keywords c) = [] ->
  score (score_chunk chunks keywords c) = 0.
Proof.
  unfold score_chunk, _calculate_score.
  pose proof (score_terms_matched (default [] (header c))
                (document_frequencies chunks keywords) (length chunks)
                (_keyword_frequency (combined_text c) keywords) 0 []) as Hm.
  pose proof (score_terms_unmatched (default [] (header c))
                (document_frequencies chunks keywords) (length chunks)
                (_keyword_frequency (combined_text c) keywords) 0 []) as Hs.
  destruct (score_terms _ _ _ _ _ _) as [s m]. cbn [fst snd app] in Hm, Hs.
  cbn [matched_keywords score]. intros ->.
  rewrite Hs; [lra|].
  destruct (List.filter _ _); [reflexivity|discriminate].
Qed.

Lemma insert_by_score_length (x : RankedChunk) (l : list RankedChunk) :
  length (insert_by_score x l) = S (length l).
Proof.
  induction l as [|y l IH]; [reflexivity|]. simpl.
  destruct (Rle_dec _ _); simpl; [reflexivity|now rewrite IH].
Qed.

Lemma sort_by_score_length (l : list RankedChunk) :
  length (sort_by_score l) = length l.
Proof.
  induction l as [|x l IH]; [reflexivity|]. simpl.
  now rewrite insert_by_score_length, IH.
Qed.

Lemma sort_by_score_In (x : RankedChunk) (l : list RankedChunk) :
  In x (sort_by_score l) <-> In x l.
Proof.
  induction l as [|y l IH]; [reflexivity|]. simpl.
  rewrite insert_by_score_In, IH. intuition.
Qed.

(** What the ranked list holds, before it is cut to [top_n]. *)
Lemma rank_In (top_n : nat) (chunks : list Chunk) (keywords : list str)
    (rc : RankedChunk) :
  In rc (rank top_n chunks keywords) ->
  ∃ c, In c chunks ∧ rc = score_chunk chunks keywords c ∧ 0 < score rc.
Proof.
  unfold rank. destruct chunks as [|c0 chunks]; [intros []|].
  destruct keywords as [|kw keywords]; [intros []|].
  intros Hin. apply list_elem_of_In in Hin.
  apply (fun H => elem_of_sublist _ _ _ H (sublist_take _ top_n)), list_elem_of_In in Hin.
  apply sort_by_score_In, filter_In in Hin as [Hin Hpos].
  apply in_map_iff in Hin as (c & <- & Hc).
  exists c. split; [exact Hc|]. split; [reflexivity|].
  now destruct (Rlt_dec 0 _).
Qed.

(** X10: the ranked list has at most [top_n] entries and at most one for
    each chunk; its scores do not increase along the list; every entry
    holds a chunk of the input with the score and the matched keywords
    computed for it, its score is positive and it matched at least one
    keyword. *)
Theorem rank_output (top_n : nat) (chunks : list Chunk) (keywords : list str) :
  let ranked := rank top_n chunks keywords in
  (length ranked <= top_n)%nat
  ∧ (length ranked <= length chunks)%nat
  ∧ StronglySorted by_score_desc ranked
  ∧ Forall (fun rc =>
              In (chunk rc) chunks
              ∧ rc = score_chunk chunks keywords (chunk rc)
              ∧ 0 < score rc
              ∧ matched_keywords rc ≠ []) ranked.
Proof.
  cbv zeta. split; [|split; [|split]].
  - unfold rank. destruct chunks; [simpl; lia|]. destruct keywords; [simpl; lia|].
    rewrite length_take. lia.
  - unfold rank. destruct chunks as [|c0 chunks]; [simpl; lia|].
    destruct keywords as [|kw keywords]; [simpl; lia|].
    rewrite length_take, sort_by_score_length.
    etransitivity; [apply Nat.le_min_r|].
    etransitivity; [apply List.filter_length_le|]. now rewrite length_map.
  - apply rank_sorted.
  - apply List.Forall_forall. intros rc Hin.
    destruct (rank_In _ _ _ _ Hin) as (c & Hc & -> & Hpos).
    rewrite chunk_score_chunk. split; [exact Hc|]. split; [reflexivity|].
    split; [exact Hpos|]. intros Hm.
    rewrite (unmatched_score_chunk _ _ _ Hm) in Hpos. lra.
Qed.

(** X11: the matched keywords of a chunk are the keywords that its
    combined text (header, space, content) mentions, ignoring case, each
    listed once, in the order of their first occurrence in the keyword
    list.  A keyword that is listed several times is still counted once
    for each listing in the document frequency: the document frequency
    of a keyword is the number of chunks that mention it times the number
    of times it is listed. *)
Theorem matched_keywords_spec (chunks : list Chunk) (keywords : list str)
    (c : Chunk) (kw : str) :
  matched_keywords (score_chunk chunks keywords c)
  = List.filter (fun kw => mentions kw c) (first_occurrences keywords)
  ∧ df chunks keywords kw
    = (occurrences kw keywords * length (List.filter (mentions kw) chunks))%nat.
Proof.
  split; [apply matched_score_chunk|].
  unfold df, document_frequencies.
  rewrite lookup_document_frequencies, lookup_empty. reflexivity.
Qed.

(** X12: a chunk whose combined text mentions none of the keywords gets
    the score 0 and no matched keyword, and is not in the ranked list. *)
Theorem rank_drops_unmatched (top_n : nat) (chunks : list Chunk)
    (keywords : list str) (c : Chunk) :
  (∀ kw, In kw keywords -> mentions kw c = false) ->
  matched_keywords (score_chunk chunks keywords c) = []
  ∧ score (score_chunk chunks keywords c) = 0
  ∧ ∀ rc, In rc (rank top_n chunks keywords) -> chunk rc ≠ c.
Proof.
  intros Hnone.
  assert (Hm : matched_keywords (score_chunk chunks keywords c) = []).
  { rewrite matched_score_chunk.
    destruct (List.filter _ _) as [|kw l] eqn:Hf; [reflexivity|].
    assert (Hin : In kw (List.filter (fun kw => mentions kw c) (first_occurrences keywords)))
      by (rewrite Hf; now left).
    apply filter_In in Hin as [Hin Hkw].
    apply (proj1 (first_occurrences_In _ _)) in Hin.
    rewrite (Hnone kw Hin) in Hkw. discriminate. }
  split; [exact Hm|]. split; [now apply unmatched_score_chunk|].
  intros rc Hin Hc.
  destruct (rank_In _ _ _ _ Hin) as (c' & _ & -> & Hpos).
  rewrite chunk_score_chunk in Hc. subst c'.
  rewrite (unmatched_score_chunk _ _ _ Hm) in Hpos. lra.
Qed.

Lemma ln_sixteen : ln 16 = 4 * ln 2.
Proof.
  replace 16 with ((2 * 2) * (2 * 2)) by lra.
  rewrite !ln_mult by lra. lra.
Qed.

(** A lone chunk that mentions the single keyword 15 times or more. *)
Lemma lone_chunk_unranked (top_n : nat) (c : Chunk) (kw : str) :
  (15 <= tf kw c)%nat ->
  score (score_chunk [c] [kw] c) < 0
  ∧ rank top_n [c] [kw] = [].
Proof.
  intros Htf.
  assert (Hmentions : mentions kw c = true).
  { rewrite <- positive_count_mentions. apply Nat.ltb_lt. unfold tf in Htf. lia. }
  assert (Hdf : df [c] [kw] kw = 1%nat).
  { rewrite df_counts.
    - cbn [List.filter]. now rewrite Hmentions.
    - unfold occurrences. cbn [List.filter]. now rewrite bool_decide_eq_true_2. }
  assert (Hscore : score (score_chunk [c] [kw] c) < 0).
  { unfold score_chunk, _calculate_score.
    change (_keyword_frequency (combined_text c) [kw]) with [(kw, tf kw c)].
    cbn [score_terms].
    replace (0 <? tf kw c)%nat with true by (symmetry; apply Nat.ltb_lt; lia).
    cbn [score_terms app length score].
    fold (df [c] [kw] kw). rewrite Hdf. simpl INR. rewrite sqrt_1.
    replace (1 / (1 + 1)) with (/ 2) by lra. rewrite ln_Rinv by lra.
    assert (Hln : 4 * ln 2 <= ln (1 + INR (tf kw c))).
    { rewrite <- ln_sixteen. apply ln_monotone; [lra|].
      apply le_INR in Htf. simpl in Htf. lra. }
    pose proof ln_two_lower_bound as Hl2.
    destruct (contains _ _); nra. }
  split; [exact Hscore|].
  unfold rank. cbn [map List.filter].
  destruct (Rlt_dec 0 _) as [Hpos|_]; [lra|]. cbn [sort_by_score fold_right].
  now destruct top_n.
Qed.

(** X13: when the search gives a single chunk and the query a single
    keyword, the inverse document frequency is [ln (1 / 2)], which is
    negative, so every occurrence of the keyword lowers the score: a
    chunk that mentions the keyword 15 times or more has a negative score
    and is dropped, and the ranked list is empty. *)
Theorem rank_lone_chunk (top_n : nat) (c : Chunk) (kw : str) :
  (15 <= tf kw c)%nat ->
  score (score_chunk [c] [kw] c) < 0
  ∧ rank top_n [c] [kw] = [].
Proof. exact (lone_chunk_unranked top_n c kw). Qed.

End RankingFurther.

Lemma rank_drops_unmatched_witness :
  score (score_chunk six_chunks two_keywords chunk_unrelated) = 0%R.
Proof.
  apply (rank_drops_unmatched 10 six_chunks two_keywords chunk_unrelated).
  intros kw [<-|[<-|[]]]; reflexivity.
Defined.

Lemma rank_lone_chunk_witness : rank 10 [chunk_repeating] [py "alpha"] = [].
Proof.
  apply (rank_lone_chunk 10 chunk_repeating (py "alpha")).
  vm_compute. lia.
Defined.

Section Deduplicate.

Variable hash : str -> Z.

Local Abbreviation key := (content_key hash).

Lemma deduplicate_loop_spec (seen : gset Z) (ranked_chunks : list RankedChunk) :
  let kept := deduplicate_loop hash seen ranked_chunks in
  sublist kept ranked_chunks
  ∧ Forall (fun rc => key rc ∉ seen) kept
  ∧ List.NoDup (map key kept)
  ∧ (∀ rc, In rc ranked_chunks -> key rc ∈ seen ∨ In (key rc) (map key kept)).
Proof.
  cbv zeta. revert seen.
  induction ranked_chunks as [|rc more IH]; intros seen.
  - cbn [deduplicate_loop map].
    split; [constructor|]. split; [constructor|]. split; [constructor|]. intros ? [].
  - cbn [deduplicate_loop]. fold (key rc). case_bool_decide as Hseen.
    + destruct (IH seen) as (Hsub & Hout & Hnd & Hcov).
      split; [now apply sublist_cons|]. split; [exact Hout|]. split; [exact Hnd|].
      intros x [<-|Hx]; [now left|now apply Hcov].
    + destruct (IH (seen ∪ {[key rc]})) as (Hsub & Hout & Hnd & Hcov).
      split; [now apply sublist_skip|]. split; [|split].
      * constructor; [exact Hseen|].
        eapply List.Forall_impl; [|exact Hout].
        intros x Hx Hin. apply Hx. apply elem_of_union. now left.
      * cbn [map]. constructor; [|exact Hnd].
        intros Hin. apply in_map_iff in Hin as (x & Hkx & Hx).
        rewrite List.Forall_forall in Hout. apply (Hout x Hx).
        apply elem_of_union. right. apply elem_of_singleton. exact Hkx.
      * intros x [<-|Hx]; [right; now left|].
        destruct (Hcov x Hx) as [Hin|Hin]; [|right; now right].
        apply elem_of_union in Hin as [Hin|Hin]; [now left|].
        apply elem_of_singleton in Hin. right. left. now symmetry.
Qed.

Lemma deduplicate_loop_idem (seen : gset Z) (ranked_chunks : list RankedChunk) :
  deduplicate_loop hash seen (deduplicate_loop hash seen ranked_chunks)
  = deduplicate_loop hash seen ranked_chunks.
Proof.
  revert seen. induction ranked_chunks as [|rc more IH]; intros seen; [reflexivity|].
  cbn [deduplicate_loop]. case_bool_decide as Hseen; [apply IH|].
  cbn [deduplicate_loop]. rewrite bool_decide_eq_false_2 by exact Hseen.
  now rewrite IH.
Qed.

(** X14: [deduplicate] keeps a sub-list of the ranked chunks, in their
    order, and always keeps the first one.  The chunks kept have pairwise
    different hashes of the first 200 characters of their content; every
    chunk dropped has the hash of a chunk kept.  Deduplicating a second
    time changes nothing. *)
Theorem deduplicate_spec (ranked_chunks : list RankedChunk) :
  let kept := deduplicate hash ranked_chunks in
  sublist kept ranked_chunks
  ∧ List.NoDup (map key kept)
  ∧ (∀ rc, In rc ranked_chunks -> ∃ rc', In rc' kept ∧ key rc' = key rc)
  ∧ head kept = head ranked_chunks
  ∧ deduplicate hash kept = kept.
Proof.
  cbv zeta. unfold deduplicate.
  destruct (deduplicate_loop_spec ∅ ranked_chunks) as (Hsub & _ & Hnd & Hcov).
  split; [exact Hsub|]. split; [exact Hnd|]. split; [|split].
  - intros rc Hin. destruct (Hcov rc Hin) as [Hempty|Hk].
    + now apply elem_of_empty in Hempty.
    + apply in_map_iff in Hk as (rc' & Hk & Hin'). now exists rc'.
  - destruct ranked_chunks as [|rc more]; [reflexivity|].
    cbn [deduplicate_loop]. rewrite bool_decide_eq_false_2; [reflexivity|].
    apply not_elem_of_empty.
  - apply deduplicate_loop_idem.
Qed.

End Deduplicate.

(** ** More on the segmentation ([chunk_markdown], [chunk_code], [chunk_file]) *)

Section Sections.

Local Open Scope Z_scope.

Lemma section_body_prefix (starts : str -> bool) (lines : list str) :
  take (length (section_body starts lines)) lines = section_body starts lines.
Proof.
  induction lines as [|l more IH]; [reflexivity|]. simpl.
  destruct (starts l); [reflexivity|]. simpl. now rewrite IH.
Qed.

Lemma section_body_clear (starts : str -> bool) (lines : list str) :
  Forall (fun l => starts l = false) (section_body starts lines).
Proof.
  induction lines as [|l more IH]; [constructor|]. simpl.
  destruct (starts l) eqn:Hl; [constructor|]. now constructor.
Qed.

(** The section that starts at the line after [done]: its lines. *)
Lemma slice_section (done : list str) (l : str) (more body : list str) :
  take (length body) more = body ->
  slice (done ++ l :: more) (len done) (len done + 1 + len body) = l :: body.
Proof.
  intros Hbody. unfold slice, len.
  replace (Z.to_nat (Z.of_nat (length done) + 1 + Z.of_nat (length body)
                     - Z.of_nat (length done)))
    with (S (length body)) by lia.
  rewrite Nat2Z.id, drop_app_length. simpl. now rewrite Hbody.
Qed.

Lemma len_app_one (done : list str) (l : str) : len (done ++ [l]) = len done + 1.
Proof. unfold len. rewrite length_app. simpl. lia. Qed.

Lemma lstrip_keeps (s : str) :
  Exists (fun c => is_space c = false) s -> lstrip s ≠ [].
Proof.
  induction 1 as [c s Hc|c s _ IH]; simpl.
  - now rewrite Hc.
  - destruct (is_space c); [exact IH|discriminate].
Qed.

(** A text that starts with a character other than white space is not
    stripped to nothing. *)
Lemma strip_keeps (c : ascii) (s : str) :
  is_space c = false -> strip (c :: s) ≠ [].
Proof.
  intros Hc. unfold strip, rstrip. cbn [lstrip]. rewrite Hc.
  intros H. apply (f_equal (@rev ascii)) in H. rewrite rev_involutive in H.
  revert H. apply lstrip_keeps. cbn [rev]. apply Exists_app. right. now left.
Qed.

Lemma close_hashes_level (line : str) (n level : nat) (group2 : str) :
  close_hashes line n = Some (level, group2) -> (1 <= level <= n)%nat.
Proof.
  induction n as [|k IH]; [discriminate|]. cbn [close_hashes].
  destruct (close_spaces _ _).
  - intros [= <- _]. lia.
  - intros H. apply IH in H. lia.
Qed.

(** A heading line starts with a hash sign. *)
Lemma heading_starts_with_hash (line : str) (level : nat) (group2 : str) :
  MD_HEADER_PATTERN line = Some (level, group2) -> ∃ rest, line = "#"%char :: rest.
Proof.
  unfold MD_HEADER_PATTERN. intros H. apply close_hashes_level in H.
  destruct line as [|c rest]; [simpl in H; lia|].
  cbn [take_class] in H. unfold is_hash in H at 1.
  case_bool_decide as Hc; [subst c; now exists rest|simpl in H; lia].
Qed.

(** The heading that [find_headers] finds next. *)
Lemma find_headers_next (j : Z) (more : list str) :
  match find_headers j more with
  | (next_idx, _, _) :: _ => next_idx = j + len (section_body is_heading more)
  | [] => section_body is_heading more = more
  end.
Proof.
  revert j. induction more as [|l more IH]; intros j; [reflexivity|].
  cbn [find_headers section_body]. unfold is_heading at 1 3.
  destruct (MD_HEADER_PATTERN l) as [[level group2]|].
  - unfold len. simpl. lia.
  - specialize (IH (j + 1)). destruct (find_headers (j + 1) more) as [|[[idx ?] ?] ?].
    + now rewrite IH.
    + unfold len in *. cbn [length]. lia.
Qed.

Lemma find_functions_next (pattern : Pattern) (j : Z) (more : list str) :
  match find_functions pattern j more with
  | (next_idx, _) :: _ => next_idx = j + len (section_body (matches pattern) more)
  | [] => section_body (matches pattern) more = more
  end.
Proof.
  revert j. induction more as [|l more IH]; intros j; [reflexivity|].
  cbn [find_functions section_body]. unfold matches at 1 3.
  destruct (pattern l) as [name|].
  - unfold len. simpl. lia.
  - specialize (IH (j + 1)). destruct (find_functions pattern (j + 1) more) as [|[idx ?] ?].
    + now rewrite IH.
    + unfold len in *. cbn [length]. lia.
Qed.

(** One step of the loop of [chunk_markdown] at a heading line: the
    section runs to the line before the next heading, or to the end of the
    file, and is never skipped. *)
Lemma markdown_sections_heading (file_path : str) (done : list str) (l : str)
    (more : list str) (level : nat) (group2 : str) :
  MD_HEADER_PATTERN l = Some (level, group2) ->
  markdown_sections file_path (done ++ l :: more)
    (find_headers (len done) (l :: more))
  = {| Chunker.file_path := file_path;
       start_line := len done + 1;
       end_line := len done + 1 + len (section_body is_heading more);
       Chunker.content := join [newline] (l :: section_body is_heading more);
       header := Some (strip group2) |}
    :: markdown_sections file_path ((done ++ [l]) ++ more)
         (find_headers (len (done ++ [l])) more).
Proof.
  intros Hl. cbn [find_headers]. rewrite Hl. cbn [markdown_sections].
  rewrite len_app_one, <- app_assoc. cbn [app].
  set (body := section_body is_heading more).
  set (rest := find_headers (len done + 1) more).
  assert (Hend : match rest with
                 | (next_idx, _, _) :: _ => next_idx - 1
                 | [] => len (done ++ l :: more) - 1
                 end = len done + len body).
  { pose proof (find_headers_next (len done + 1) more) as Hnext. fold rest body in Hnext.
    destruct rest as [|[[idx ?] ?] ?].
    - rewrite Hnext. unfold len. rewrite length_app. cbn [length]. lia.
    - lia. }
  rewrite Hend.
  replace (len done + len body + 1) with (len done + 1 + len body) by lia.
  rewrite (slice_section done l more body (section_body_prefix _ _)).
  destruct (heading_starts_with_hash _ _ _ Hl) as [tail ->].
  assert (Hkept : strip (join [newline] (("#"%char :: tail) :: body)) ≠ []).
  { destruct body; apply strip_keeps; reflexivity. }
  cbv zeta. destruct (strip _); [congruence|reflexivity].
Qed.

Lemma markdown_sections_other (file_path : str) (done : list str) (l : str)
    (more : list str) :
  MD_HEADER_PATTERN l = None ->
  markdown_sections file_path (done ++ l :: more)
    (find_headers (len done) (l :: more))
  = markdown_sections file_path ((done ++ [l]) ++ more)
      (find_headers (len (done ++ [l])) more).
Proof.
  intros Hl. cbn [find_headers]. rewrite Hl, len_app_one, <- app_assoc. reflexivity.
Qed.

Lemma code_sections_declaration (file_path : str) (pattern : Pattern)
    (done : list str) (l : str) (more : list str) (name : str) :
  pattern l = Some name ->
  code_sections file_path (done ++ l :: more)
    (find_functions pattern (len done) (l :: more))
  = {| Chunker.file_path := file_path;
       start_line := len done + 1;
       end_line := len done + 1 + len (section_body (matches pattern) more);
       Chunker.content := join [newline] (l :: section_body (matches pattern) more);
       header := Some (py "function " ++ name) |}
    :: code_sections file_path ((done ++ [l]) ++ more)
         (find_functions pattern (len (done ++ [l])) more).
Proof.
  intros Hl. cbn [find_functions]. rewrite Hl. cbn [code_sections].
  rewrite len_app_one, <- app_assoc. cbn [app].
  set (body := section_body (matches pattern) more).
  set (rest := find_functions pattern (len done + 1) more).
  assert (Hend : match rest with
                 | (next_idx, _) :: _ => next_idx - 1
                 | [] => len (done ++ l :: more) - 1
                 end = len done + len body).
  { pose proof (find_functions_next pattern (len done + 1) more) as Hnext.
    fold rest body in Hnext.
    destruct rest as [|[idx ?] ?].
    - rewrite Hnext. unfold len. rewrite length_app. cbn [length]. lia.
    - lia. }
  rewrite Hend.
  replace (len done + len body + 1) with (len done + 1 + len body) by lia.
  now rewrite (slice_section done l more body (section_body_prefix _ _)).
Qed.

Lemma code_sections_other (file_path : str) (pattern : Pattern)
    (done : list str) (l : str) (more : list str) :
  pattern l = None ->
  code_sections file_path (done ++ l :: more)
    (find_functions pattern (len done) (l :: more))
  = code_sections file_path ((done ++ [l]) ++ more)
      (find_functions pattern (len (done ++ [l])) more).
Proof.
  intros Hl. cbn [find_functions]. rewrite Hl, len_app_one, <- app_assoc. reflexivity.
Qed.

Lemma chunk_lines_section (file_path : str) (a b : Z) (l : str) (body : list str)
    (h : option str) :
  Forall (fun x => ¬ In newline x) (l :: body) ->
  chunk_lines {| Chunker.file_path := file_path; start_line := a; end_line := b;
                 Chunker.content := join [newline] (l :: body); header := h |}
  = l :: body.
Proof. intros Hnl. unfold chunk_lines. cbn [Chunker.content]. now apply split_join. Qed.

Lemma section_body_no_newline (starts : str -> bool) (lines : list str) :
  Forall (fun x => ¬ In newline x) lines ->
  Forall (fun x => ¬ In newline x) (section_body starts lines).
Proof.
  intros H. rewrite <- section_body_prefix. now apply Forall_take.
Qed.

(** The sections of a markdown file, from the lines [rest] on. *)
Lemma markdown_sections_partition (file_path : str) (done rest : list str) :
  Forall (fun x => ¬ In newline x) rest ->
  let chunks :=
    markdown_sections file_path (done ++ rest) (find_headers (len done) rest) in
  length chunks = length (List.filter is_heading rest)
  ∧ rest = section_body is_heading rest ++ concat (map chunk_lines chunks)
  ∧ Forall (fun c =>
              ∃ l body level group2,
                chunk_lines c = l :: body
                ∧ MD_HEADER_PATTERN l = Some (level, group2)
                ∧ header c = Some (strip group2)
                ∧ Forall (fun x => is_heading x = false) body) chunks.
Proof.
  cbv zeta. revert done. induction rest as [|l more IH]; intros done Hnl.
  - cbn. split; [reflexivity|]. split; [reflexivity|constructor].
  - inversion Hnl as [|? ? Hl Hmore]; subst.
    destruct (IH (done ++ [l]) Hmore) as (Hlen & Hcat & Hshape).
    cbn [List.filter section_body].
    destruct (MD_HEADER_PATTERN l) as [[level group2]|] eqn:Hmd.
    + replace (is_heading l) with true by (unfold is_heading; now rewrite Hmd).
      rewrite (markdown_sections_heading _ _ _ _ _ _ Hmd).
      assert (Hlines : chunk_lines
                {| Chunker.file_path := file_path;
                   start_line := len done + 1;
                   end_line := len done + 1 + len (section_body is_heading more);
                   Chunker.content := join [newline] (l :: section_body is_heading more);
                   header := Some (strip group2) |}
              = l :: section_body is_heading more).
      { apply chunk_lines_section. constructor; [exact Hl|].
        now apply section_body_no_newline. }
      split; [cbn [length]; now rewrite Hlen|]. split.
      * cbn [map concat app]. rewrite Hlines. cbn [app]. now rewrite <- Hcat.
      * constructor; [|exact Hshape].
        exists l, (section_body is_heading more), level, group2.
        split; [exact Hlines|]. split; [exact Hmd|]. split; [reflexivity|].
        apply section_body_clear.
    + replace (is_heading l) with false by (unfold is_heading; now rewrite Hmd).
      rewrite (markdown_sections_other _ _ _ _ Hmd).
      split; [exact Hlen|]. split; [|exact Hshape].
      cbn [app]. now rewrite <- Hcat.
Qed.

Lemma code_sections_partition (file_path : str) (pattern : Pattern)
    (done rest : list str) :
  Forall (fun x => ¬ In newline x) rest ->
  let chunks :=
    code_sections file_path (done ++ rest) (find_functions pattern (len done) rest) in
  length chunks = length (List.filter (matches pattern) rest)
  ∧ rest = section_body (matches pattern) rest ++ concat (map chunk_lines chunks)
  ∧ Forall (fun c =>
              ∃ l body name,
                chunk_lines c = l :: body
                ∧ pattern l = Some name
                ∧ header c = Some (py "function " ++ name)
                ∧ Forall (fun x => matches pattern x = false) body) chunks.
Proof.
  cbv zeta. revert done. induction rest as [|l more IH]; intros done Hnl.
  - cbn. split; [reflexivity|]. split; [reflexivity|constructor].
  - inversion Hnl as [|? ? Hl Hmore]; subst.
    destruct (IH (done ++ [l]) Hmore) as (Hlen & Hcat & Hshape).
    cbn [List.filter section_body].
    destruct (pattern l) as [name|] eqn:Hp.
    + replace (matches pattern l) with true by (unfold matches; now rewrite Hp).
      rewrite (code_sections_declaration _ _ _ _ _ _ Hp).
      assert (Hlines : chunk_lines
                {| Chunker.file_path := file_path;
                   start_line := len done + 1;
                   end_line := len done + 1 + len (section_body (matches pattern) more);
                   Chunker.content :=
                     join [newline] (l :: section_body (matches pattern) more);
                   header := Some (py "function " ++ name) |}
              = l :: section_body (matches pattern) more).
      { apply chunk_lines_section. constructor; [exact Hl|].
        now apply section_body_no_newline. }
      split; [cbn [length]; now rewrite Hlen|]. split.
      * cbn [map concat app]. rewrite Hlines. cbn [app]. now rewrite <- Hcat.
      * constructor; [|exact Hshape].
        exists l, (section_body (matches pattern) more), name.
        split; [exact Hlines|]. split; [exact Hp|]. split; [reflexivity|].
        apply section_body_clear.
    + replace (matches pattern l) with false by (unfold matches; now rewrite Hp).
      rewrite (code_sections_other _ _ _ _ _ Hp).
      split; [exact Hlen|]. split; [|exact Hshape].
      cbn [app]. now rewrite <- Hcat.
Qed.

Lemma find_headers_none (i : Z) (lines : list str) :
  find_headers i lines = [] <-> Forall (fun l => is_heading l = false) lines.
Proof.
  revert i. induction lines as [|l more IH]; intros i.
  - split; [constructor|reflexivity].
  - cbn [find_headers]. split.
    + intros H. unfold is_heading.
      destruct (MD_HEADER_PATTERN l) as [[? ?]|] eqn:Hl; [discriminate|].
      constructor; [now rewrite Hl|]. now apply (IH (i + 1)).
    + intros H. inversion H as [|? ? Hl Hmore]; subst. unfold is_heading in Hl.
      destruct (MD_HEADER_PATTERN l) as [[? ?]|]; [discriminate|]. now apply IH.
Qed.

Lemma find_functions_none (pattern : Pattern) (i : Z) (lines : list str) :
  find_functions pattern i lines = []
  <-> Forall (fun l => matches pattern l = false) lines.
Proof.
  revert i. induction lines as [|l more IH]; intros i.
  - split; [constructor|reflexivity].
  - cbn [find_functions]. split.
    + intros H. unfold matches.
      destruct (pattern l) eqn:Hl; [discriminate|].
      constructor; [now rewrite Hl|]. now apply (IH (i + 1)).
    + intros H. inversion H as [|? ? Hl Hmore]; subst. unfold matches in Hl.
      destruct (pattern l); [discriminate|]. now apply IH.
Qed.

Lemma filter_none (f : str -> bool) (l : list str) :
  Forall (fun x => f x = false) l -> List.filter f l = [].
Proof.
  induction 1 as [|x l Hx _ IH]; [reflexivity|]. simpl. now rewrite Hx.
Qed.

(** X15: a markdown file with a heading gives one chunk for each heading
    line, in the order of the headings; no section is skipped.  The lines
    of a chunk are a heading line, whose title is the header of the
    chunk, and the lines after it up to the next heading.  The lines of
    the file are the lines before the first heading followed by the lines
    of the chunks: after the first heading every line is in exactly one
    chunk.  A file without a heading gives the whole file as one chunk
    without a header. *)
Theorem chunk_markdown_sections (file_content file_path : str) :
  let lines := split newline file_content in
  let chunks := chunk_markdown file_content file_path in
  (Exists (fun l => is_heading l = true) lines ->
   length chunks = length (List.filter is_heading lines)
   ∧ lines = section_body is_heading lines ++ concat (map chunk_lines chunks)
   ∧ Forall (fun c =>
               ∃ l body level group2,
                 chunk_lines c = l :: body
                 ∧ MD_HEADER_PATTERN l = Some (level, group2)
                 ∧ header c = Some (strip group2)
                 ∧ Forall (fun x => is_heading x = false) body) chunks)
  ∧ (Forall (fun l => is_heading l = false) lines ->
     chunks = whole_file file_path file_content).
Proof.
  cbv zeta. unfold chunk_markdown. split.
  - intros Hex.
    pose proof (markdown_sections_partition file_path [] (split newline file_content)
                  (split_no_sep newline file_content)) as Hpart.
    cbv zeta in Hpart. cbn [app] in Hpart. change (len []) with 0 in Hpart.
    destruct (find_headers 0 (split newline file_content)) eqn:Hh; [|exact Hpart].
    exfalso. apply find_headers_none in Hh.
    apply Exists_exists in Hex as (l & Hin & Hl).
    rewrite List.Forall_forall in Hh. apply list_elem_of_In in Hin.
    rewrite (Hh l Hin) in Hl. discriminate.
  - intros Hnone. apply (find_headers_none 0) in Hnone. now rewrite Hnone.
Qed.

(** X16: a code file in which the pattern matches some line gives one
    chunk for each matching line, in order.  The lines of a chunk are a
    matching line, whose first group names the chunk ("function" and the
    name), and the lines after it up to the next matching line.  The
    lines of the file are the lines before the first match followed by the
    lines of the chunks: what stands before the first match, such as the
    imports of a module, is in no chunk.  A file without a match gives
    the whole file as one chunk without a header. *)
Theorem chunk_code_sections (file_content file_path : str) (pattern : Pattern) :
  let lines := split newline file_content in
  let chunks := chunk_code file_content file_path pattern in
  (Exists (fun l => matches pattern l = true) lines ->
   length chunks = length (List.filter (matches pattern) lines)
   ∧ lines = section_body (matches pattern) lines ++ concat (map chunk_lines chunks)
   ∧ Forall (fun c =>
               ∃ l body name,
                 chunk_lines c = l :: body
                 ∧ pattern l = Some name
                 ∧ header c = Some (py "function " ++ name)
                 ∧ Forall (fun x => matches pattern x = false) body) chunks)
  ∧ (Forall (fun l => matches pattern l = false) lines ->
     chunks = whole_file file_path file_content).
Proof.
  cbv zeta. unfold chunk_code. split.
  - intros Hex.
    pose proof (code_sections_partition file_path pattern [] (split newline file_content)
                  (split_no_sep newline file_content)) as Hpart.
    cbv zeta in Hpart. cbn [app] in Hpart. change (len []) with 0 in Hpart.
    destruct (find_functions pattern 0 (split newline file_content)) eqn:Hh;
      [|exact Hpart].
    exfalso. apply find_functions_none in Hh.
    apply Exists_exists in Hex as (l & Hin & Hl).
    rewrite List.Forall_forall in Hh. apply list_elem_of_In in Hin.
    rewrite (Hh l Hin) in Hl. discriminate.
  - intros Hnone. apply (find_functions_none pattern 0) in Hnone. now rewrite Hnone.
Qed.

Lemma chunk_markdown_nonempty (file_content file_path : str) :
  chunk_markdown file_content file_path ≠ [].
Proof.
  unfold chunk_markdown.
  pose proof (markdown_sections_partition file_path [] (split newline file_content)
                (split_no_sep newline file_content)) as (Hlen & _ & _).
  cbn [app] in Hlen. change (len []) with 0 in Hlen.
  destruct (find_headers 0 (split newline file_content)) as [|h hs] eqn:Hh;
    [discriminate|].
  intros Hnil. rewrite Hnil in Hlen. cbn [length] in Hlen.
  assert (Hnone : find_headers 0 (split newline file_content) = []).
  { apply find_headers_none.
    destruct (List.filter is_heading (split newline file_content)) eqn:Hf;
      [|discriminate].
    apply List.Forall_forall. intros l Hin.
    destruct (is_heading l) eqn:Hl; [|reflexivity].
    assert (In l (List.filter is_heading (split newline file_content)))
      by (apply filter_In; split; [exact Hin|exact Hl]).
    rewrite Hf in H. destruct H. }
  rewrite Hnone in Hh. discriminate.
Qed.

Lemma chunk_code_nonempty (file_content file_path : str) (pattern : Pattern) :
  chunk_code file_content file_path pattern ≠ [].
Proof.
  unfold chunk_code.
  destruct (find_functions pattern 0 (split newline file_content)) as [|[idx name] fs];
    discriminate.
Qed.

(** The chunks of a file carry its path. *)
Lemma chunk_file_path (patterns : CodePatterns) (read_text : str -> option str)
    (file_path : str) :
  Forall (fun c => Chunker.file_path c = file_path)
    (chunk_file patterns read_text file_path).
Proof.
  unfold chunk_file. destruct (read_text file_path) as [content|]; [|constructor].
  assert (Hmd : Forall (fun c => Chunker.file_path c = file_path)
                  (chunk_markdown content file_path)).
  { unfold chunk_markdown. destruct (find_headers 0 _) as [|h hs].
    - repeat constructor.
    - generalize (h :: hs). intros headers.
      induction headers as [|[[idx level] title] rest IH]; [constructor|].
      cbn [markdown_sections]. destruct (strip _); [exact IH|]. now constructor. }
  assert (Hcode : ∀ pattern, Forall (fun c => Chunker.file_path c = file_path)
                               (chunk_code content file_path pattern)).
  { intros pattern. unfold chunk_code. destruct (find_functions pattern 0 _) as [|f fs].
    - repeat constructor.
    - generalize (f :: fs). intros functions.
      induction functions as [|[idx name] rest IH]; [constructor|].
      cbn [code_sections]. now constructor. }
  destruct (_detect_file_type file_path);
    first [ exact Hmd | apply Hcode | repeat constructor ].
Qed.

(** X17: [chunk_file] gives no chunk exactly when the file cannot be
    read; reading errors are not raised.  Every file that can be read
    gives at least one chunk, whatever its type and content, and all its
    chunks carry the path of the file. *)
Theorem chunk_file_readable (patterns : CodePatterns) (read_text : str -> option str)
    (file_path : str) :
  (chunk_file patterns read_text file_path = [] <-> read_text file_path = None)
  ∧ Forall (fun c => Chunker.file_path c = file_path)
      (chunk_file patterns read_text file_path).
Proof.
  split; [|apply chunk_file_path].
  unfold chunk_file. destruct (read_text file_path) as [content|]; [|now split].
  split; [|discriminate]. intros H. exfalso. revert H.
  destruct (_detect_file_type file_path);
    first [ apply chunk_markdown_nonempty | apply chunk_code_nonempty | discriminate ].
Qed.

End Sections.

Lemma chunk_markdown_sections_witness :
  let lines := split newline example_markdown in
  let chunks := chunk_markdown example_markdown (py "/ws/CLAUDE.md") in
  length chunks = length (List.filter is_heading lines)
  ∧ lines = section_body is_heading lines ++ concat (map chunk_lines chunks).
Proof.
  destruct (proj1 (chunk_markdown_sections example_markdown (py "/ws/CLAUDE.md")))
    as (Hlen & Hcat & _).
  - apply Exists_cons_tl, Exists_cons_hd. reflexivity.
  - split; [exact Hlen|exact Hcat].
Defined.

Lemma chunk_code_sections_witness :
  let lines := split newline example_code in
  let chunks := chunk_code example_code (py "/ws/.claude/tool.py") def_pattern in
  length chunks = length (List.filter (matches def_pattern) lines)
  ∧ lines = section_body (matches def_pattern) lines ++ concat (map chunk_lines chunks).
Proof.
  destruct (proj1 (chunk_code_sections example_code (py "/ws/.claude/tool.py") def_pattern))
    as (Hlen & Hcat & _).
  - apply Exists_cons_tl, Exists_cons_hd. reflexivity.
  - split; [exact Hlen|exact Hcat].
Defined.

(** ** Chunks of the search results ([chunk_from_results]) *)

Section ChunksOfResults.

Local Open Scope Z_scope.

Variable patterns : CodePatterns.
Variable read_text : str -> option str.

Lemma first_occurrences_snoc (l : list str) (x : str) :
  first_occurrences (l ++ [x])
  = if bool_decide (x ∈ l) then first_occurrences l else first_occurrences l ++ [x].
Proof.
  induction l as [|y l IH]; [reflexivity|].
  cbn [app first_occurrences]. rewrite IH.
  destruct (decide (x ∈ l)) as [Hx|Hx].
  - rewrite (bool_decide_eq_true_2 _ Hx), bool_decide_eq_true_2; [reflexivity|].
    now apply list_elem_of_further.
  - rewrite (bool_decide_eq_false_2 _ Hx), List.filter_app. cbn [List.filter].
    destruct (decide (y = x)) as [->|Hy].
    + rewrite bool_decide_eq_true_2 by apply list_elem_of_here.
      replace (differs x x) with false; [now rewrite app_nil_r|].
      symmetry. apply not_true_iff_false. rewrite differs_true. congruence.
    + rewrite bool_decide_eq_false_2.
      2:{ intros H. apply elem_of_cons in H as [H|H]; congruence. }
      replace (differs y x) with true; [reflexivity|].
      symmetry. now apply differs_true.
Qed.

Lemma results_of_file_snoc (done : list SearchResult) (r : SearchResult) (p : str) :
  results_of_file (done ++ [r]) p
  = results_of_file done p ++ (if bool_decide (Search.file_path r = p) then [r] else []).
Proof. unfold results_of_file. now rewrite List.filter_app. Qed.

(** One step of the grouping loop, on the groups of the results seen so
    far. *)
Lemma group_add_groups (done : list SearchResult) (r : SearchResult) (keys : list str) :
  List.NoDup keys ->
  (Search.file_path r ∉ keys -> results_of_file done (Search.file_path r) = []) ->
  group_add r (map (fun p => (p, results_of_file done p)) keys)
  = map (fun p => (p, results_of_file (done ++ [r]) p))
      (if bool_decide (Search.file_path r ∈ keys) then keys
       else keys ++ [Search.file_path r]).
Proof.
  induction keys as [|p keys IH]; intros Hnd Hnew.
  - cbn [map group_add]. rewrite bool_decide_eq_false_2 by apply not_elem_of_nil.
    cbn [app map]. rewrite results_of_file_snoc, (Hnew (not_elem_of_nil _)).
    now rewrite bool_decide_eq_true_2.
  - inversion Hnd as [|? ? Hp Hkeys]; subst.
    cbn [map group_add]. destruct (decide (p = Search.file_path r)) as [Hpr|Hpr].
    + rewrite (bool_decide_eq_true_2 _ Hpr). subst p.
      rewrite (bool_decide_eq_true_2 (Search.file_path r ∈ Search.file_path r :: keys))
        by apply list_elem_of_here.
      cbn [map]. rewrite results_of_file_snoc.
      rewrite (bool_decide_eq_true_2 (Search.file_path r = Search.file_path r))
        by reflexivity.
      f_equal. apply map_ext_in. intros k Hk.
      rewrite results_of_file_snoc, bool_decide_eq_false_2, app_nil_r; [reflexivity|].
      intros Hrk. apply Hp. now rewrite Hrk.
    + rewrite (bool_decide_eq_false_2 _ Hpr), IH; [|exact Hkeys|].
      2:{ intros Hout. apply Hnew. intros H.
          apply elem_of_cons in H as [H|H]; [congruence|contradiction]. }
      rewrite (bool_decide_ext (Search.file_path r ∈ p :: keys)
                 (Search.file_path r ∈ keys)).
      2:{ rewrite elem_of_cons. split; [intros [H|H]; [congruence|exact H]|now right]. }
      destruct (bool_decide (Search.file_path r ∈ keys)); cbn [map app];
        now rewrite (results_of_file_snoc done r p), (bool_decide_eq_false_2 _)
          by congruence; rewrite app_nil_r.
Qed.

(** The dictionary of the grouping loop: one entry for each file, in the
    order in which the files first occur, with the results of that file
    in their order. *)
Lemma results_by_file_spec (results : list SearchResult) :
  results_by_file results
  = map (fun p => (p, results_of_file results p))
      (first_occurrences (map Search.file_path results)).
Proof.
  unfold results_by_file.
  induction results as [|r done IH] using rev_ind; [reflexivity|].
  rewrite fold_left_app. cbn [fold_left]. rewrite IH, map_app. cbn [map].
  rewrite first_occurrences_snoc.
  rewrite (bool_decide_ext (Search.file_path r ∈ map Search.file_path done)
             (Search.file_path r ∈ first_occurrences (map Search.file_path done))).
  2:{ rewrite !list_elem_of_In. symmetry. apply first_occurrences_In. }
  apply group_add_groups; [apply first_occurrences_NoDup|].
  intros Hout. unfold results_of_file.
  destruct (List.filter _ done) as [|r' l] eqn:Hf; [reflexivity|].
  exfalso. apply Hout.
  assert (Hin : In r' (List.filter
                         (fun r0 => bool_decide (Search.file_path r0 = Search.file_path r))
                         done)) by (rewrite Hf; now left).
  apply filter_In in Hin as [Hin Heq]. apply bool_decide_eq_true_1 in Heq.
  apply list_elem_of_In, first_occurrences_In, in_map_iff. now exists r'.
Qed.

Lemma holds_result_iff (file_results : list SearchResult) (c : Chunk) :
  holds_result file_results c = true
  <-> ∃ r, In r file_results ∧ start_line c <= line_number r <= end_line c.
Proof.
  unfold holds_result. rewrite existsb_exists. split.
  - intros (r & Hin & Hr). apply andb_true_iff in Hr as [H1 H2].
    exists r. split; [exact Hin|]. lia.
  - intros (r & Hin & Hr). exists r. split; [exact Hin|].
    apply andb_true_iff. split; lia.
Qed.

(** X18: [chunk_from_results] returns a chunk exactly when it is a chunk
    of the file of some search result and the line of that result lies
    in the chunk: no chunk without a result line is returned and no chunk
    with a result line is left out.  The chunks come file by file, in the
    order in which the files first occur in the results. *)
Theorem chunk_from_results_spec (results : list SearchResult) (c : Chunk) :
  (In c (chunk_from_results patterns read_text results)
   <-> ∃ r, In r results
            ∧ In c (chunk_file patterns read_text (Search.file_path r))
            ∧ start_line c <= line_number r <= end_line c)
  ∧ chunk_from_results patterns read_text results
    = flat_map (fun p =>
                  List.filter (holds_result (results_of_file results p))
                    (chunk_file patterns read_text p))
        (first_occurrences (map Search.file_path results)).
Proof.
  assert (Heq : chunk_from_results patterns read_text results
                = flat_map (fun p =>
                              List.filter (holds_result (results_of_file results p))
                                (chunk_file patterns read_text p))
                    (first_occurrences (map Search.file_path results))).
  { unfold chunk_from_results. destruct results as [|r0 rs]; [reflexivity|].
    rewrite results_by_file_spec.
    generalize (first_occurrences (map Search.file_path (r0 :: rs))). intros keys.
    induction keys as [|p keys IH]; [reflexivity|].
    cbn [map flat_map fst snd]. now rewrite IH. }
  split; [|exact Heq]. rewrite Heq, in_flat_map. split.
  - intros (p & _ & Hc). apply filter_In in Hc as [Hc Hholds].
    apply holds_result_iff in Hholds as (r & Hr & Hline).
    apply filter_In in Hr as [Hr Hp]. apply bool_decide_eq_true_1 in Hp. subst p.
    now exists r.
  - intros (r & Hr & Hc & Hline). exists (Search.file_path r). split.
    + apply first_occurrences_In, in_map_iff. now exists r.
    + apply filter_In. split; [exact Hc|].
      apply holds_result_iff. exists r. split; [|exact Hline].
      apply filter_In. split; [exact Hr|]. now apply bool_decide_eq_true_2.
Qed.

Lemma in_order_NoDup (chunks : list Chunk) :
  Forall (fun c => start_line c <= end_line c) chunks ->
  in_order chunks -> List.NoDup chunks.
Proof.
  intros Hle Hord. induction Hord as [|c chunks Hs IH Hc]; [constructor|].
  inversion Hle as [|? ? Hcle Hrest]; subst.
  constructor; [|now apply IH].
  intros Hin. rewrite List.Forall_forall in Hc. specialize (Hc c Hin). lia.
Qed.

Lemma segmentation_NoDup (file_content : str) (chunks : list Chunk) :
  segmentation_ok file_content chunks -> List.NoDup chunks.
Proof.
  intros [Hall Hord]. apply in_order_NoDup; [|exact Hord].
  eapply List.Forall_impl; [|exact Hall]. intros c (H & _). exact H.
Qed.

Lemma chunk_file_NoDup (file_path : str) :
  List.NoDup (chunk_file patterns read_text file_path).
Proof.
  unfold chunk_file. destruct (read_text file_path) as [content|]; [|constructor].
  destruct (_detect_file_type file_path);
    first [ exact (segmentation_NoDup _ _ (chunk_markdown_ok content file_path))
          | exact (segmentation_NoDup _ _ (chunk_code_ok content file_path _))
          | repeat constructor; intros [] ].
Qed.

Lemma flat_map_NoDup (f : str -> list Chunk) (keys : list str) :
  List.NoDup keys ->
  (∀ p, List.NoDup (f p)) ->
  (∀ p c, In c (f p) -> Chunker.file_path c = p) ->
  List.NoDup (flat_map f keys).
Proof.
  intros Hkeys Hnd Hpath. induction Hkeys as [|p keys Hp _ IH]; [constructor|].
  cbn [flat_map]. apply NoDup_ListNoDup, NoDup_app.
  split; [apply NoDup_ListNoDup, Hnd|]. split; [|apply NoDup_ListNoDup, IH].
  intros c Hc Hc'. apply list_elem_of_In in Hc, Hc'.
  apply in_flat_map in Hc' as (p' & Hp' & Hc').
  apply Hpath in Hc, Hc'. apply Hp. congruence.
Qed.

(** X19: [chunk_from_results] returns every chunk once, however many
    result lines lie in it, and every chunk it returns carries the path
    of a file in which the search found a result. *)
Theorem chunk_from_results_once (results : list SearchResult) :
  List.NoDup (chunk_from_results patterns read_text results)
  ∧ Forall (fun c => ∃ r, In r results ∧ Chunker.file_path c = Search.file_path r)
      (chunk_from_results patterns read_text results).
Proof.
  assert (Heq : chunk_from_results patterns read_text results
                = flat_map (fun p =>
                              List.filter (holds_result (results_of_file results p))
                                (chunk_file patterns read_text p))
                    (first_occurrences (map Search.file_path results))).
  { unfold chunk_from_results. destruct results as [|r0 rs]; [reflexivity|].
    rewrite results_by_file_spec.
    generalize (first_occurrences (map Search.file_path (r0 :: rs))). intros keys.
    induction keys as [|p keys IH]; [reflexivity|].
    cbn [map flat_map fst snd]. now rewrite IH. }
  assert (Hpath : ∀ p c,
            In c (List.filter (holds_result (results_of_file results p))
                    (chunk_file patterns read_text p)) ->
            Chunker.file_path c = p).
  { intros p c Hc. apply filter_In in Hc as [Hc _].
    pose proof (chunk_file_path patterns read_text p) as Hall. rewrite List.Forall_forall in Hall.
    now apply Hall. }
  rewrite Heq. split.
  - apply flat_map_NoDup; [apply first_occurrences_NoDup| |exact Hpath].
    intros p. apply List.NoDup_filter, chunk_file_NoDup.
  - apply List.Forall_forall. intros c Hc.
    apply in_flat_map in Hc as (p & Hp & Hc).
    apply first_occurrences_In, in_map_iff in Hp as (r & Hr & Hin).
    exists r. split; [exact Hin|]. rewrite Hr. now apply Hpath.
Qed.

End ChunksOfResults.

(** ** The lines of the tool output and the search pattern ([search.py]) *)

Section ToolOutput.

Lemma match_hit_no_colon (group1 rest : str) :
  ¬ In ":"%char rest -> match_hit group1 rest = None.
Proof.
  revert group1. induction rest as [|c rest IH]; intros group1 Hc; [reflexivity|].
  cbn [match_hit]. rewrite bool_decide_eq_false_2.
  - apply IH. intros H. apply Hc. now right.
  - intros ->. apply Hc. now left.
Qed.

Lemma close_digits_colon (digits content : str) :
  digits ≠ [] ->
  close_digits (digits ++ ":"%char :: content) (length digits) = Some (digits, content).
Proof.
  intros Hne. destruct digits as [|d ds]; [congruence|].
  cbn [length close_digits]. change (S (length ds)) with (length (d :: ds)).
  rewrite drop_app_length, take_app_length.
  now rewrite bool_decide_eq_true_2.
Qed.

Lemma match_hit_path (group1 path digits content : str) :
  ¬ In ":"%char path ->
  digits ≠ [] ->
  Forall (fun c => is_digit c = true) digits ->
  match_hit group1 (path ++ ":"%char :: digits ++ ":"%char :: content)
  = Some (group1 ++ path, digits, content).
Proof.
  intros Hpath Hne Hdigits. revert group1.
  induction path as [|c path IH]; intros group1.
  - cbn [app match_hit]. rewrite bool_decide_eq_true_2 by reflexivity.
    rewrite (take_class_app is_digit digits (":"%char :: content) Hdigits) by reflexivity.
    rewrite (close_digits_colon digits content Hne). now rewrite app_nil_r.
  - cbn [app match_hit]. rewrite bool_decide_eq_false_2.
    + rewrite IH; [now rewrite <- app_assoc|]. intros H. apply Hpath. now right.
    + intros ->. apply Hpath. now left.
Qed.

(** A relative path in normal form, and an absolute one, are their own
    text. *)
Lemma posix_path_normal (parts : list str) :
  parts ≠ [] ->
  Forall (fun x => x ≠ [] ∧ x ≠ py "." ∧ ¬ In "/"%char x) parts ->
  posix_path (join (py "/") parts) = join (py "/") parts
  ∧ posix_path (py "/" ++ join (py "/") parts) = py "/" ++ join (py "/") parts.
Proof.
  intros Hne Hparts.
  assert (Hsplit : split "/"%char (join (py "/") parts) = parts).
  { apply (split_join "/"%char parts Hne).
    eapply List.Forall_impl; [|exact Hparts]. now intros x (_ & _ & Hx). }
  assert (Hrooted : split "/"%char (py "/" ++ join (py "/") parts) = [] :: parts).
  { cbn [py list_ascii_of_string app split].
    rewrite bool_decide_eq_true_2 by reflexivity. f_equal. exact Hsplit. }
  assert (Hkeep : List.filter
                    (fun x => negb (str_eqb x []) && negb (str_eqb x (py "."))) parts
                  = parts).
  { apply filter_all. eapply List.Forall_impl; [|exact Hparts].
    intros x (H1 & H2 & _). unfold str_eqb.
    now rewrite !bool_decide_eq_false_2. }
  assert (Hdrop : List.filter
                    (fun x => negb (str_eqb x []) && negb (str_eqb x (py ".")))
                    ([] :: parts)
                  = parts).
  { cbn [List.filter]. unfold str_eqb at 1.
    rewrite bool_decide_eq_true_2 by reflexivity. exact Hkeep. }
  unfold posix_path. rewrite Hsplit, Hrooted, Hkeep, Hdrop.
  destruct parts as [|[|c p] ps]; [congruence| |].
  { inversion Hparts as [|? ? (H & _) _]. congruence. }
  assert (Hc : bool_decide (c = "/"%char) = false).
  { apply bool_decide_eq_false_2. intros ->.
    inversion Hparts as [|? ? (_ & _ & H) _]. apply H. now left. }
  split.
  - destruct ps as [|q ps]; cbn [join app take_class]; rewrite Hc; reflexivity.
  - destruct ps as [|q ps]; cbn [join app py list_ascii_of_string take_class];
      rewrite bool_decide_eq_true_2 by reflexivity; rewrite Hc; reflexivity.
Qed.

(** X20: a line of tool output made of a non-empty path without a colon,
    a colon, a line number in decimal digits, a colon and a text is split
    by the line pattern into these three parts, whatever the text holds
    (further colons and digits included).  With at most 4300 digits the
    loop appends one result: the text that the path object of the host
    gives to the path, the number read from the digits, the text stripped,
    and the first keyword that the text holds, ignoring case.  With more
    digits the loop ends in the [ValueError] of [int].  A line without a
    colon is not a result line: it is skipped.  On a POSIX host the path
    object normalises the path (empty and [.] components go, as in
    [/ws//a/./b.md/]); a path of components that are not empty, not [.]
    and joined by single slashes, relative or absolute, is kept as it was
    printed. *)
Theorem parse_result_line (mk_path : str -> str) (keywords : list str)
    (results : list SearchResult) (path digits content : str) :
  path ≠ [] ->
  ¬ In ":"%char path ->
  digits ≠ [] ->
  Forall (fun c => is_digit c = true) digits ->
  let line := path ++ py ":" ++ digits ++ py ":" ++ content in
  match_line line = Some (path, digits, content)
  ∧ ((length digits <= int_max_str_digits)%nat ->
     parse_lines mk_path keywords [line] results
     = Some (results ++ [ {| Search.file_path := mk_path path;
                             line_number := digits_value digits;
                             line_content := strip content;
                             match_text := first_matching keywords content |} ]))
  ∧ ((int_max_str_digits < length digits)%nat ->
     parse_lines mk_path keywords [line] results = None)
  ∧ (∀ other, ¬ In ":"%char other ->
       parse_lines mk_path keywords [other] results = Some results)
  ∧ (∀ parts,
       parts ≠ [] ->
       Forall (fun x => x ≠ [] ∧ x ≠ py "." ∧ ¬ In "/"%char x) parts ->
       posix_path (join (py "/") parts) = join (py "/") parts
       ∧ posix_path (py "/" ++ join (py "/") parts) = py "/" ++ join (py "/") parts)
  ∧ posix_path (py "/ws//a/./b.md/") = py "/ws/a/b.md".
Proof.
  intros Hne Hpath Hdne Hdigits line.
  assert (Hmatch : match_line line = Some (path, digits, content)).
  { subst line. destruct path as [|c path]; [congruence|].
    cbn [app match_line py list_ascii_of_string].
    rewrite (match_hit_path [c] path digits content); [reflexivity| |exact Hdne|exact Hdigits].
    intros H. apply Hpath. now right. }
  assert (Hline : ∃ c rest, line = c :: rest).
  { subst line. destruct path as [|c path]; [congruence|]. now eexists _, _. }
  split; [exact Hmatch|]. split; [|split; [|split; [|split]]].
  - intros Hlen. destruct Hline as (c & rest & Hline). cbn [parse_lines].
    rewrite Hmatch, Hline. unfold int_of_digits.
    destruct (Nat.leb_spec (length digits) int_max_str_digits); [reflexivity|lia].
  - intros Hlen. destruct Hline as (c & rest & Hline). cbn [parse_lines].
    rewrite Hmatch, Hline. unfold int_of_digits.
    destruct (Nat.leb_spec (length digits) int_max_str_digits); [lia|reflexivity].
  - intros other Hother. cbn [parse_lines].
    destruct other as [|c other]; [reflexivity|].
    unfold match_line. rewrite match_hit_no_colon; [reflexivity|].
    intros H. apply Hother. now right.
  - exact posix_path_normal.
  - reflexivity.
Qed.

Lemma re_special_ident_char (c : ascii) :
  is_ident_char c = true -> re_special c = false.
Proof.
  destruct c as [[] [] [] [] [] [] [] []]; vm_compute; congruence.
Qed.

Lemma re_escape_identifier (w : str) :
  Forall (fun c => is_ident_char c = true) w -> re_escape w = w.
Proof.
  unfold re_escape. induction 1 as [|c w Hc _ IH]; [reflexivity|].
  cbn [flat_map]. now rewrite (re_special_ident_char c Hc), IH.
Qed.

Lemma identifier_chars (w : str) :
  is_identifier w = true -> Forall (fun c => is_ident_char c = true) w.
Proof.
  destruct w as [|c t]; [discriminate|]. cbn [is_identifier].
  intros H. apply andb_true_iff in H as [Hc Ht].
  constructor; [now apply is_ident_start_char|].
  apply List.Forall_forall. now apply forallb_forall.
Qed.

Lemma join_chars (P : ascii -> Prop) (sep : str) (parts : list str) :
  Forall P sep -> Forall (Forall P) parts -> Forall P (join sep parts).
Proof.
  intros Hsep. induction 1 as [|p ps Hp Hps IH]; [constructor|].
  cbn [join]. destruct ps as [|q ps]; [exact Hp|].
  apply Forall_app. split; [exact Hp|]. apply Forall_app. now split.
Qed.

(** X21: the keywords of a query need no escaping: the search pattern
    built from them is the keywords joined by a bar, and it holds only
    letters, digits, underscores and bars, so no character of the query
    that is special in a regular expression reaches the search tool. *)
Theorem or_pattern_of_keywords (query : str) :
  or_pattern (extract_keywords query) = join (py "|") (extract_keywords query)
  ∧ Forall (fun c => is_ident_char c = true ∨ c = "|"%char)
      (or_pattern (extract_keywords query)).
Proof.
  pose proof (extract_keywords_each query) as Heach.
  assert (Hchars : Forall (Forall (fun c => is_ident_char c = true))
                     (extract_keywords query)).
  { eapply List.Forall_impl; [|exact Heach].
    intros w (Hw & _). now apply identifier_chars. }
  assert (Heq : or_pattern (extract_keywords query)
                = join (py "|") (extract_keywords query)).
  { unfold or_pattern. f_equal. clear Heach.
    induction (extract_keywords query) as [|w ws IH]; [reflexivity|].
    inversion Hchars as [|? ? Hw Hws]; subst.
    cbn [map]. now rewrite (re_escape_identifier w Hw), (IH Hws). }
  split; [exact Heq|]. rewrite Heq. apply join_chars.
  - change (py "|") with ["|"%char]. constructor; [now right|constructor].
  - eapply List.Forall_impl; [|exact Hchars].
    intros w Hw. eapply List.Forall_impl; [|exact Hw]. intros c Hc. now left.
Qed.

End ToolOutput.

Lemma parse_result_line_witness :
  parse_lines posix_path [py "add"] [py "/ws//a.md:12:Add 3:4"] []
  = Some [ {| Search.file_path := py "/ws/a.md"; line_number := 12;
              line_content := py "Add 3:4"; match_text := py "add" |} ].
Proof.
  apply (proj1 (proj2 (parse_result_line posix_path [py "add"] []
                         (py "/ws//a.md") (py "12") (py "Add 3:4")
                         ltac:(discriminate) ltac:(vm_compute; intuition discriminate)
                         ltac:(discriminate) ltac:(repeat constructor)))).
  vm_compute. lia.
Defined.

(** ** The answers of the server ([server.py]) *)

Section Answers.

Variable host : Host.
Variable config : Config.
Variable patterns : CodePatterns.
Variable read_text : str -> option str.
Variable hash : str -> Z.

Local Abbreviation ask := (Server.ask_knowledge_base host config patterns read_text hash).

Lemma search_query_raises (query msg : str) :
  search_query host config query = RuntimeError msg ->
  msg = py "Neither ripgrep nor grep is available.".
Proof.
  unfold search_query. destruct (extract_keywords query) as [|kw kws]; [discriminate|].
  unfold ripgrep_search. destruct (negb (_use_ripgrep host config)).
  - intros H. now apply grep_search_raises in H.
  - intros H. now apply ripgrep_loop_raises in H.
Qed.

Lemma search_query_value_error (query : str) :
  search_query host config query = ValueError ->
  ∃ cmd stdout, run host cmd = Completed stdout ∧ overlong_number stdout.
Proof.
  unfold search_query. destruct (extract_keywords query) as [|kw kws]; [discriminate|].
  unfold ripgrep_search. destruct (negb (_use_ripgrep host config)).
  - apply grep_search_value_error.
  - apply ripgrep_loop_value_error.
Qed.

Lemma format_response_nonempty (ranked_chunks : list RankedChunk) (query_type : str) :
  Server.format_chunks_for_response ranked_chunks query_type ≠ [].
Proof.
  unfold Server.format_chunks_for_response.
  destruct ranked_chunks as [|rc more]; [discriminate|].
  cbn [Server.response_parts]. apply join_nonempty. discriminate.
Qed.

(** X22: on an initialised server, [ask_knowledge_base] answers every
    query and context, on every workspace and on every host whose path
    checks answer and whose tool invocations complete, time out or find no
    executable, with a text that is not empty, or raises an error of the
    search.  There are two such errors: the [RuntimeError] that says that
    neither ripgrep nor grep is available, and the [ValueError] of [int],
    which is raised only after an invocation completed with a result line
    whose line number has more than 4300 digits. *)
Theorem ask_knowledge_base_answers (query : str) (context : option str) :
  match ask query context with
  | Server.Text response => response ≠ []
  | Server.Raised msg => msg = py "Neither ripgrep nor grep is available."
  | Server.RaisedValueError =>
      ∃ cmd stdout, run host cmd = Completed stdout ∧ overlong_number stdout
  end.
Proof.
  unfold Server.ask_knowledge_base. fold (search_text query context).
  destruct (negb (has_knowledge_base (path_exists host) config)); [discriminate|].
  destruct (search_query host config (search_text query context))
    as [[|r rs]|msg|] eqn:Hsearch.
  - discriminate.
  - destruct (chunk_from_results patterns read_text (r :: rs)) as [|c cs];
      [discriminate|].
    apply format_response_nonempty.
  - exact (search_query_raises _ _ Hsearch).
  - exact (search_query_value_error _ Hsearch).
Qed.

(** X23: a search can find the keyword and still be answered with "No
    relevant information found in knowledge base.".  When the search
    results lie in a single chunk and the searched text has a single
    keyword that the chunk mentions 15 times or more, the ranking drops
    the chunk for its negative score, and the answer is that message. *)
Theorem ask_lone_chunk (query : str) (context : option str)
    (r : SearchResult) (rs : list SearchResult) (c : Chunk) (kw : str) :
  has_knowledge_base (path_exists host) config = true ->
  search_query host config (search_text query context) = Returned (r :: rs) ->
  chunk_from_results patterns read_text (r :: rs) = [c] ->
  extract_keywords (search_text query context) = [kw] ->
  (15 <= tf kw c)%nat ->
  ask query context
  = Server.Text (py "No relevant information found in knowledge base.").
Proof.
  intros Hkb Hsearch Hchunks Hkw Htf.
  unfold Server.ask_knowledge_base. fold (search_text query context).
  rewrite Hkb. cbn [negb]. rewrite Hsearch, Hchunks, Hkw.
  now rewrite (proj2 (lone_chunk_unranked _ c kw Htf)).
Qed.

End Answers.

Lemma ask_lone_chunk_witness :
  Server.ask_knowledge_base repeating_host example_config no_patterns repeating_file
    (fun _ => 0%Z) (py "alpha") None
  = Server.Text (py "No relevant information found in knowledge base.").
Proof.
  eapply (ask_lone_chunk repeating_host example_config no_patterns repeating_file
            (fun _ => 0%Z) (py "alpha") None).
  - reflexivity.
  - vm_compute. reflexivity.
  - vm_compute. reflexivity.
  - vm_compute. reflexivity.
  - vm_compute. lia.
Defined.
